(** * Distill: a shallow embedding of the dialogue core

    The development follows the TypeScript sources of the plugin:
    the constants table, the request layer ([OpenRouterClient]), the note
    parser ([AtomicNoteParser]), the two dialogue phases
    ([InterpretationPhase], [RefinementLoop]) and the orchestrator
    ([DialogueOrchestrator]).

    Strings are [string]s of 8-bit characters.  The JavaScript built-ins
    ([trim], [toUpperCase], [startsWith], [slice], ...) are written out for
    ASCII text; characters above 127 are neither white space nor changed by
    [toUpperCase]. *)

From Stdlib Require Import String Ascii List Bool Arith ZArith Lia.
From Stdlib Require Import DecimalString.
Import ListNotations.

Open Scope bool_scope.
Open Scope string_scope.
Open Scope nat_scope.

(* ====================================================================== *)
(** * JavaScript string built-ins *)
(* ====================================================================== *)

Module Js.

(** [\s] restricted to ASCII: TAB, LF, VT, FF, CR and SPACE. *)
Definition isWhiteSpace (c : ascii) : bool :=
  let n := nat_of_ascii c in
  ((9 <=? n) && (n <=? 13)) || (n =? 32).

(** Line terminators ([.] does not match them): LF and CR. *)
Definition isLineTerminator (c : ascii) : bool :=
  let n := nat_of_ascii c in
  (n =? 10) || (n =? 13).

Definition toUpperChar (c : ascii) : ascii :=
  let n := nat_of_ascii c in
  if (97 <=? n) && (n <=? 122) then ascii_of_nat (n - 32) else c.

Fixpoint toUpperCase (s : string) : string :=
  match s with
  | EmptyString => EmptyString
  | String c r => String (toUpperChar c) (toUpperCase r)
  end.

Definition isEmpty (s : string) : bool :=
  match s with EmptyString => true | _ => false end.

Fixpoint trimStart (s : string) : string :=
  match s with
  | EmptyString => EmptyString
  | String c r => if isWhiteSpace c then trimStart r else s
  end.

Fixpoint trimEnd (s : string) : string :=
  match s with
  | EmptyString => EmptyString
  | String c r =>
      let r' := trimEnd r in
      if isWhiteSpace c && isEmpty r' then EmptyString else String c r'
  end.

Definition trim (s : string) : string := trimEnd (trimStart s).

(** [s.startsWith(k)] *)
Fixpoint startsWith (s k : string) {struct k} : bool :=
  match k with
  | EmptyString => true
  | String a k' =>
      match s with
      | EmptyString => false
      | String b s' => Ascii.eqb a b && startsWith s' k'
      end
  end.

(** [s.includes(k)] *)
Fixpoint includes (s k : string) : bool :=
  startsWith s k ||
  match s with
  | EmptyString => false
  | String _ r => includes r k
  end.

Fixpoint take (n : nat) (s : string) : string :=
  match n, s with
  | S n', String c r => String c (take n' r)
  | _, _ => EmptyString
  end.

Fixpoint drop (n : nat) (s : string) : string :=
  match n, s with
  | S n', String _ r => drop n' r
  | _, _ => s
  end.

(** Relative index of [slice]: negative counts from the end, and the
    result is clamped to [0, length]. *)
Definition relIndex (len i : Z) : Z :=
  if (i <? 0)%Z then Z.max (len + i) 0 else Z.min i len.

(** [s.slice(b, e)] *)
Definition slice (s : string) (b e : Z) : string :=
  let len := Z.of_nat (String.length s) in
  let from := relIndex len b in
  let to := relIndex len e in
  take (Z.to_nat (to - from)) (drop (Z.to_nat from) s).

(** [s.slice(b)] *)
Definition sliceFrom (s : string) (b : Z) : string :=
  let len := Z.of_nat (String.length s) in
  drop (Z.to_nat (relIndex len b)) s.

(** [s.lastIndexOf(k)], scanning with the current index [i]. *)
Fixpoint lastIndexOfFrom (s k : string) (i : Z) : Z :=
  match s with
  | EmptyString => if startsWith s k then i else (-1)%Z
  | String _ r =>
      let later := lastIndexOfFrom r k (i + 1) in
      if (0 <=? later)%Z then later
      else if startsWith s k then i else (-1)%Z
  end.

Definition lastIndexOf (s k : string) : Z := lastIndexOfFrom s k 0.

(** [s.split(sep)] for a one-character separator. *)
Fixpoint split (s : string) (sep : ascii) : list string :=
  match s with
  | EmptyString => [EmptyString]
  | String c r =>
      if Ascii.eqb c sep then EmptyString :: split r sep
      else match split r sep with
           | [] => [String c EmptyString]
           | piece :: pieces => String c piece :: pieces
           end
  end.

(** [xs.join(sep)] *)
Fixpoint join (xs : list string) (sep : string) : string :=
  match xs with
  | [] => EmptyString
  | [x] => x
  | x :: rest => x ++ sep ++ join rest sep
  end.

(** Expansion of the [$]-patterns of a replacement string when the
    pattern is a plain string (no capture groups): [$$], [$&], [$`]
    and [$']; every other [$] stays as it is. *)
Fixpoint getSubstitution (matched before after replacement : string) : string :=
  match replacement with
  | EmptyString => EmptyString
  | String c r =>
      if Ascii.eqb c "$" then
        match r with
        | String d r' =>
            if Ascii.eqb d "$" then
              String "$" (getSubstitution matched before after r')
            else if Ascii.eqb d "&" then
              matched ++ getSubstitution matched before after r'
            else if Ascii.eqb d "`" then
              before ++ getSubstitution matched before after r'
            else if Ascii.eqb d "'" then
              after ++ getSubstitution matched before after r'
            else String c (getSubstitution matched before after r)
        | EmptyString => String c EmptyString
        end
      else String c (getSubstitution matched before after r)
  end.

(** [s.replace(pat, replacement)] with a string pattern: the first
    occurrence only.  [before] accumulates the text already scanned. *)
Fixpoint replaceFrom (before s pat replacement : string) : string :=
  if startsWith s pat then
    getSubstitution pat before (drop (String.length pat) s) replacement
    ++ drop (String.length pat) s
  else match s with
       | EmptyString => EmptyString
       | String c r =>
           String c (replaceFrom (before ++ String c EmptyString) r pat replacement)
       end.

Definition replace (s pat replacement : string) : string :=
  replaceFrom EmptyString s pat replacement.

(** Template literal [${n}] for a non-negative integer. *)
Definition numberToString (n : nat) : string :=
  NilZero.string_of_uint (Nat.to_uint n).

Definition nl : string := String (ascii_of_nat 10) EmptyString.
Definition dq : string := String (ascii_of_nat 34) EmptyString.

End Js.

(* ====================================================================== *)
(** * constants.ts *)
(* ====================================================================== *)

Module API.
Definition MAX_RETRIES : nat := 3.
Definition RETRY_BASE_DELAY_MS : Z := 1000.
Definition RETRY_MAX_DELAY_MS : Z := 10000.
Definition RETRYABLE_STATUS_CODES : list nat := [429; 503; 502; 504].
End API.

Module CONTENT.
Definition MAX_ARTICLE_CHARS : Z := 24000.
End CONTENT.

Module DIALOGUE.
Definition ALIGNMENT_KEYWORDS : list string :=
  ["ALIGNED"; "I AGREE WITH THIS INTERPRETATION"; "WE ARE ALIGNED"].
Definition APPROVAL_KEYWORDS : list string := ["APPROVED"].
Definition MARGINAL_KEYWORDS : list string := ["MARGINAL"].
End DIALOGUE.

(* ====================================================================== *)
(** * types.ts *)
(* ====================================================================== *)

Inductive MessageRole := system | user | assistant.

Module ChatMessage.
Record t := mk { role : MessageRole; content : string }.
End ChatMessage.

Inductive ModelRole := drafter | critic.

Module ExtractedArticle.
Record t := mk {
  title : string;
  content : string;
  url : string;
  siteName : option string;
  excerpt : option string
}.
End ExtractedArticle.

Module AtomicNote.
Record t := mk {
  heading : string;
  content : string;
  hasLink : bool;
  raw : string
}.
End AtomicNote.

Module ValidationResult.
Record t := mk { valid : bool; issues : list string }.
End ValidationResult.

Module DialoguePhase.
Inductive t := interpreting | aligned | drafting | refining | complete | error.
End DialoguePhase.

Module DialogueState.
Record t := mk {
  phase : DialoguePhase.t;
  interpretationRounds : nat;
  refinementRounds : nat;
  claudeInterpretation : option string;
  gptInterpretation : option string;
  alignedInterpretation : option string;
  currentDraft : option (list AtomicNote.t);
  currentCritique : option string;
  error : option string
}.
End DialogueState.

Module DialogueResult.
Record t := mk {
  article : ExtractedArticle.t;
  state : DialogueState.t;
  atomicNotes : list AtomicNote.t;
  totalApiCalls : nat
}.
End DialogueResult.

Module ProgressUpdate.
Record t := mk {
  phase : DialoguePhase.t;
  currentRound : option nat;
  maxRounds : option nat;
  message : string
}.
End ProgressUpdate.

Module DistillSettings.
Record t := mk {
  openRouterApiKey : string;
  drafterModel : string;
  criticModel : string;
  maxInterpretationRounds : nat;
  maxRefinementRounds : nat;
  inboxPath : string
}.
End DistillSettings.

Module TranscriptEntry.
Inductive EntryType := draft | critique | revision.
Record t := mk {
  phase : string;
  role : ModelRole;
  type : EntryType;
  content : string;
  round : nat
}.
End TranscriptEntry.

(* ====================================================================== *)
(** * parsing/AtomicNoteParser.ts *)
(* ====================================================================== *)

Module AtomicNoteParser.
Import Js.

(** The lookahead [^###\s] of the section splitter, tested at the front
    of the remaining text. *)
Definition headingAhead (s : string) : bool :=
  startsWith s "###" &&
  match drop 3 s with
  | String c _ => isWhiteSpace c
  | EmptyString => false
  end.

(** [modelOutput.split(/(?=^###\s)/m)]: a cut is made before every
    position other than 0 that follows a line terminator and has the
    heading marker ahead. *)
Fixpoint splitSections (s : string) : list string :=
  match s with
  | EmptyString => [EmptyString]
  | String c r =>
      if isLineTerminator c && headingAhead r then
        String c EmptyString :: splitSections r
      else
        match splitSections r with
        | [] => [String c EmptyString]
        | piece :: pieces => String c piece :: pieces
        end
  end.

(** [headingLine.replace(/^###\s*/, empty)] *)
Definition stripHeadingMarker (headingLine : string) : string :=
  if startsWith headingLine "###" then trimStart (drop 3 headingLine)
  else headingLine.

(** [/\[.+?\]\(.+?\)/.test(content)], written as the scanner the
    pattern denotes: [closeParen] looks for the closing parenthesis once
    one character of the target has been read, and so on outwards. *)
Fixpoint closeParen (s : string) : bool :=
  match s with
  | EmptyString => false
  | String c r =>
      Ascii.eqb c ")" || (negb (isLineTerminator c) && closeParen r)
  end.

Definition linkTarget (s : string) : bool :=
  match s with
  | String c r => negb (isLineTerminator c) && closeParen r
  | EmptyString => false
  end.

Fixpoint closeBracket (s : string) : bool :=
  match s with
  | EmptyString => false
  | String c r =>
      (startsWith s "](" && linkTarget (drop 2 s))
      || (negb (isLineTerminator c) && closeBracket r)
  end.

Definition linkText (s : string) : bool :=
  match s with
  | String c r => negb (isLineTerminator c) && closeBracket r
  | EmptyString => false
  end.

Fixpoint testLink (s : string) : bool :=
  match s with
  | EmptyString => false
  | String c r => (Ascii.eqb c "[" && linkText r) || testLink r
  end.

Definition parseSection (section : string) : option AtomicNote.t :=
  let lines := split section (ascii_of_nat 10) in
  if List.length lines <? 2 then None
  else
    let headingLine := hd EmptyString lines in
    let heading := trim (stripHeadingMarker headingLine) in
    if isEmpty heading then None
    else
      let contentLines :=
        filter (fun line => negb (isEmpty (trim line))) (tl lines) in
      let content := trim (join contentLines nl) in
      if isEmpty content then None
      else
        let hasLink := testLink content in
        let raw := trim section in
        Some (AtomicNote.mk heading content hasLink raw).

(** The body of the [for] loop of [parse], over the remaining sections. *)
Fixpoint parseSections (sections : list string) : list AtomicNote.t :=
  match sections with
  | [] => []
  | section :: rest =>
      let trimmed := trim section in
      if negb (startsWith trimmed "###") then parseSections rest
      else
        match parseSection trimmed with
        | Some note => note :: parseSections rest
        | None => parseSections rest
        end
  end.

Definition parse (modelOutput : string) : list AtomicNote.t :=
  parseSections (splitSections modelOutput).

Definition isNewline (c : ascii) : bool := nat_of_ascii c =? 10.

(** [content.split(/\n\n+/)]: a cut at every run of two or more line
    feeds.  [skipping] is set while the rest of such a run is read. *)
Fixpoint splitParagraphsFrom (skipping : bool) (s : string) : list string :=
  match s with
  | EmptyString => [EmptyString]
  | String c r =>
      if skipping && isNewline c then splitParagraphsFrom true r
      else if isNewline c && startsWith r nl then
        EmptyString :: splitParagraphsFrom true r
      else
        match splitParagraphsFrom false r with
        | [] => [String c EmptyString]
        | piece :: pieces => String c piece :: pieces
        end
  end.

Definition splitParagraphs (s : string) : list string :=
  splitParagraphsFrom false s.

Section Validation.
(** [new URL(url).hostname], or [None] when the constructor throws. *)
Variable hostname : string -> option string.

Definition extractDomain (url : string) : string :=
  match hostname url with
  | Some host => host
  | None => url
  end.

(** The issues are pushed in the order of the checks. *)
Definition validate (note : AtomicNote.t) (articleUrl : string)
  : ValidationResult.t :=
  let heading := AtomicNote.heading note in
  let content := AtomicNote.content note in
  let issues :=
    ((if String.length heading <? 10
      then ["Heading is too short to be descriptive"] else [])
     ++ (if 100 <? String.length heading then ["Heading is too long"] else [])
     ++ (if String.length content <? 50 then ["Content is too brief"] else [])
     ++ (if 1000 <? String.length content
         then ["Content may not be atomic (too long)"] else [])
     ++ (if negb (AtomicNote.hasLink note)
         then ["Missing link to source article"] else [])
     ++ (if AtomicNote.hasLink note && negb (includes content articleUrl)
         then
           if negb (includes content (extractDomain articleUrl))
           then ["Link may not point to the source article"] else []
         else [])
     ++ (let paragraphs :=
           filter (fun p => negb (isEmpty (trim p))) (splitParagraphs content) in
         if 2 <? List.length paragraphs
         then ["Contains multiple paragraphs (may not be atomic)"] else []))%list in
  ValidationResult.mk (List.length issues =? 0) issues.

End Validation.

Definition formatForDisplay (notes : list AtomicNote.t) : string :=
  join (map AtomicNote.raw notes) (nl ++ nl).

Definition formatForVault (notes : list AtomicNote.t) : string :=
  join (map AtomicNote.raw notes) (nl ++ nl).

End AtomicNoteParser.


(* ====================================================================== *)
(** * Effects: exceptions, the client's counter, the token, the network *)
(* ====================================================================== *)

(** Thrown values: a plain [Error] or the client's [OpenRouterError]. *)
Inductive JsError :=
| Error (message : string)
| OpenRouterError (message : string) (statusCode : nat) (isRetryable : bool).

Definition errorMessage (e : JsError) : string :=
  match e with
  | Error m => m
  | OpenRouterError m _ _ => m
  end.

Module OpenRouterResponse.
Record ApiError := mkError { message : string; code : nat }.
(** [choices] lists [choices[i].message.content]; an absent or null
    content is the empty string (all of them are falsy). *)
Record t := mk {
  choices : option (list string);
  error : option ApiError
}.
End OpenRouterResponse.

(** [response.json] either parses or throws. *)
Inductive JsonBody :=
| Unparseable (message : string)
| Parsed (data : OpenRouterResponse.t).

Module RequestUrlResponse.
Record t := mk { status : nat; json : JsonBody }.
End RequestUrlResponse.

Module RequestUrlParam.
Record t := mk {
  authorization : string;
  model : string;
  messages : list ChatMessage.t;
  max_tokens : nat
}.
End RequestUrlParam.

(** What [requestUrl] does with one request: it throws, or it answers. *)
Inductive TransportOutcome :=
| RequestFailed
| Responded (response : RequestUrlResponse.t).

(** The trace of observable actions, oldest first.  The [ModelRole] of a
    request is recorded for the statements only. *)
Inductive Event :=
| EvProgress (update : ProgressUpdate.t)
| EvRequest (tick : nat) (role : ModelRole) (request : RequestUrlParam.t)
| EvSleep (tick : nat) (delay : Z).

(** The surroundings of a run, as functions of logical time: the answer of
    the network to a request made at tick [k], whether the user cancels
    during the suspension that begins at tick [k] (the code that runs
    when this suspension ends finds the token set), the jitter (in ms)
    drawn at tick [k], and, of two suspensions that are pending together,
    whether the one begun at tick [i] ends before the one begun at tick
    [j]. *)
Record Env := mkEnv {
  transport : nat -> RequestUrlParam.t -> TransportOutcome;
  cancelDuring : nat -> bool;
  jitter : nat -> Z;
  endsBefore : nat -> nat -> bool
}.

(** A call of [chat] that is suspended: at the [await] of its request, or
    at the [await] of the [sleep] that follows the error [lastError]; in
    the round [pendingAttempt] of its loop, since the tick
    [pendingSince]. *)
Inductive Awaited :=
| AwaitResponse
| AwaitTimer (lastError : JsError).

Record PendingChat := mkPending {
  pendingRole : ModelRole;
  pendingRequest : RequestUrlParam.t;
  pendingAttempt : nat;
  pendingSince : nat;
  pendingOn : Awaited
}.

(** The mutable state: [OpenRouterClient.callCount], the flag of the
    shared [CancellationToken] (a missing token is one that is never set),
    the clock (suspensions so far), the trace, and the calls of [chat]
    that nobody awaits any more and that are still suspended: those that
    a rejected [Promise.all] has left behind.  The code of a session
    leaves them alone; they go on in [OpenRouterClient.settleInFlight]. *)
Record World := mkWorld {
  callCount : nat;
  cancelled : bool;
  clock : nat;
  trace : list Event;
  inFlight : list PendingChat
}.

Inductive Outcome (A : Type) :=
| Returned (a : A)
| Thrown (e : JsError)
| OutOfFuel.
Arguments Returned {A} a.
Arguments Thrown {A} e.
Arguments OutOfFuel {A}.

Definition M (A : Type) : Type := World -> Outcome A * World.

Definition ret {A} (a : A) : M A := fun w => (Returned a, w).

Definition throw {A} (e : JsError) : M A := fun w => (Thrown e, w).

Definition outOfFuel {A} : M A := fun w => (OutOfFuel, w).

Definition bind {A B} (m : M A) (k : A -> M B) : M B :=
  fun w =>
    match m w with
    | (Returned a, w') => k a w'
    | (Thrown e, w') => (Thrown e, w')
    | (OutOfFuel, w') => (OutOfFuel, w')
    end.

Notation "x <- m ;; k" := (bind m (fun x => k))
  (at level 61, m at next level, right associativity).
Notation "m ;;; k" := (bind m (fun _ => k))
  (at level 61, right associativity).

(** [try { m } catch (error) { ... }] seen from the handler. *)
Definition tryCatch {A} (m : M A) : M (A + JsError) :=
  fun w =>
    match m w with
    | (Returned a, w') => (Returned (inl a), w')
    | (Thrown e, w') => (Returned (inr e), w')
    | (OutOfFuel, w') => (OutOfFuel, w')
    end.

Definition record (ev : Event) (w : World) : World :=
  mkWorld (callCount w) (cancelled w) (clock w) (trace w ++ [ev])%list (inFlight w).

(** One suspension: the clock advances and the user may have cancelled. *)
Definition suspend (env : Env) (w : World) : World :=
  mkWorld (callCount w)
          (cancelled w || cancelDuring env (clock w))
          (S (clock w))
          (trace w)
          (inFlight w).

Definition incrementCallCount : M unit :=
  fun w =>
    (Returned tt,
     mkWorld (S (callCount w)) (cancelled w) (clock w) (trace w) (inFlight w)).

(** [if (cancellation?.cancelled) throw new Error("Cancelled")] *)
Definition checkCancelled : M unit :=
  fun w => if cancelled w then (Thrown (Error "Cancelled"), w) else (Returned tt, w).

(** [token.cancel()] of [createCancellationToken]. *)
Definition cancel : M unit :=
  fun w => (Returned tt, mkWorld (callCount w) true (clock w) (trace w) (inFlight w)).

(** [onProgress?.(update)]: [onProgress] tells whether a callback was
    passed; the callback records the update. *)
Definition progress (onProgress : bool) (update : ProgressUpdate.t) : M unit :=
  fun w => (Returned tt, if onProgress then record (EvProgress update) w else w).

(** [await requestUrl(request)] *)
Definition requestUrl (env : Env) (role : ModelRole) (request : RequestUrlParam.t)
  : M TransportOutcome :=
  fun w =>
    (Returned (transport env (clock w) request),
     suspend env (record (EvRequest (clock w) role request) w)).

(** [await this.sleep(ms)] *)
Definition sleep (env : Env) (ms : Z) : M unit :=
  fun w => (Returned tt, suspend env (record (EvSleep (clock w) ms) w)).

(** The two halves of a suspension, for calls that are suspended
    together: it begins (the event is recorded and the clock advances),
    and later it ends and the call runs again (the user may have
    cancelled during it).  [suspend] after [record] is the one after the
    other. *)
Definition begin (ev : Event) (w : World) : World :=
  mkWorld (callCount w) (cancelled w) (S (clock w)) (trace w ++ [ev])%list (inFlight w).

Definition wake (env : Env) (tick : nat) (w : World) : World :=
  mkWorld (callCount w)
          (cancelled w || cancelDuring env tick)
          (clock w)
          (trace w)
          (inFlight w).

(** A promise is settled (fulfilled or rejected) or the call behind it is
    suspended. *)
Inductive ChatStep :=
| Settled (o : Outcome string)
| Suspended (p : PendingChat).

(** A rejected [Promise.all] leaves the call that is still suspended
    running. *)
Definition leaveRunning (s : ChatStep) (w : World) : World :=
  match s with
  | Suspended p =>
      mkWorld (callCount w) (cancelled w) (clock w) (trace w) (inFlight w ++ [p])%list
  | Settled _ => w
  end.

(* ====================================================================== *)
(** * api/OpenRouterClient.ts (the client with retries) *)
(* ====================================================================== *)

Module OpenRouterClient.
Import Js.

Record OpenRouterConfig := mkConfig {
  apiKey : string;
  drafterModel : string;
  criticModel : string
}.

Definition MAX_TOKENS : nat := 4096.

Definition errorMessages (status : nat) : option string :=
  if status =? 400 then Some "Bad request. The model ID may be invalid."
  else if status =? 401 then
    Some "Invalid API key. Please check your OpenRouter API key in settings."
  else if status =? 402 then
    Some "Insufficient credits. Please add credits to your OpenRouter account."
  else if status =? 403 then
    Some "Access forbidden. Your API key may not have access to this model."
  else if status =? 404 then
    Some "Model not found. Please select a different model in settings."
  else if status =? 429 then Some "Rate limited. Retrying..."
  else if status =? 500 then Some "OpenRouter server error. Please try again."
  else if status =? 502 then
    Some "Bad gateway. OpenRouter may be experiencing issues."
  else if status =? 503 then Some "Service temporarily unavailable. Retrying..."
  else if status =? 504 then Some "Gateway timeout. Retrying..."
  else None.

(** [handleHttpError] never returns: this is the error it throws. *)
Definition handleHttpError (response : RequestUrlResponse.t) : JsError :=
  let status := RequestUrlResponse.status response in
  let isRetryable := existsb (Nat.eqb status) API.RETRYABLE_STATUS_CODES in
  let message :=
    match errorMessages status with
    | Some m => m
    | None => "Request failed with status " ++ numberToString status
    end in
  OpenRouterError message status isRetryable.

Section Client.
Variable env : Env.
Variable config : OpenRouterConfig.

(** [makeRequest] after its [await requestUrl(...)]: what it makes of
    the outcome of the request. *)
Definition readResponse (outcome : TransportOutcome) : M string :=
  match outcome with
  | RequestFailed =>
      throw (OpenRouterError "Network error: Failed to connect to OpenRouter" 0 true)
  | Responded response =>
      let status := RequestUrlResponse.status response in
      if negb (status =? 200) then throw (handleHttpError response)
      else
        match RequestUrlResponse.json response with
        | Unparseable m => throw (Error m)
        | Parsed data =>
            match OpenRouterResponse.error data with
            | Some err =>
                throw (OpenRouterError
                         (if isEmpty (OpenRouterResponse.message err)
                          then "API error" else OpenRouterResponse.message err)
                         (if OpenRouterResponse.code err =? 0
                          then status else OpenRouterResponse.code err)
                         false)
            | None =>
                match OpenRouterResponse.choices data with
                | None | Some [] =>
                    throw (OpenRouterError "No response from model" status false)
                | Some (content :: _) =>
                    if isEmpty content then
                      throw (OpenRouterError "Empty response from model" status false)
                    else ret content
                end
            end
        end
  end.

Definition makeRequest (role : ModelRole) (model : string)
           (messages : list ChatMessage.t) : M string :=
  outcome <- requestUrl env role
               (RequestUrlParam.mk ("Bearer " ++ apiKey config) model messages MAX_TOKENS) ;;
  readResponse outcome.

Definition isRetryableError (e : JsError) : bool :=
  match e with
  | OpenRouterError _ _ r => r
  | Error _ => false
  end.

(** [Math.min(BASE * 2^attempt + Math.random() * 1000, MAX)] *)
Definition retryDelay (attempt : nat) (random : Z) : Z :=
  Z.min (API.RETRY_BASE_DELAY_MS * 2 ^ Z.of_nat attempt + random)
        API.RETRY_MAX_DELAY_MS.

Definition drawJitter : M Z := fun w => (Returned (jitter env (clock w)), w).

(** The [for] loop of [chat], from [attempt] on. *)
Fixpoint chatAttempts (fuel attempt : nat) (lastError : option JsError)
         (role : ModelRole) (model : string) (messages : list ChatMessage.t)
  : M string :=
  if attempt <? API.MAX_RETRIES then
    match fuel with
    | O => outOfFuel
    | S fuel' =>
        checkCancelled ;;;
        r <- tryCatch (makeRequest role model messages) ;;
        match r with
        | inl result => incrementCallCount ;;; ret result
        | inr error =>
            if isRetryableError error then
              random <- drawJitter ;;
              sleep env (retryDelay attempt random) ;;;
              chatAttempts fuel' (S attempt) (Some error) role model messages
            else throw error
        end
    end
  else
    throw (match lastError with
           | Some e => e
           | None => Error "Request failed after maximum retries"
           end).

Definition chat (role : ModelRole) (messages : list ChatMessage.t) : M string :=
  let model :=
    match role with
    | drafter => drafterModel config
    | critic => criticModel config
    end in
  chatAttempts API.MAX_RETRIES 0 None role model messages.

(** [chat] as the event loop runs it, from one [await] to the next.
    [chatEnter] is the head of the [for] loop, up to the [await] of
    the request; [chatResume] is the end of the suspension of the
    call [p] and what follows its [await], up to the next one. *)
Definition chatEnter (attempt : nat) (lastError : option JsError)
           (role : ModelRole) (model : string) (messages : list ChatMessage.t)
  : World -> ChatStep * World :=
  fun w =>
    if attempt <? API.MAX_RETRIES then
      if cancelled w then (Settled (Thrown (Error "Cancelled")), w)
      else
        let request :=
          RequestUrlParam.mk ("Bearer " ++ apiKey config) model messages MAX_TOKENS in
        (Suspended (mkPending role request attempt (clock w) AwaitResponse),
         begin (EvRequest (clock w) role request) w)
    else
      (Settled (Thrown (match lastError with
                        | Some e => e
                        | None => Error "Request failed after maximum retries"
                        end)),
       w).

Definition chatResume (p : PendingChat) : World -> ChatStep * World :=
  fun w =>
    let role := pendingRole p in
    let request := pendingRequest p in
    let attempt := pendingAttempt p in
    let w := wake env (pendingSince p) w in
    match pendingOn p with
    | AwaitResponse =>
        match readResponse (transport env (pendingSince p) request) w with
        | (Returned result, w1) =>
            (Settled (Returned result), snd (incrementCallCount w1))
        | (Thrown error, w1) =>
            if isRetryableError error then
              let random := jitter env (clock w1) in
              (Suspended (mkPending role request attempt (clock w1) (AwaitTimer error)),
               begin (EvSleep (clock w1) (retryDelay attempt random)) w1)
            else (Settled (Thrown error), w1)
        | (OutOfFuel, w1) => (Settled OutOfFuel, w1)
        end
    | AwaitTimer error =>
        chatEnter (S attempt) (Some error) role
                  (RequestUrlParam.model request) (RequestUrlParam.messages request) w
    end.

Definition chatStart (role : ModelRole) (messages : list ChatMessage.t)
  : World -> ChatStep * World :=
  let model :=
    match role with
    | drafter => drafterModel config
    | critic => criticModel config
    end in
  chatEnter 0 None role model messages.

(** A call that is awaited alone: it is resumed whenever its
    suspension ends. *)
Fixpoint chatSettle (fuel : nat) (s : ChatStep) (w : World) : Outcome string * World :=
  match s with
  | Settled o => (o, w)
  | Suspended p =>
      match fuel with
      | O => (OutOfFuel, w)
      | S fuel' =>
          let (s', w') := chatResume p w in
          chatSettle fuel' s' w'
      end
  end.

(** The state of [Promise.all([p1, p2])] for the states of the two
    promises: rejected as soon as one of them is (with the rejection
    of [p1] when both are rejected in one turn), fulfilled when
    both are, and pending otherwise. *)
Definition settlement (s1 s2 : ChatStep) : option (Outcome (string * string)) :=
  match s1, s2 with
  | Settled (Thrown e), _ => Some (Thrown e)
  | Settled OutOfFuel, _ => Some OutOfFuel
  | Settled (Returned a), Settled (Returned b) => Some (Returned (a, b))
  | Settled (Returned _), Settled (Thrown e) => Some (Thrown e)
  | Settled (Returned _), Settled OutOfFuel => Some OutOfFuel
  | Settled (Returned _), Suspended _ => None
  | Suspended _, Settled (Thrown e) => Some (Thrown e)
  | Suspended _, Settled OutOfFuel => Some OutOfFuel
  | Suspended _, Settled (Returned _) => None
  | Suspended _, Suspended _ => None
  end.

(** [await Promise.all([p1, p2])]: while [Promise.all] is pending, the
    call whose suspension ends first is resumed; when it is settled,
    the awaiting code goes on at once, whatever the other call is
    doing. *)
Fixpoint awaitBoth (fuel : nat) (s1 s2 : ChatStep) : M (string * string) :=
  fun w =>
    match settlement s1 s2 with
    | Some o => (o, leaveRunning s1 (leaveRunning s2 w))
    | None =>
        match fuel with
        | O => (OutOfFuel, w)
        | S fuel' =>
            let first :=
              match s1, s2 with
              | Suspended p1, Suspended p2 =>
                  endsBefore env (pendingSince p1) (pendingSince p2)
              | Suspended _, Settled _ => true
              | Settled _, _ => false
              end in
            match s1, s2, first with
            | Suspended p1, _, true =>
                let (s1', w1) := chatResume p1 w in awaitBoth fuel' s1' s2 w1
            | _, Suspended p2, _ =>
                let (s2', w1) := chatResume p2 w in awaitBoth fuel' s1 s2' w1
            | _, _, _ => (OutOfFuel, w)
            end
        end
    end.

(** [Promise.all([this.chat(role1, messages1), this.chat(role2,
    messages2)])]: both calls are made in the same turn, each one
    running up to its first [await], before any response is read. *)
Definition promiseAll (call1 call2 : ModelRole * list ChatMessage.t)
  : M (string * string) :=
  fun w =>
    let (s1, w1) := chatStart (fst call1) (snd call1) w in
    let (s2, w2) := chatStart (fst call2) (snd call2) w1 in
    awaitBoth (2 * (2 * API.MAX_RETRIES)) s1 s2 w2.

(** The event loop while nothing else runs: the calls left in flight
    go on to their end, one after the other; nobody awaits them. *)
Definition settleInFlight : World -> World :=
  fun w =>
    fold_left
      (fun w p => snd (chatSettle (2 * API.MAX_RETRIES) (Suspended p) w))
      (inFlight w)
      (mkWorld (callCount w) (cancelled w) (clock w) (trace w) []).

Definition getCallCount : M nat := fun w => (Returned (callCount w), w).

Definition resetCallCount : M unit :=
  fun w => (Returned tt, mkWorld 0 (cancelled w) (clock w) (trace w) (inFlight w)).

End Client.
End OpenRouterClient.

(* ====================================================================== *)
(** * dialogue/InterpretationPhase.ts *)
(* ====================================================================== *)

Module InterpretationPhase.
Import Js.

Record InterpretationResult := mkResult {
  aligned : bool;
  alignedInterpretation : string;
  gptInterpretation : string;
  claudeInterpretation : string;
  rounds : nat
}.

Definition INTERPRETATION_PROMPT : string :=
  "Read this article and provide your interpretation. Focus on:
1. The core thesis or main argument
2. Key supporting points
3. Notable insights or implications

Keep your interpretation to 2-3 paragraphs.

Article Title: {title}

Article Content:
{content}".

Definition ALIGNMENT_CHECK_PROMPT : string :=
  "Here is another reader's interpretation of the same article " ++ Js.dq ++ "{title}" ++ Js.dq ++ ":

{other_interpretation}

Compare this interpretation with your understanding of the article. Do you agree with this interpretation?

If you agree with the interpretation, respond ONLY with the word " ++ Js.dq ++ "ALIGNED" ++ Js.dq ++ " on the first line, then provide a brief summary of the shared understanding (2-3 sentences).

If you disagree, explain specifically what you see differently and provide your refined interpretation. Do NOT include the word " ++ Js.dq ++ "ALIGNED" ++ Js.dq ++ " if you disagree.".

Definition TRUNCATION_NOTICE : string :=
  nl ++ nl ++ "[Content truncated for length]".

Definition truncateContent (content : string) (maxChars : Z) : string :=
  if (Z.of_nat (String.length content) <=? maxChars)%Z then content
  else
    let truncated := slice content 0 maxChars in
    let lastSpace := lastIndexOf truncated " " in
    slice truncated 0 lastSpace ++ TRUNCATION_NOTICE.

(** The loop over the keywords returns at the first one that is a
    prefix. *)
Definition isAligned (response : string) : bool :=
  let trimmedUpper := toUpperCase (trim response) in
  existsb (fun keyword => startsWith trimmedUpper keyword)
          DIALOGUE.ALIGNMENT_KEYWORDS.

(** [afterKeyword.replace(/^[\s.,:\-\n]+/, empty)] *)
Definition isLeadingPunctuation (c : ascii) : bool :=
  isWhiteSpace c || Ascii.eqb c "." || Ascii.eqb c "," || Ascii.eqb c ":"
  || Ascii.eqb c "-".

Fixpoint stripLeadingPunctuation (s : string) : string :=
  match s with
  | EmptyString => EmptyString
  | String c r => if isLeadingPunctuation c then stripLeadingPunctuation r else s
  end.

(** The loop stops at the first keyword that is a prefix: it returns the
    summary when that is long enough and leaves the loop otherwise. *)
Definition extractAlignedSummary (response fallback : string) : string :=
  let trimmed := trim response in
  let upperTrimmed := toUpperCase trimmed in
  match find (fun keyword => startsWith upperTrimmed keyword)
             DIALOGUE.ALIGNMENT_KEYWORDS with
  | Some keyword =>
      let afterKeyword :=
        trim (sliceFrom trimmed (Z.of_nat (String.length keyword))) in
      let summary := trim (stripLeadingPunctuation afterKeyword) in
      if 50 <? String.length summary then summary else fallback
  | None => fallback
  end.

Definition combineInterpretations (gpt claude : string) : string :=
  "Synthesized understanding from multiple perspectives:" ++ nl ++ nl
  ++ gpt ++ nl ++ nl ++ "Additional perspective:" ++ nl ++ claude.

Section Phase.
Variable env : Env.
Variable config : OpenRouterClient.OpenRouterConfig.
Variable maxRounds : nat.
Variable article : ExtractedArticle.t.
Variable onProgress : bool.

Let chat := OpenRouterClient.chat env config.
Let promiseAll := OpenRouterClient.promiseAll env config.

Definition alignmentPromptFor (other : string) : string :=
  replace (replace ALIGNMENT_CHECK_PROMPT "{title}" (ExtractedArticle.title article))
          "{other_interpretation}" other.

(** The code after the loop: the synthesized interpretation. *)
Definition synthesize (currentGpt currentClaude : string) : InterpretationResult :=
  mkResult false (combineInterpretations currentGpt currentClaude)
           currentGpt currentClaude maxRounds.

(** [while (round < this.maxRounds) { ... }] and the code after it. *)
Fixpoint alignmentLoop (fuel round : nat) (interpretationPrompt : string)
         (currentGpt currentClaude : string) : M InterpretationResult :=
  if round <? maxRounds then
    match fuel with
    | O => outOfFuel
    | S fuel' =>
        progress onProgress
          (ProgressUpdate.mk DialoguePhase.interpreting (Some (round + 1))
             (Some maxRounds)
             ("Aligning interpretations (round " ++ numberToString (round + 1)
              ++ ")...")) ;;;
        checkCancelled ;;;
        claudeResponse <-
          chat critic
            [ChatMessage.mk user interpretationPrompt;
             ChatMessage.mk assistant currentClaude;
             ChatMessage.mk user (alignmentPromptFor currentGpt)] ;;
        checkCancelled ;;;
        if isAligned claudeResponse then
          ret (mkResult true (extractAlignedSummary claudeResponse currentGpt)
                        currentGpt currentClaude (round + 1))
        else
          let currentClaude := claudeResponse in
          let round := round + 1 in
          if maxRounds <=? round then ret (synthesize currentGpt currentClaude)
          else
            gptResponse <-
              chat drafter
                [ChatMessage.mk user interpretationPrompt;
                 ChatMessage.mk assistant currentGpt;
                 ChatMessage.mk user (alignmentPromptFor currentClaude)] ;;
            checkCancelled ;;;
            if isAligned gptResponse then
              ret (mkResult true (extractAlignedSummary gptResponse currentClaude)
                            currentGpt currentClaude (round + 1))
            else
              alignmentLoop fuel' (round + 1) interpretationPrompt
                            gptResponse currentClaude
    end
  else ret (synthesize currentGpt currentClaude).

Definition run : M InterpretationResult :=
  let truncatedContent :=
    truncateContent (ExtractedArticle.content article) CONTENT.MAX_ARTICLE_CHARS in
  let interpretationPrompt :=
    replace (replace INTERPRETATION_PROMPT "{title}" (ExtractedArticle.title article))
            "{content}" truncatedContent in
  progress onProgress
    (ProgressUpdate.mk DialoguePhase.interpreting (Some 1) (Some maxRounds)
       "Getting initial interpretations...") ;;;
  checkCancelled ;;;
  both <- promiseAll
            (drafter, [ChatMessage.mk user interpretationPrompt])
            (critic, [ChatMessage.mk user interpretationPrompt]) ;;
  checkCancelled ;;;
  alignmentLoop maxRounds 1 interpretationPrompt (fst both) (snd both).

End Phase.
End InterpretationPhase.

(** The other copy of [isAligned] in the sources
    (src/dialogue/InterpretationPhase.ts): a substring search. *)
Module LegacyInterpretationPhase.
Import Js.

Definition isAligned (response : string) : bool :=
  let upperResponse := toUpperCase response in
  includes upperResponse "ALIGNED"
  || includes upperResponse "I AGREE"
  || includes upperResponse "WE AGREE".

End LegacyInterpretationPhase.

(* ====================================================================== *)
(** * dialogue/RefinementLoop.ts *)
(* ====================================================================== *)

Module CritiqueStatus.
Inductive t := approved | marginal | needs_work.
End CritiqueStatus.

Module RefinementLoop.
Import Js.

Record RefinementResult := mkResult {
  notes : list AtomicNote.t;
  rounds : nat;
  approved : bool;
  transcript : list TranscriptEntry.t
}.

Definition DRAFT_PROMPT : string :=
  "Based on this interpretation of the article " ++ Js.dq ++ "{title}" ++ Js.dq ++ ":

{interpretation}

Create atomic notes for the most valuable concepts from this article.

Format EACH note as:
### [Concept as descriptive H3 heading]

[Single paragraph, 2-4 sentences, embedding a markdown link to the source naturally within the narrative. The link should use the article title as anchor text like this: [Article Title]({url})]

Guidelines:
- Create 2-5 notes for the most important, actionable concepts
- Each note should be self-contained and capture a single insight
- The heading should describe the insight, not just the topic
- Embed the link naturally within the paragraph, not at the end
- Focus on insights and implications, not just summaries

Begin your notes now:".

Definition REVISION_PROMPT : string :=
  "Revise these atomic notes based on the following feedback:

{critique}

Original notes:
{notes}

Please provide the revised notes in the same format (### heading followed by paragraph with embedded link). Address all the feedback points.".

Definition CRITIQUE_PROMPT : string :=
  "Review these atomic notes drafted from the article " ++ Js.dq ++ "{title}" ++ Js.dq ++ ":

{notes}

Evaluate each note for:
1. **Clarity and self-containedness**: Can the note stand alone? Is the insight clear?
2. **Insight value**: Does it capture something valuable, not just summarize?
3. **Natural link integration**: Is the article link woven into the narrative naturally?
4. **Appropriate scope**: Is it truly atomic (single insight) or compound?
5. **Heading quality**: Does the heading describe the insight, not just the topic?

If ALL notes meet these criteria and are ready for use, respond with ONLY the word " ++ Js.dq ++ "APPROVED" ++ Js.dq ++ " on the first line.

If only minor polish is possible but not necessary, respond with ONLY the word " ++ Js.dq ++ "MARGINAL" ++ Js.dq ++ " on the first line, then briefly note what could be slightly better.

If improvements are needed, provide specific, actionable feedback for each note that needs revision. Be direct about what's wrong and how to fix it. Do NOT start with " ++ Js.dq ++ "APPROVED" ++ Js.dq ++ " or " ++ Js.dq ++ "MARGINAL" ++ Js.dq ++ " if changes are needed.".

Definition parseCritiqueStatus (critique : string) : CritiqueStatus.t :=
  let trimmedUpper := toUpperCase (trim critique) in
  if existsb (fun keyword => startsWith trimmedUpper keyword)
             DIALOGUE.APPROVAL_KEYWORDS
  then CritiqueStatus.approved
  else if existsb (fun keyword => startsWith trimmedUpper keyword)
                  DIALOGUE.MARGINAL_KEYWORDS
  then CritiqueStatus.marginal
  else CritiqueStatus.needs_work.

Definition isAccepted (status : CritiqueStatus.t) : bool :=
  match status with
  | CritiqueStatus.approved | CritiqueStatus.marginal => true
  | CritiqueStatus.needs_work => false
  end.

Section Loop.
Variable env : Env.
Variable config : OpenRouterClient.OpenRouterConfig.
Variable maxRounds : nat.
Variable article : ExtractedArticle.t.
Variable onProgress : bool.

Let chat := OpenRouterClient.chat env config.

Definition critiquePromptFor (currentDraft : string) : string :=
  replace (replace CRITIQUE_PROMPT "{title}" (ExtractedArticle.title article))
          "{notes}" currentDraft.

Definition revisionPromptFor (critique currentDraft : string) : string :=
  replace (replace REVISION_PROMPT "{critique}" critique) "{notes}" currentDraft.

(** [while (round < this.maxRounds) { ... }] and the code after it. *)
Fixpoint refinementLoop (fuel round : nat) (draftPrompt currentDraft : string)
         (currentNotes : list AtomicNote.t) (transcript : list TranscriptEntry.t)
  : M RefinementResult :=
  if round <? maxRounds then
    match fuel with
    | O => outOfFuel
    | S fuel' =>
        progress onProgress
          (ProgressUpdate.mk DialoguePhase.refining (Some (round + 1))
             (Some maxRounds)
             ("Refining notes (round " ++ numberToString (round + 1) ++ ")...")) ;;;
        checkCancelled ;;;
        critique <-
          chat critic [ChatMessage.mk user (critiquePromptFor currentDraft)] ;;
        checkCancelled ;;;
        let transcript :=
          (transcript ++
             [TranscriptEntry.mk "refinement" critic TranscriptEntry.critique
                critique (round + 1)])%list in
        if isAccepted (parseCritiqueStatus critique) then
          ret (mkResult currentNotes (round + 1) true transcript)
        else
          let round := round + 1 in
          if maxRounds <=? round then
            ret (mkResult currentNotes maxRounds false transcript)
          else
            progress onProgress
              (ProgressUpdate.mk DialoguePhase.refining (Some (round + 1))
                 (Some maxRounds)
                 ("Revising notes based on feedback (round "
                  ++ numberToString (round + 1) ++ ")...")) ;;;
            revised <-
              chat drafter
                [ChatMessage.mk user draftPrompt;
                 ChatMessage.mk assistant currentDraft;
                 ChatMessage.mk user (revisionPromptFor critique currentDraft)] ;;
            checkCancelled ;;;
            let transcript :=
              (transcript ++
                 [TranscriptEntry.mk "refinement" drafter TranscriptEntry.revision
                    revised (round + 1)])%list in
            refinementLoop fuel' round draftPrompt revised
                           (AtomicNoteParser.parse revised) transcript
    end
  else ret (mkResult currentNotes maxRounds false transcript).

Definition run (interpretation : string) : M RefinementResult :=
  progress onProgress
    (ProgressUpdate.mk DialoguePhase.drafting None None "Drafting atomic notes...") ;;;
  checkCancelled ;;;
  let draftPrompt :=
    replace (replace (replace DRAFT_PROMPT "{title}" (ExtractedArticle.title article))
                     "{interpretation}" interpretation)
            "{url}" (ExtractedArticle.url article) in
  currentDraft <- chat drafter [ChatMessage.mk user draftPrompt] ;;
  checkCancelled ;;;
  let transcript :=
    [TranscriptEntry.mk "refinement" drafter TranscriptEntry.draft currentDraft 1] in
  refinementLoop maxRounds 0 draftPrompt currentDraft
                 (AtomicNoteParser.parse currentDraft) transcript.

End Loop.
End RefinementLoop.

(** The other copy of [parseCritiqueStatus] in the sources (the first
    [RefinementLoop] of src/dialogue/RefinementLoop.ts). *)
Module LegacyRefinementLoop.
Import Js.

Definition parseCritiqueStatus (critique : string) : CritiqueStatus.t :=
  let upperCritique := trim (toUpperCase critique) in
  if startsWith upperCritique "APPROVED" || String.eqb upperCritique "APPROVED"
  then CritiqueStatus.approved
  else if startsWith upperCritique "MARGINAL" || includes upperCritique "MARGINAL"
  then CritiqueStatus.marginal
  else CritiqueStatus.needs_work.

End LegacyRefinementLoop.

(* ====================================================================== *)
(** * dialogue/DialogueOrchestrator.ts *)
(* ====================================================================== *)

Module DialogueOrchestrator.

Definition clientConfig (settings : DistillSettings.t)
  : OpenRouterClient.OpenRouterConfig :=
  OpenRouterClient.mkConfig
    (DistillSettings.openRouterApiKey settings)
    (DistillSettings.drafterModel settings)
    (DistillSettings.criticModel settings).

Definition initialState : DialogueState.t :=
  DialogueState.mk DialoguePhase.interpreting 0 0 None None None None None None.

Definition setPhase (p : DialoguePhase.t) (st : DialogueState.t) : DialogueState.t :=
  DialogueState.mk p
    (DialogueState.interpretationRounds st) (DialogueState.refinementRounds st)
    (DialogueState.claudeInterpretation st) (DialogueState.gptInterpretation st)
    (DialogueState.alignedInterpretation st) (DialogueState.currentDraft st)
    (DialogueState.currentCritique st) (DialogueState.error st).

Definition setInterpretation (r : InterpretationPhase.InterpretationResult)
           (st : DialogueState.t) : DialogueState.t :=
  DialogueState.mk DialoguePhase.aligned
    (InterpretationPhase.rounds r) (DialogueState.refinementRounds st)
    (Some (InterpretationPhase.claudeInterpretation r))
    (Some (InterpretationPhase.gptInterpretation r))
    (Some (InterpretationPhase.alignedInterpretation r))
    (DialogueState.currentDraft st)
    (DialogueState.currentCritique st) (DialogueState.error st).

Definition setRefinement (r : RefinementLoop.RefinementResult)
           (st : DialogueState.t) : DialogueState.t :=
  DialogueState.mk DialoguePhase.complete
    (DialogueState.interpretationRounds st) (RefinementLoop.rounds r)
    (DialogueState.claudeInterpretation st) (DialogueState.gptInterpretation st)
    (DialogueState.alignedInterpretation st) (Some (RefinementLoop.notes r))
    (DialogueState.currentCritique st) (DialogueState.error st).

Definition setError (message : string) (st : DialogueState.t) : DialogueState.t :=
  DialogueState.mk DialoguePhase.error
    (DialogueState.interpretationRounds st) (DialogueState.refinementRounds st)
    (DialogueState.claudeInterpretation st) (DialogueState.gptInterpretation st)
    (DialogueState.alignedInterpretation st) (DialogueState.currentDraft st)
    (DialogueState.currentCritique st) (Some message).

Section Orchestrator.
Variable env : Env.
Variable settings : DistillSettings.t.
Variable article : ExtractedArticle.t.
Variable onProgress : bool.

(** The [try] block: what it returns or throws, with the session
    state as the block left it. *)
Definition tryBlock (w : World)
  : Outcome DialogueResult.t * DialogueState.t * World :=
  let state := initialState in
  let w :=
    snd (progress onProgress
           (ProgressUpdate.mk DialoguePhase.interpreting (Some 1) (Some 3)
              "Starting interpretation phase...") w) in
  match InterpretationPhase.run env (clientConfig settings)
          (DistillSettings.maxInterpretationRounds settings) article onProgress w with
  | (Thrown e, w) => (Thrown e, state, w)
  | (OutOfFuel, w) => (OutOfFuel, state, w)
  | (Returned interpretationResult, w) =>
      let state := setInterpretation interpretationResult state in
      if cancelled w then (Thrown (Error "Cancelled"), state, w)
      else
        let w :=
          snd (progress onProgress
                 (ProgressUpdate.mk DialoguePhase.drafting None None
                    "Starting drafting phase...") w) in
        let state := setPhase DialoguePhase.drafting state in
        match RefinementLoop.run env (clientConfig settings)
                (DistillSettings.maxRefinementRounds settings) article onProgress
                (InterpretationPhase.alignedInterpretation interpretationResult) w with
        | (Thrown e, w) => (Thrown e, state, w)
        | (OutOfFuel, w) => (OutOfFuel, state, w)
        | (Returned refinementResult, w) =>
            let state := setRefinement refinementResult state in
            (Returned
               (DialogueResult.mk article state
                  (RefinementLoop.notes refinementResult) (callCount w)),
             state, w)
        end
  end.

(** The [catch] block. *)
Definition catchBlock (e : JsError) (state : DialogueState.t) (w : World)
  : DialogueResult.t :=
  let state := setError (errorMessage e) state in
  DialogueResult.mk article state
    (match DialogueState.currentDraft state with
     | Some notes => notes
     | None => []
     end)
    (callCount w).

Definition process : M DialogueResult.t :=
  fun w =>
    match tryBlock w with
    | (Returned result, _, w') => (Returned result, w')
    | (Thrown e, state, w') => (Returned (catchBlock e state w'), w')
    | (OutOfFuel, _, w') => (OutOfFuel, w')
    end.

Definition reset : M unit := OpenRouterClient.resetCallCount.

Definition getApiCallCount : M nat := OpenRouterClient.getCallCount.

End Orchestrator.
End DialogueOrchestrator.

(* ====================================================================== *)
(** * Observations on runs, used by the statements *)
(* ====================================================================== *)

Module Observe.

(** Transient failures: the endpoint could not be reached, or the status
    is one of 429, 502, 503, 504. *)
Definition retryableStatus (status : nat) : bool :=
  (status =? 429) || (status =? 502) || (status =? 503) || (status =? 504).

Definition isRetryableFailure (o : TransportOutcome) : bool :=
  match o with
  | RequestFailed => true
  | Responded r => retryableStatus (RequestUrlResponse.status r)
  end.

(** A reply with status 200 whose body is malformed: an error envelope,
    missing or empty choices, empty content (or no JSON at all). *)
Definition malformedBody (body : JsonBody) : bool :=
  match body with
  | Unparseable _ => true
  | Parsed data =>
      match OpenRouterResponse.error data with
      | Some _ => true
      | None =>
          match OpenRouterResponse.choices data with
          | None | Some [] => true
          | Some (content :: _) => Js.isEmpty content
          end
      end
  end.

(** Terminal failures: a status outside 2xx that is not retryable, or a
    malformed body under status 200. *)
Definition isTerminalFailure (o : TransportOutcome) : bool :=
  match o with
  | RequestFailed => false
  | Responded r =>
      let status := RequestUrlResponse.status r in
      if status =? 200 then malformedBody (RequestUrlResponse.json r)
      else ((status <? 200) || (300 <=? status)) && negb (retryableStatus status)
  end.

(** A request that yields content. *)
Definition isSuccess (o : TransportOutcome) : bool :=
  match o with
  | RequestFailed => false
  | Responded r =>
      (RequestUrlResponse.status r =? 200)
      && negb (malformedBody (RequestUrlResponse.json r))
  end.

(** The error that [chat] observes for a transient failure. *)
Definition transientError (o : TransportOutcome) : JsError :=
  match o with
  | RequestFailed =>
      OpenRouterError "Network error: Failed to connect to OpenRouter" 0 true
  | Responded r => OpenRouterClient.handleHttpError r
  end.

Definition isRequest (ev : Event) : bool :=
  match ev with EvRequest _ _ _ => true | _ => false end.

Definition countRequests (evs : list Event) : nat :=
  List.length (filter isRequest evs).

Fixpoint requestRoles (evs : list Event) : list ModelRole :=
  match evs with
  | [] => []
  | EvRequest _ role _ :: rest => role :: requestRoles rest
  | _ :: rest => requestRoles rest
  end.

(** Requests of the trace that ended in content: the successful calls. *)
Fixpoint successes (env : Env) (evs : list Event) : nat :=
  match evs with
  | [] => 0
  | EvRequest tick _ request :: rest =>
      (if isSuccess (transport env tick request) then 1 else 0)
      + successes env rest
  | _ :: rest => successes env rest
  end.

Definition NeverCancels (env : Env) : Prop :=
  forall k, cancelDuring env k = false.

(** Every request made at tick [k] is answered with the content
    [f k], which is not empty. *)
Definition AlwaysReplies (env : Env) (f : nat -> string) : Prop :=
  forall k request,
    transport env k request
    = Responded (RequestUrlResponse.mk 200
                   (Parsed (OpenRouterResponse.mk (Some [f k]) None)))
    /\ Js.isEmpty (f k) = false.




(** The pieces of a split, put back together. *)
Definition concatAll (pieces : list string) : string :=
  fold_right append EmptyString pieces.

(** A string of [n] letters without any space. *)
Fixpoint unbroken (n : nat) : string :=
  match n with
  | O => EmptyString
  | S n' => String "a" (unbroken n')
  end.

(** The request that [makeRequest] sends, and the model of a role. *)
Definition requestOf (config : OpenRouterClient.OpenRouterConfig)
           (model : string) (messages : list ChatMessage.t) : RequestUrlParam.t :=
  RequestUrlParam.mk ("Bearer " ++ OpenRouterClient.apiKey config) model messages
                     OpenRouterClient.MAX_TOKENS.

Definition modelOf (config : OpenRouterClient.OpenRouterConfig)
           (role : ModelRole) : string :=
  match role with
  | drafter => OpenRouterClient.drafterModel config
  | critic => OpenRouterClient.criticModel config
  end.

(** [w'] is reached from [w] by successful calls for [roles], one tick
    each, and nobody has cancelled. *)
Definition Advanced (w w' : World) (roles : list ModelRole) : Prop :=
  cancelled w' = false
  /\ clock w' = clock w + List.length roles
  /\ callCount w' = callCount w + List.length roles
  /\ exists evs, trace w' = (trace w ++ evs)%list /\ requestRoles evs = roles.

(** A call in flight whose request is answered with content: it will
    be counted when the answer is read. *)
Definition owes (env : Env) (p : PendingChat) : bool :=
  match pendingOn p with
  | AwaitResponse => isSuccess (transport env (pendingSince p) (pendingRequest p))
  | AwaitTimer _ => false
  end.

Definition owed (env : Env) (ps : list PendingChat) : nat :=
  List.length (filter (owes env) ps).

(** A computation that ends (it never runs out of fuel), only adds to
    the trace, and counts exactly its successful requests, but for
    those of the calls in flight, which are yet to be counted. *)
Definition Sound (env : Env) {A : Type} (m : M A) : Prop :=
  forall w,
    fst (m w) <> OutOfFuel
    /\ exists evs,
         trace (snd (m w)) = (trace w ++ evs)%list
         /\ callCount (snd (m w)) + owed env (inFlight (snd (m w)))
            = callCount w + owed env (inFlight w) + successes env evs.

(** Every character of [s] passes the test [p]. *)
Fixpoint allChars (p : ascii -> bool) (s : string) : bool :=
  match s with
  | EmptyString => true
  | String c r => p c && allChars p r
  end.

(** A character that is not white space, or the blank. *)
Definition blankOrInk (c : ascii) : bool :=
  negb (Js.isWhiteSpace c) || Ascii.eqb c " ".

(** A reply with status 200 whose body is JSON: what the client
    without retries counts as a call. *)
Definition isReadable (o : TransportOutcome) : bool :=
  match o with
  | RequestFailed => false
  | Responded r =>
      (RequestUrlResponse.status r =? 200)
      && match RequestUrlResponse.json r with
         | Parsed _ => true
         | Unparseable _ => false
         end
  end.

(** A progress report whose round, if it names one, lies between 1
    and the number of rounds it announces. *)
Definition progressInRange (ev : Event) : Prop :=
  match ev with
  | EvProgress update =>
      match ProgressUpdate.currentRound update, ProgressUpdate.maxRounds update with
      | Some current, Some announced => 1 <= current <= announced
      | _, _ => True
      end
  | _ => True
  end.

(** Whatever [m] adds to the trace satisfies [P]. *)
Definition Emits (P : Event -> Prop) {A : Type} (m : M A) : Prop :=
  forall w, exists evs,
    trace (snd (m w)) = (trace w ++ evs)%list /\ Forall P evs.

(** The section splitter cuts between [c] and [r]. *)
Definition cutHere (c : ascii) (r : string) : bool :=
  Js.isLineTerminator c && AtomicNoteParser.headingAhead r.

(** No cut falls after a character of [s] when [s] is followed by
    [ctx]. *)
Fixpoint cutFreeIn (s ctx : string) : bool :=
  match s with
  | EmptyString => true
  | String c r => negb (cutHere c (r ++ ctx)) && cutFreeIn r ctx
  end.

(** The same, leaving out the position at the end of [s]. *)
Fixpoint innerCutFree (s ctx : string) : bool :=
  match s with
  | EmptyString => true
  | String c r =>
      (Js.isEmpty r || negb (cutHere c (r ++ ctx))) && innerCutFree r ctx
  end.

Fixpoint endsWithWhiteSpace (s : string) : bool :=
  match s with
  | EmptyString => false
  | String c r => if Js.isEmpty r then Js.isWhiteSpace c else endsWithWhiteSpace r
  end.

(** The raw text of the note starts a section wherever it stands. *)
Definition headed (note : AtomicNote.t) : Prop :=
  forall rest, AtomicNoteParser.headingAhead (AtomicNote.raw note ++ rest) = true.

(** What one round of the loop of [parse] adds for a piece. *)
Definition noteOf (piece : string) : list AtomicNote.t :=
  let trimmed := Js.trim piece in
  if negb (Js.startsWith trimmed "###") then []
  else match AtomicNoteParser.parseSection trimmed with
       | Some note => [note]
       | None => []
       end.

(** Offset of the first occurrence of [k] in [s]. *)
Fixpoint firstOccurrence (s k : string) : option nat :=
  if Js.startsWith s k then Some 0
  else match s with
       | EmptyString => None
       | String _ r => option_map S (firstOccurrence r k)
       end.

(** The prompt that [InterpretationPhase.run] sends for an article
    with this title and this (truncated) content. *)
Definition interpretationPrompt (title truncatedContent : string) : string :=
  Js.replace (Js.replace InterpretationPhase.INTERPRETATION_PROMPT "{title}" title)
             "{content}" truncatedContent.

(** Transcript projections: the text of the last draft or revision,
    the number of critiques, and whether an entry is a critique. *)
Definition isCritique (entry : TranscriptEntry.t) : bool :=
  match TranscriptEntry.type entry with
  | TranscriptEntry.critique => true
  | _ => false
  end.

Fixpoint lastDraft (transcript : list TranscriptEntry.t) : option string :=
  match transcript with
  | [] => None
  | entry :: rest =>
      match lastDraft rest with
      | Some text => Some text
      | None => if isCritique entry then None else Some (TranscriptEntry.content entry)
      end
  end.

Definition countCritiques (transcript : list TranscriptEntry.t) : nat :=
  List.length (filter isCritique transcript).

(** What a result of the interpretation phase looks like, for a budget
    of [maxRounds] rounds. *)
Definition interpretationWellFormed (maxRounds : nat)
           (r : InterpretationPhase.InterpretationResult) : Prop :=
  InterpretationPhase.gptInterpretation r <> EmptyString
  /\ InterpretationPhase.claudeInterpretation r <> EmptyString
  /\ InterpretationPhase.rounds r <= maxRounds
  /\ (if InterpretationPhase.aligned r
      then 2 <= InterpretationPhase.rounds r
           /\ (InterpretationPhase.alignedInterpretation r
                 = InterpretationPhase.gptInterpretation r
               \/ InterpretationPhase.alignedInterpretation r
                  = InterpretationPhase.claudeInterpretation r
               \/ 50 < String.length (InterpretationPhase.alignedInterpretation r))
      else InterpretationPhase.rounds r = maxRounds
           /\ InterpretationPhase.alignedInterpretation r
              = InterpretationPhase.combineInterpretations
                  (InterpretationPhase.gptInterpretation r)
                  (InterpretationPhase.claudeInterpretation r)).

(** What a result of the refinement loop looks like, for a budget of
    [maxRounds] rounds. *)
Definition refinementWellFormed (maxRounds : nat)
           (r : RefinementLoop.RefinementResult) : Prop :=
  (exists text, lastDraft (RefinementLoop.transcript r) = Some text
                /\ RefinementLoop.notes r = AtomicNoteParser.parse text)
  /\ RefinementLoop.rounds r = countCritiques (RefinementLoop.transcript r)
  /\ RefinementLoop.rounds r <= maxRounds
  /\ (RefinementLoop.approved r = true \/ RefinementLoop.rounds r = maxRounds)
  /\ (maxRounds = 0
      \/ exists earlier critique,
           RefinementLoop.transcript r = (earlier ++ [critique])%list
           /\ isCritique critique = true
           /\ RefinementLoop.approved r
              = RefinementLoop.isAccepted
                  (RefinementLoop.parseCritiqueStatus
                     (TranscriptEntry.content critique))).

(** Has the user cancelled during one of the ticks [from], ..., [to - 1]? *)
Definition anyCancel (env : Env) (from to : nat) : bool :=
  existsb (cancelDuring env) (seq from (to - from)).

(** A request made at a tick at which the token, not set in [w0], has
    not been set since. *)
Definition requestAllowed (env : Env) (w0 : World) (ev : Event) : Prop :=
  match ev with
  | EvRequest tick _ _ =>
      clock w0 <= tick /\ cancelled w0 = false /\ anyCancel env (clock w0) tick = false
  | _ => True
  end.

(** [w'] is reached from [w] with at most [calls] counted calls and
    [requests] requests, each made while the token was not set; the
    token is set in [w'] exactly when it was set in [w] or the user has
    cancelled in between. *)
Definition Reaches (env : Env) (w w' : World) (calls requests : nat) : Prop :=
  clock w <= clock w'
  /\ cancelled w' = cancelled w || anyCancel env (clock w) (clock w')
  /\ callCount w <= callCount w' <= callCount w + calls
  /\ exists evs,
       trace w' = (trace w ++ evs)%list
       /\ countRequests evs <= requests
       /\ Forall (requestAllowed env w) evs.

(** A computation that makes at most [n] calls of [chat]. *)
Definition Within (env : Env) (n : nat) {A : Type} (m : M A) : Prop :=
  forall w, Reaches env w (snd (m w)) n (API.MAX_RETRIES * n).

(** [w'] is reached from [w] with at most [calls] counted calls and
    [requests] requests. *)
Definition Spends (w w' : World) (calls requests : nat) : Prop :=
  clock w <= clock w'
  /\ callCount w <= callCount w' <= callCount w + calls
  /\ exists evs,
       trace w' = (trace w ++ evs)%list
       /\ countRequests evs <= requests.

(** A promise that can still be settled by its call: the call is in a
    round of its loop, and it has not run out of fuel. *)
Definition Ready (s : ChatStep) : Prop :=
  match s with
  | Settled o => o <> OutOfFuel
  | Suspended p => pendingAttempt p < API.MAX_RETRIES
  end.

(** The suspensions that a call has before it, at most. *)
Definition stepsLeft (s : ChatStep) : nat :=
  match s with
  | Settled _ => 0
  | Suspended p =>
      match pendingOn p with
      | AwaitResponse => 2 * (API.MAX_RETRIES - pendingAttempt p)
      | AwaitTimer _ => 2 * (API.MAX_RETRIES - pendingAttempt p) - 1
      end
  end.

(** The requests that a call has made, at most; whether it has been
    counted; whether it is yet to be counted. *)
Definition spent (s : ChatStep) : nat :=
  match s with
  | Settled _ => API.MAX_RETRIES
  | Suspended p => S (pendingAttempt p)
  end.

Definition fulfilled (s : ChatStep) : nat :=
  match s with
  | Settled (Returned _) => 1
  | _ => 0
  end.

Definition owedBy (env : Env) (s : ChatStep) : nat :=
  match s with
  | Suspended p => if owes env p then 1 else 0
  | Settled _ => 0
  end.

Definition nonEmptyResult (s : ChatStep) : Prop :=
  match s with
  | Settled (Returned content) => content <> EmptyString
  | _ => True
  end.

Definition isProgress (ev : Event) : bool :=
  match ev with EvProgress _ => true | _ => false end.

(** Two calls that run together since [w0], as [awaitBoth] finds them
    between two turns: what they have added to the trace and to the
    counter. *)
Definition Racing (env : Env) (w0 : World) (s1 s2 : ChatStep) (w : World) : Prop :=
  nonEmptyResult s1 /\ nonEmptyResult s2
  /\ inFlight w = inFlight w0
  /\ callCount w = callCount w0 + fulfilled s1 + fulfilled s2
  /\ clock w0 <= clock w
  /\ exists evs,
       trace w = (trace w0 ++ evs)%list
       /\ Forall (fun ev => isProgress ev = false) evs
       /\ countRequests evs <= spent s1 + spent s2
       /\ callCount w + owedBy env s1 + owedBy env s2
          = callCount w0 + successes env evs.

End Observe.

(* ====================================================================== *)
(** * extraction/ArticleExtractor.ts and ui/ApprovalModal.ts: text helpers *)
(* ====================================================================== *)

Module ArticleExtractor.
Import Js.

(** [text.replace(/\s+/g, " ")]; [inRun] is set inside a run of white
    space whose blank has been written. *)
Fixpoint collapseWhiteSpace (inRun : bool) (s : string) : string :=
  match s with
  | EmptyString => EmptyString
  | String c r =>
      if isWhiteSpace c then
        if inRun then collapseWhiteSpace true r
        else String " " (collapseWhiteSpace true r)
      else String c (collapseWhiteSpace false r)
  end.

(** [text.replace(/\n{3,}/g, "\n\n")]; [seen] counts the line feeds of
    the current run that have been kept. *)
Fixpoint collapseNewlines (seen : nat) (s : string) : string :=
  match s with
  | EmptyString => EmptyString
  | String c r =>
      if nat_of_ascii c =? 10 then
        if 2 <=? seen then collapseNewlines seen r
        else String c (collapseNewlines (S seen) r)
      else String c (collapseNewlines 0 r)
  end.

Definition cleanContent (text : string) : string :=
  trim (collapseNewlines 0 (collapseWhiteSpace false text)).

End ArticleExtractor.

Module ApprovalModal.
Import Js.

Definition truncateText (text : string) (maxLength : Z) : string :=
  if (Z.of_nat (String.length text) <=? maxLength)%Z then text
  else trim (slice text 0 maxLength) ++ "...".

End ApprovalModal.

(* ====================================================================== *)
(** * api/OpenRouterClient.ts: the client without retries *)
(* ====================================================================== *)

Module LegacyOpenRouterClient.
Import Js.

(** The [catch] block of [chat] for a thrown [Error]: four messages
    are replaced, found by the digits they contain. *)
Definition mapError (message : string) : JsError :=
  if includes message "401" then
    Error "Invalid API key. Please check your OpenRouter API key in settings."
  else if includes message "402" then
    Error "Insufficient credits. Please add credits to your OpenRouter account."
  else if includes message "429" then
    Error "Rate limited. Please wait a moment and try again."
  else if includes message "503" then
    Error "Model temporarily unavailable. Please try again or select a different model."
  else Error message.

Section Client.
Variable env : Env.
Variable config : OpenRouterClient.OpenRouterConfig.
(** [response.text] *)
Variable textOf : RequestUrlResponse.t -> string.
(** What [requestUrl] throws when it fails at a tick: the message of
    an [Error], or [None] for a value that is not an [Error]. *)
Variable failureAt : nat -> option string.

(** The [try] block from the response on. *)
Definition readResponse (response : RequestUrlResponse.t) : M string :=
  let status := RequestUrlResponse.status response in
  if negb (status =? 200) then
    let errorText :=
      if isEmpty (textOf response) then "Unknown error" else textOf response in
    throw (Error ("OpenRouter API error (" ++ numberToString status ++ "): "
                  ++ errorText))
  else
    match RequestUrlResponse.json response with
    | Unparseable m => throw (Error m)
    | Parsed data =>
        incrementCallCount ;;;
        match OpenRouterResponse.choices data with
        | None | Some [] => throw (Error "No response from model")
        | Some (content :: _) =>
            if isEmpty content then throw (Error "Empty response from model")
            else ret content
        end
    end.

Definition chat (role : ModelRole) (messages : list ChatMessage.t) : M string :=
  let model :=
    match role with
    | drafter => OpenRouterClient.drafterModel config
    | critic => OpenRouterClient.criticModel config
    end in
  fun w =>
    let tick := clock w in
    (outcome <- requestUrl env role
                  (RequestUrlParam.mk ("Bearer " ++ OpenRouterClient.apiKey config)
                                      model messages 4096) ;;
     match outcome with
     | RequestFailed =>
         match failureAt tick with
         | Some message => throw (mapError message)
         | None => throw (Error "Unknown API error")
         end
     | Responded response =>
         r <- tryCatch (readResponse response) ;;
         match r with
         | inl content => ret content
         | inr error => throw (mapError (errorMessage error))
         end
     end) w.

Definition getCallCount : M nat := fun w => (Returned (callCount w), w).

Definition resetCallCount : M unit :=
  fun w => (Returned tt, mkWorld 0 (cancelled w) (clock w) (trace w) (inFlight w)).

End Client.
End LegacyOpenRouterClient.

(* ====================================================================== *)
(** * output/InboxWriter.ts *)
(* ====================================================================== *)

Module InboxWriter.
Import Js.

(** What the vault holds under a path: a file with its text, or a
    folder. *)
Inductive TAbstractFile := TFile (data : string) | TFolder.

Definition Vault := string -> option TAbstractFile.

(** [vault.create(path, data)] and [vault.modify(file, data)] *)
Definition write (path : string) (data : string) (vault : Vault) : Vault :=
  fun p => if String.eqb p path then Some (TFile data) else vault p.

Definition getInitialContent : string :=
  "# Inbox" ++ nl ++ nl
  ++ "This note collects atomic notes distilled from articles." ++ nl ++ nl
  ++ "---" ++ nl ++ nl.

Section Writer.
Variable normalizePath : string -> string.
Variable settings : DistillSettings.t.
(** The two readings of the clock, as [formatNotesSection] prints
    them. *)
Variable date : string.
Variable time : string.

Definition formatNotesSection (notes : list AtomicNote.t)
           (source : ExtractedArticle.t) : string :=
  let lines :=
    ([EmptyString;
      ("## Distilled: " ++ ExtractedArticle.title source)%string;
      EmptyString;
      ("<!-- Source: " ++ ExtractedArticle.url source ++ " -->")%string;
      ("<!-- Distilled on: " ++ date ++ " at " ++ time ++ " -->")%string;
      EmptyString]
     ++ flat_map (fun note => [AtomicNote.raw note; EmptyString]) notes
     ++ ["---"; EmptyString])%list in
  join lines nl.

(** [append]: the error it throws, if any, and the vault it leaves. *)
Definition append (notes : list AtomicNote.t) (source : ExtractedArticle.t)
           (vault : Vault) : option JsError * Vault :=
  let inboxPath := normalizePath (DistillSettings.inboxPath settings) in
  let created :=
    match vault inboxPath with
    | Some inboxFile => (inboxFile, vault)
    | None => (TFile getInitialContent, write inboxPath getInitialContent vault)
    end in
  match fst created with
  | TFolder => (Some (Error (inboxPath ++ " is not a file")), snd created)
  | TFile currentContent =>
      let notesSection := formatNotesSection notes source in
      let newContent := currentContent ++ notesSection in
      (None, write inboxPath newContent (snd created))
  end.

End Writer.
End InboxWriter.

(* ====================================================================== *)
(** * Test fixtures: scripted surroundings *)
(* ====================================================================== *)

Module Fixtures.

Definition reply (status : nat) (content : string) : TransportOutcome :=
  Responded (RequestUrlResponse.mk status
               (Parsed (OpenRouterResponse.mk (Some [content]) None))).

Definition ok (content : string) : TransportOutcome := reply 200 content.

Definition httpError (status : nat) : TransportOutcome :=
  Responded (RequestUrlResponse.mk status (Unparseable "Unexpected end of JSON input")).

(** The network follows [script] tick by tick and then repeats [rest];
    nobody cancels; no jitter; suspensions end in the order in which
    they began. *)
Definition scripted (script : list TransportOutcome) (rest : TransportOutcome) : Env :=
  mkEnv (fun k _ => nth k script rest) (fun _ => false) (fun _ => 0%Z) Nat.ltb.

(** As [scripted], and the user cancels during tick [k]. *)
Definition scriptedCancelAt (k : nat) (script : list TransportOutcome)
           (rest : TransportOutcome) : Env :=
  mkEnv (fun i _ => nth i script rest) (fun i => i =? k) (fun _ => 0%Z) Nat.ltb.

Definition freshWorld : World := mkWorld 0 false 0 [] [].

Definition cancelledWorld : World := mkWorld 0 true 0 [] [].

Definition settings (interpretationRounds refinementRounds : nat) : DistillSettings.t :=
  DistillSettings.mk "sk-or-test" "openai/gpt-4o" "anthropic/claude-4-sonnet-20250522"
                     interpretationRounds refinementRounds "Inbox.md".

Definition article : ExtractedArticle.t :=
  ExtractedArticle.mk "Skills Training" "Agents need throwaway runs."
                      "https://example.com/article" None None.

Definition config : OpenRouterClient.OpenRouterConfig :=
  DialogueOrchestrator.clientConfig (settings 3 3).

(** An article whose text holds a dollar pattern. *)
Definition priceArticle : ExtractedArticle.t :=
  ExtractedArticle.mk "Prices" ("It costs " ++ "$&" ++ " 5.")
                      "https://example.com/prices" None None.

(** A model answer with an introduction and one note. *)
Definition modelOutput : string :=
  "Here are the notes." ++ Js.nl ++
  "### Agents learn from throwaway runs" ++ Js.nl ++ Js.nl ++
  "Practice runs let an agent fail cheaply before the real task, see "
  ++ "[Skills Training](https://example.com/article)." ++ Js.nl.

Definition theNote : AtomicNote.t :=
  AtomicNote.mk "Agents learn from throwaway runs"
    ("Practice runs let an agent fail cheaply before the real task, see "
     ++ "[Skills Training](https://example.com/article).")
    true
    ("### Agents learn from throwaway runs" ++ Js.nl ++ Js.nl ++
     "Practice runs let an agent fail cheaply before the real task, see "
     ++ "[Skills Training](https://example.com/article).").

End Fixtures.

(* ====================================================================== *)
(** * Facts about the string built-ins *)
(* ====================================================================== *)

Section StringFacts.
Import Js.

Lemma startsWith_app (k r : string) : startsWith (k ++ r) k = true.
Proof.
  induction k as [|a k IH]; simpl; [reflexivity|].
  now rewrite Ascii.eqb_refl, IH.
Qed.

Lemma startsWith_inv (s k : string) :
  startsWith s k = true -> s = k ++ drop (String.length k) s.
Proof.
  revert s; induction k as [|a k IH]; intros s H; simpl in *.
  - now destruct s.
  - destruct s as [|b s]; [discriminate|].
    apply andb_true_iff in H as [Hab Hk].
    apply Ascii.eqb_eq in Hab; subst b.
    simpl. f_equal. now apply IH.
Qed.

Lemma append_assoc (a b c : string) : (a ++ b) ++ c = a ++ (b ++ c).
Proof. induction a; simpl; congruence. Qed.

Lemma append_nil_r (a : string) : a ++ EmptyString = a.
Proof. induction a; simpl; congruence. Qed.

Lemma length_append (a b : string) :
  String.length (a ++ b) = String.length a + String.length b.
Proof. induction a; simpl; congruence. Qed.

Lemma includes_startsWith (s k : string) :
  startsWith s k = true -> includes s k = true.
Proof. intros H. destruct s; simpl; now rewrite H. Qed.

Lemma includes_app (pre k post : string) : includes (pre ++ k ++ post) k = true.
Proof.
  induction pre as [|c pre IH]; simpl.
  - apply includes_startsWith, startsWith_app.
  - rewrite IH. apply orb_true_r.
Qed.

Lemma includes_inv (s k : string) :
  includes s k = true -> exists pre post, s = pre ++ k ++ post.
Proof.
  induction s as [|c s IH]; simpl; intros H.
  - rewrite orb_false_r in H. apply startsWith_inv in H.
    exists EmptyString, (drop (String.length k) EmptyString). exact H.
  - apply orb_true_iff in H as [H|H].
    + apply startsWith_inv in H. exists EmptyString, (drop (String.length k) (String c s)).
      exact H.
    + destruct (IH H) as (pre & post & ->). now exists (String c pre), post.
Qed.

Lemma length_take (n : nat) (s : string) :
  String.length (take n s) = Nat.min n (String.length s).
Proof.
  revert s; induction n as [|n IH]; intros [|c s]; simpl; auto.
Qed.

Lemma take_take (n m : nat) (s : string) :
  n <= m -> take n (take m s) = take n s.
Proof.
  revert m s; induction n as [|n IH]; intros m s H; [now destruct m, s|].
  destruct m as [|m]; [lia|]. destruct s as [|c s]; simpl; [reflexivity|].
  f_equal. apply IH. lia.
Qed.

Lemma take_drop (n : nat) (s : string) : take n s ++ drop n s = s.
Proof.
  revert s; induction n as [|n IH]; intros [|c s]; simpl; auto.
  now rewrite IH.
Qed.

Lemma slice_from_zero (s : string) (e : Z) :
  slice s 0 e = take (Z.to_nat (relIndex (Z.of_nat (String.length s)) e)) s.
Proof.
  unfold slice. replace (relIndex (Z.of_nat (String.length s)) 0) with 0%Z.
  - simpl. now rewrite Z.sub_0_r.
  - unfold relIndex. simpl. lia.
Qed.

(** [lastIndexOf] answers [-1] or the position of an occurrence. *)
Lemma lastIndexOfFrom_range (s k : string) (i : Z) :
  let j := lastIndexOfFrom s k i in
  j = (-1)%Z \/
  (i <= j <= i + Z.of_nat (String.length s))%Z
  /\ startsWith (drop (Z.to_nat (j - i)) s) k = true.
Proof.
  cbv zeta. revert i; induction s as [|c s IH]; intros i.
  - cbn [lastIndexOfFrom]. destruct (startsWith EmptyString k) eqn:S; [right|now left].
    split; [cbn [String.length]; lia|]. rewrite Z.sub_diag. exact S.
  - cbn [lastIndexOfFrom].
    destruct (Z.leb_spec 0 (lastIndexOfFrom s k (i + 1))) as [Pos|Neg].
    + right. destruct (IH (i + 1)%Z) as [E|[R P]]; [lia|].
      split; [cbn [String.length]; lia|].
      replace (Z.to_nat (lastIndexOfFrom s k (i + 1) - i))
        with (S (Z.to_nat (lastIndexOfFrom s k (i + 1) - (i + 1)))) by lia.
      exact P.
    + destruct (startsWith (String c s) k) eqn:S; [right|now left].
      split; [cbn [String.length]; lia|]. rewrite Z.sub_diag. exact S.
Qed.

Lemma lastIndexOfFrom_absent (s k : string) (i : Z) :
  (0 <= i)%Z -> includes s k = false -> lastIndexOfFrom s k i = (-1)%Z.
Proof.
  revert i; induction s as [|c s IH]; intros i Hi H; simpl in *.
  - rewrite orb_false_r in H. now rewrite H.
  - apply orb_false_iff in H as [H1 H2].
    rewrite (IH (i + 1)%Z) by (lia || assumption). simpl. now rewrite H1.
Qed.

Lemma lastIndexOfFrom_present (s k : string) (i : Z) :
  (0 <= i)%Z -> includes s k = true -> (0 <= lastIndexOfFrom s k i)%Z.
Proof.
  revert i; induction s as [|c s IH]; intros i Hi H.
  - cbn [includes] in H. rewrite orb_false_r in H.
    cbn [lastIndexOfFrom]. now rewrite H.
  - cbn [lastIndexOfFrom].
    destruct (Z.leb_spec 0 (lastIndexOfFrom s k (i + 1))) as [Pos|Neg]; [exact Pos|].
    destruct (startsWith (String c s) k) eqn:S; [exact Hi|].
    cbn [includes] in H. rewrite S in H. cbn [orb] in H.
    specialize (IH (i + 1)%Z ltac:(lia) H). lia.
Qed.

Lemma drop_app (n : nat) (a b : string) :
  n <= String.length a -> drop n (a ++ b) = drop n a ++ b.
Proof.
  revert a; induction n as [|n IH]; intros a H.
  - now destruct a.
  - destruct a as [|c a]; cbn [String.length] in H; [lia|].
    cbn [append drop]. apply IH. lia.
Qed.

Lemma startsWith_app_l (s t k : string) :
  startsWith s k = true -> startsWith (s ++ t) k = true.
Proof.
  intros H. rewrite (startsWith_inv s k H), append_assoc. apply startsWith_app.
Qed.

Lemma toUpperCase_app (a b : string) :
  toUpperCase (a ++ b) = toUpperCase a ++ toUpperCase b.
Proof. induction a as [|c a IH]; cbn [append toUpperCase]; congruence. Qed.

Lemma trimEnd_app_nonws (a b : string) (c : ascii) :
  isWhiteSpace c = false ->
  trimEnd (a ++ String c b) = a ++ String c (trimEnd b).
Proof.
  intros H. induction a as [|x a IH]; cbn [append trimEnd].
  - now rewrite H.
  - rewrite IH. destruct a; cbn [append isEmpty]; now rewrite andb_false_r.
Qed.

Lemma trimEnd_idem (s : string) : trimEnd (trimEnd s) = trimEnd s.
Proof.
  induction s as [|c s IH]; [reflexivity|]. cbn [trimEnd].
  destruct (isWhiteSpace c && isEmpty (trimEnd s)) eqn:E; [reflexivity|].
  cbn [trimEnd]. now rewrite IH, E.
Qed.

Lemma trimStart_nonws (c : ascii) (s : string) :
  isWhiteSpace c = false -> trimStart (String c s) = String c s.
Proof. intros H. cbn [trimStart]. now rewrite H. Qed.

Lemma take_unbroken (n m : nat) :
  n <= m -> take n (Observe.unbroken m) = Observe.unbroken n.
Proof.
  revert m; induction n as [|n IH]; intros [|m] H; simpl; auto; try lia.
  f_equal. apply IH. lia.
Qed.

Lemma length_unbroken (n : nat) : String.length (Observe.unbroken n) = n.
Proof. induction n; simpl; congruence. Qed.

Lemma unbroken_no_space (n : nat) : includes (Observe.unbroken n) " " = false.
Proof. induction n; simpl; auto. Qed.

End StringFacts.

(* ====================================================================== *)
(** * Response classification *)
(* ====================================================================== *)

Section Classification.
Import Js.

(** The strict copy of [isAligned] is a prefix test and nothing else. *)
Lemma isAligned_iff (response : string) :
  InterpretationPhase.isAligned response = true <->
  exists keyword,
    In keyword DIALOGUE.ALIGNMENT_KEYWORDS
    /\ startsWith (toUpperCase (trim response)) keyword = true.
Proof. unfold InterpretationPhase.isAligned. apply existsb_exists. Qed.

(** Alignment prefix strictness, for the copy of [isAligned] that reads
    the keyword table: a mention of the word that is not a prefix is
    rejected, and a keyword prefix is accepted whatever follows. *)
Lemma isAligned_prefix_strict (response : string) :
  (includes (toUpperCase response) "ALIGNED" = true ->
   (forall keyword, In keyword DIALOGUE.ALIGNMENT_KEYWORDS ->
      startsWith (toUpperCase (trim response)) keyword = false) ->
   InterpretationPhase.isAligned response = false)
  /\
  (forall keyword rest,
     In keyword DIALOGUE.ALIGNMENT_KEYWORDS ->
     toUpperCase (trim response) = keyword ++ rest ->
     InterpretationPhase.isAligned response = true).
Proof.
  split.
  - intros _ H. destruct (InterpretationPhase.isAligned response) eqn:E; auto.
    apply isAligned_iff in E as (k & Hin & Hk). rewrite (H k Hin) in Hk.
    discriminate.
  - intros k rest Hin E. apply isAligned_iff. exists k. split; auto.
    rewrite E. apply startsWith_app.
Qed.

(** The strict copy of [parseCritiqueStatus]: approval and marginal only
    on a keyword prefix, [needs_work] in every other case. *)
Lemma parseCritiqueStatus_prefix_strict (critique : string) :
  let trimmedUpper := toUpperCase (trim critique) in
  (RefinementLoop.parseCritiqueStatus critique = CritiqueStatus.approved
   <-> startsWith trimmedUpper "APPROVED" = true)
  /\ (RefinementLoop.parseCritiqueStatus critique = CritiqueStatus.marginal
      <-> startsWith trimmedUpper "APPROVED" = false
          /\ startsWith trimmedUpper "MARGINAL" = true)
  /\ (RefinementLoop.parseCritiqueStatus critique = CritiqueStatus.needs_work
      <-> startsWith trimmedUpper "APPROVED" = false
          /\ startsWith trimmedUpper "MARGINAL" = false).
Proof.
  unfold RefinementLoop.parseCritiqueStatus, DIALOGUE.APPROVAL_KEYWORDS,
    DIALOGUE.MARGINAL_KEYWORDS.
  cbn [existsb]. rewrite !orb_false_r.
  destruct (startsWith (toUpperCase (trim critique)) "APPROVED");
    destruct (startsWith (toUpperCase (trim critique)) "MARGINAL");
    cbv zeta; repeat split; intros; try discriminate; try tauto;
    try (destruct H; discriminate).
Qed.

(** The response of the scenario: the keyword, a sentence, and any
    continuation. *)
Lemma isAligned_scenario (tail : string) :
  InterpretationPhase.isAligned ("ALIGNED. We agree the article argues X." ++ tail)
  = true.
Proof.
  unfold InterpretationPhase.isAligned, trim.
  change ("ALIGNED. We agree the article argues X." ++ tail)
    with (String "A" ("LIGNED. We agree the article argues X." ++ tail)).
  rewrite trimStart_nonws by reflexivity.
  change (String "A" ("LIGNED. We agree the article argues X." ++ tail))
    with ("ALIGNED. We agree the article argues X" ++ String "." tail).
  rewrite trimEnd_app_nonws by reflexivity.
  rewrite toUpperCase_app. reflexivity.
Qed.

(** The summary taken from that response is everything after the
    keyword, and only when it is longer than 50 characters. *)
Lemma extractAlignedSummary_scenario (tail fallback : string) :
  InterpretationPhase.extractAlignedSummary
    ("ALIGNED. We agree the article argues X." ++ tail) fallback
  = if 20 <? String.length (trimEnd tail)
    then "We agree the article argues X." ++ trimEnd tail
    else fallback.
Proof.
  unfold InterpretationPhase.extractAlignedSummary.
  assert (T : trim ("ALIGNED. We agree the article argues X." ++ tail)
              = "ALIGNED. We agree the article argues X." ++ trimEnd tail).
  { unfold trim.
    change ("ALIGNED. We agree the article argues X." ++ tail)
      with (String "A" ("LIGNED. We agree the article argues X." ++ tail)).
    rewrite trimStart_nonws by reflexivity.
    change (String "A" ("LIGNED. We agree the article argues X." ++ tail))
      with ("ALIGNED. We agree the article argues X" ++ String "." tail).
    now rewrite trimEnd_app_nonws by reflexivity. }
  rewrite T. cbv zeta. rewrite toUpperCase_app.
  change (find _ DIALOGUE.ALIGNMENT_KEYWORDS) with (Some "ALIGNED").
  cbv iota beta.
  assert (S7 : sliceFrom ("ALIGNED. We agree the article argues X." ++ trimEnd tail)
                         (Z.of_nat (String.length "ALIGNED"))
               = ". We agree the article argues X." ++ trimEnd tail).
  { unfold sliceFrom, relIndex. rewrite length_append.
    change (String.length "ALIGNED. We agree the article argues X.") with 39.
    change (Z.of_nat (String.length "ALIGNED")) with 7%Z.
    change (7 <? 0)%Z with false. cbv iota.
    rewrite Z.min_l by lia. reflexivity. }
  rewrite S7.
  assert (T2 : trim (". We agree the article argues X." ++ trimEnd tail)
               = ". We agree the article argues X." ++ trimEnd tail).
  { unfold trim.
    change (". We agree the article argues X." ++ trimEnd tail)
      with (String "." (" We agree the article argues X." ++ trimEnd tail)).
    rewrite trimStart_nonws by reflexivity.
    change (String "." (" We agree the article argues X." ++ trimEnd tail))
      with (". We agree the article argues X" ++ String "." (trimEnd tail)).
    now rewrite trimEnd_app_nonws, trimEnd_idem by reflexivity. }
  rewrite T2.
  change (InterpretationPhase.stripLeadingPunctuation
            (". We agree the article argues X." ++ trimEnd tail))
    with ("We agree the article argues X." ++ trimEnd tail).
  assert (T3 : trim ("We agree the article argues X." ++ trimEnd tail)
               = "We agree the article argues X." ++ trimEnd tail).
  { unfold trim.
    change ("We agree the article argues X." ++ trimEnd tail)
      with (String "W" ("e agree the article argues X." ++ trimEnd tail)).
    rewrite trimStart_nonws by reflexivity.
    change (String "W" ("e agree the article argues X." ++ trimEnd tail))
      with ("We agree the article argues X" ++ String "." (trimEnd tail)).
    now rewrite trimEnd_app_nonws, trimEnd_idem by reflexivity. }
  rewrite T3, length_append.
  change (String.length "We agree the article argues X.") with 30.
  destruct (Nat.ltb_spec 50 (30 + String.length (trimEnd tail)));
    destruct (Nat.ltb_spec 20 (String.length (trimEnd tail))); try lia; reflexivity.
Qed.

(** C1.  The copy of [isAligned] in src/dialogue/InterpretationPhase.ts
    searches for the word anywhere: on a response that only mentions
    "aligned" in the middle, and whose trimmed upper-cased form starts
    with no alignment keyword, it answers true, while the copy that reads
    the keyword table answers false. *)
Theorem legacy_isAligned_mid_text_mention :
  let response := "I do not think we are aligned on the thesis." in
  includes (toUpperCase response) "ALIGNED" = true
  /\ forallb (fun keyword => negb (startsWith (toUpperCase (trim response)) keyword))
             DIALOGUE.ALIGNMENT_KEYWORDS = true
  /\ LegacyInterpretationPhase.isAligned response = true
  /\ InterpretationPhase.isAligned response = false.
Proof. vm_compute. repeat split. Qed.

(** C2.  The first [parseCritiqueStatus] of src/dialogue/RefinementLoop.ts
    accepts the marginal keyword anywhere in the text: a critique that
    asks for changes and mentions "marginal" in the middle is classified
    marginal (an approval), while the strict copy says [needs_work]. *)
Theorem legacy_parseCritiqueStatus_mid_text_mention :
  let critique := "Note 2 needs work: its gain over a summary is marginal." in
  startsWith (toUpperCase (trim critique)) "APPROVED" = false
  /\ startsWith (toUpperCase (trim critique)) "MARGINAL" = false
  /\ LegacyRefinementLoop.parseCritiqueStatus critique = CritiqueStatus.marginal
  /\ RefinementLoop.parseCritiqueStatus critique = CritiqueStatus.needs_work.
Proof. vm_compute. repeat split. Qed.

End Classification.

(* ====================================================================== *)
(** * Truncation *)
(* ====================================================================== *)

Section Truncation.
Import Js.
Import InterpretationPhase.

Lemma truncateContent_short (content : string) (maxChars : Z) :
  (Z.of_nat (String.length content) <= maxChars)%Z ->
  truncateContent content maxChars = content.
Proof.
  intros H. unfold truncateContent.
  now destruct (Z.leb_spec (Z.of_nat (String.length content)) maxChars); [|lia].
Qed.

(** Above the ceiling the result is a prefix of the content followed by
    the notice; the prefix is shorter than the ceiling. *)
Lemma truncateContent_long (content : string) (maxChars : Z) :
  (0 <= maxChars < Z.of_nat (String.length content))%Z ->
  exists cut,
    truncateContent content maxChars = take cut content ++ TRUNCATION_NOTICE
    /\ (Z.of_nat cut <= maxChars)%Z
    /\ (lastIndexOf (take (Z.to_nat maxChars) content) " " = Z.of_nat cut
        \/ lastIndexOf (take (Z.to_nat maxChars) content) " " = (-1)%Z
           /\ cut = Z.to_nat maxChars - 1).
Proof.
  intros H. unfold truncateContent.
  destruct (Z.leb_spec (Z.of_nat (String.length content)) maxChars); [lia|].
  rewrite !slice_from_zero.
  remember (Z.to_nat maxChars) as m eqn:Em.
  assert (Hm : Z.to_nat (relIndex (Z.of_nat (String.length content)) maxChars) = m).
  { unfold relIndex. destruct (Z.ltb_spec maxChars 0); lia. }
  rewrite Hm.
  assert (Lt : String.length (take m content) = m) by (rewrite length_take; lia).
  rewrite Lt.
  pose proof (lastIndexOfFrom_range (take m content) " " 0) as R.
  fold (lastIndexOf (take m content) " ") in R. cbv zeta in R.
  destruct R as [E|[R P]].
  - rewrite E. exists (m - 1). split; [|split].
    + unfold relIndex. change (-1 <? 0)%Z with true. cbv iota.
      replace (Z.to_nat (Z.max (Z.of_nat m + -1) 0)) with (m - 1) by lia.
      now rewrite take_take by lia.
    + lia.
    + right. auto.
  - set (j := lastIndexOf (take m content) " ") in *.
    assert (Hj : (j < Z.of_nat m)%Z).
    { destruct (Z.eq_dec j (Z.of_nat m)) as [Ej|]; [|lia].
      rewrite Ej in P. rewrite Z.sub_0_r, Nat2Z.id in P.
      pose proof (take_drop m (take m content)) as TD.
      assert (D : drop m (take m content) = EmptyString).
      { apply (f_equal String.length) in TD.
        rewrite length_append, length_take in TD.
        destruct (drop m (take m content)); [reflexivity|].
        simpl in TD. rewrite length_take in TD. lia. }
      rewrite D in P. discriminate. }
    exists (Z.to_nat j). split; [|split].
    + unfold relIndex. destruct (Z.ltb_spec j 0); [lia|].
      rewrite Z.min_l by lia. now rewrite take_take by lia.
    + lia.
    + left. lia.
Qed.

(** The result is never longer than the ceiling plus the notice. *)
Lemma truncateContent_length (content : string) (maxChars : Z) :
  (0 <= maxChars < Z.of_nat (String.length content))%Z ->
  (Z.of_nat (String.length (truncateContent content maxChars))
   <= maxChars + Z.of_nat (String.length TRUNCATION_NOTICE))%Z.
Proof.
  intros H. destruct (truncateContent_long content maxChars H) as (cut & E & B & _).
  rewrite E, length_append, length_take. lia.
Qed.

(** With a space among the first [maxChars] characters, the cut is made
    just before a space: no word is split. *)
Lemma truncateContent_cut_at_space (content : string) (maxChars : Z) :
  (0 <= maxChars < Z.of_nat (String.length content))%Z ->
  includes (take (Z.to_nat maxChars) content) " " = true ->
  exists cut rest,
    truncateContent content maxChars = take cut content ++ TRUNCATION_NOTICE
    /\ drop cut content = String " " rest.
Proof.
  intros H Sp.
  destruct (truncateContent_long content maxChars H) as (cut & E & B & L).
  pose proof (lastIndexOfFrom_present _ _ 0%Z (Z.le_refl 0) Sp) as Pos.
  fold (lastIndexOf (take (Z.to_nat maxChars) content) " ") in Pos.
  destruct L as [L|[L _]]; [|lia].
  pose proof (lastIndexOfFrom_range (take (Z.to_nat maxChars) content) " " 0) as R.
  cbv zeta in R. fold (lastIndexOf (take (Z.to_nat maxChars) content) " ") in R.
  destruct R as [R|[_ P]]; [lia|].
  rewrite L, Z.sub_0_r, Nat2Z.id in P.
  apply startsWith_app_l with (t := drop (Z.to_nat maxChars) content) in P.
  rewrite <- drop_app in P by (rewrite length_take; lia).
  rewrite take_drop in P. apply startsWith_inv in P.
  exists cut, (drop 1 (drop cut content)). split; [exact E|exact P].
Qed.

(** Without a space among the first [maxChars] characters,
    [lastIndexOf] answers -1 and [slice(0, -1)] drops one character:
    the cut falls inside the word. *)
Lemma truncateContent_no_space (content : string) (m : nat) :
  1 <= m < String.length content ->
  includes (take m content) " " = false ->
  truncateContent content (Z.of_nat m) = take (m - 1) content ++ TRUNCATION_NOTICE.
Proof.
  intros H Sp.
  destruct (truncateContent_long content (Z.of_nat m)) as (cut & E & B & L); [lia|].
  rewrite Nat2Z.id in L. unfold lastIndexOf in L.
  rewrite lastIndexOfFrom_absent in L by (lia || assumption).
  destruct L as [L|[_ L]]; [lia|]. now rewrite E, L.
Qed.

(** C7.  An article of 24001 letters without a space, truncated at the
    ceiling of 24000 characters, keeps 23999 letters: the cut is made
    inside the only word, one character below the ceiling. *)
Theorem truncateContent_splits_unbroken_word :
  truncateContent (Observe.unbroken 24001) CONTENT.MAX_ARTICLE_CHARS
  = Observe.unbroken 23999 ++ TRUNCATION_NOTICE.
Proof.
  change CONTENT.MAX_ARTICLE_CHARS with (Z.of_nat 24000) .
  rewrite truncateContent_no_space.
  - rewrite take_unbroken; [reflexivity|].
    apply Nat.leb_le. vm_compute. reflexivity.
  - rewrite length_unbroken. split; apply Nat.leb_le; vm_compute; reflexivity.
  - rewrite take_unbroken; [apply unbroken_no_space|].
    apply Nat.leb_le. vm_compute. reflexivity.
Qed.

End Truncation.

(* ====================================================================== *)
(** * The note parser *)
(* ====================================================================== *)

Section Parser.
Import Js.
Import AtomicNoteParser.

(** Splitting loses no character. *)
Lemma splitSections_concat (s : string) :
  Observe.concatAll (splitSections s) = s.
Proof.
  unfold Observe.concatAll.
  induction s as [|c s IH]; [reflexivity|].
  cbn [splitSections].
  destruct (isLineTerminator c && headingAhead s).
  - cbn [fold_right append]. now rewrite IH.
  - destruct (splitSections s) as [|piece pieces];
      cbn [fold_right append] in *; now rewrite <- IH.
Qed.

Lemma piece_of_concat (pieces : list string) (piece : string) :
  In piece pieces ->
  exists pre post, Observe.concatAll pieces = pre ++ piece ++ post.
Proof.
  induction pieces as [|p pieces IH]; [contradiction|].
  intros [->|H]; unfold Observe.concatAll in *; cbn [fold_right].
  - now exists EmptyString, (fold_right append EmptyString pieces).
  - destruct (IH H) as (pre & post & ->).
    exists (p ++ pre), post. now rewrite append_assoc.
Qed.

Lemma trimStart_suffix (s : string) : exists pre, s = pre ++ trimStart s.
Proof.
  induction s as [|c s [pre IH]]; [now exists EmptyString|].
  cbn. destruct (isWhiteSpace c).
  - exists (String c pre). cbn. now rewrite <- IH.
  - now exists EmptyString.
Qed.

Lemma trimEnd_prefix (s : string) : exists post, s = trimEnd s ++ post.
Proof.
  induction s as [|c s [post IH]]; [now exists EmptyString|].
  cbn. destruct (isWhiteSpace c && isEmpty (trimEnd s)).
  - now exists (String c s).
  - exists post. cbn. now rewrite <- IH.
Qed.

Lemma trim_inside (s : string) : exists pre post, s = pre ++ trim s ++ post.
Proof.
  destruct (trimStart_suffix s) as [pre Hpre].
  destruct (trimEnd_prefix (trimStart s)) as [post Hpost].
  exists pre, post. unfold trim. now rewrite <- Hpost.
Qed.

Lemma trim_empty : trim EmptyString = EmptyString.
Proof. reflexivity. Qed.

Lemma isEmpty_true (s : string) : isEmpty s = true <-> s = EmptyString.
Proof. destruct s; cbn; split; congruence. Qed.



(** What [parseSection] promises about a note it returns. *)
Lemma parseSection_some (section : string) (note : AtomicNote.t) :
  parseSection section = Some note ->
  isEmpty (AtomicNote.heading note) = false
  /\ isEmpty (AtomicNote.content note) = false
  /\ AtomicNote.hasLink note = testLink (AtomicNote.content note)
  /\ AtomicNote.raw note = trim section.
Proof.
  unfold parseSection.
  destruct (List.length (split section (ascii_of_nat 10)) <? 2); [discriminate|].
  destruct (isEmpty (trim (stripHeadingMarker _))) eqn:Hh; [discriminate|].
  destruct (isEmpty (trim (join _ nl))) eqn:Hc; [discriminate|].
  intros [= <-]. cbn. auto.
Qed.











End Parser.

(* ====================================================================== *)
(** * The request layer *)
(* ====================================================================== *)

Section RequestLayer.
Import Js.
Import OpenRouterClient.
Import Observe.

Variable env : Env.
Variable config : OpenRouterConfig.

Local Abbreviation requestOf := (Observe.requestOf config).
Local Abbreviation modelOf := (Observe.modelOf config).

Lemma successes_app (a b : list Event) :
  successes env (a ++ b) = successes env a + successes env b.
Proof.
  induction a as [|[u|k r q|k d] a IH]; cbn [app successes]; rewrite ?IH; lia.
Qed.

Lemma requestRoles_app (a b : list Event) :
  requestRoles (a ++ b) = (requestRoles a ++ requestRoles b)%list.
Proof.
  induction a as [|[u|k r q|k d] a IH]; cbn [app requestRoles]; rewrite ?IH;
    reflexivity.
Qed.

Lemma countRequests_app (a b : list Event) :
  countRequests (a ++ b) = countRequests a + countRequests b.
Proof.
  unfold countRequests. now rewrite filter_app, length_app.
Qed.

Lemma retryableStatus_codes (status : nat) :
  existsb (Nat.eqb status) API.RETRYABLE_STATUS_CODES = retryableStatus status.
Proof.
  unfold API.RETRYABLE_STATUS_CODES, retryableStatus. cbn [existsb].
  destruct (status =? 429), (status =? 503), (status =? 502), (status =? 504);
    reflexivity.
Qed.

Lemma retryableStatus_not_200 (status : nat) :
  retryableStatus status = true -> (status =? 200) = false.
Proof.
  unfold retryableStatus. intros H.
  destruct (Nat.eqb_spec status 200) as [->|]; [|reflexivity].
  vm_compute in H. discriminate H.
Qed.

(** One request: the world it leaves, whatever the answer. *)
Lemma makeRequest_world role model messages w :
  snd (makeRequest env config role model messages w)
  = suspend env (record (EvRequest (clock w) role (requestOf model messages)) w).
Proof.
  unfold makeRequest, readResponse, bind, requestUrl, throw, ret. fold (Observe.requestOf config model messages).
  destruct (transport env (clock w) (requestOf model messages)) as [|[status body]];
    [reflexivity|].
  cbn [RequestUrlResponse.status RequestUrlResponse.json].
  destruct (negb (status =? 200)); [reflexivity|].
  destruct body as [m|[choices err]]; [reflexivity|].
  cbn [OpenRouterResponse.error OpenRouterResponse.choices].
  destruct err; [reflexivity|].
  destruct choices as [[|content rest]|]; try reflexivity.
  now destruct (isEmpty content).
Qed.

(** One request: content exactly for the successful answers, an error
    for the others. *)
Lemma makeRequest_result role model messages w :
  let o := transport env (clock w) (requestOf model messages) in
  (isSuccess o = true /\ exists content,
      fst (makeRequest env config role model messages w) = Returned content)
  \/ (isSuccess o = false /\ exists e,
      fst (makeRequest env config role model messages w) = Thrown e).
Proof.
  cbv zeta. unfold makeRequest, readResponse, bind, requestUrl, throw, ret.
  fold (Observe.requestOf config model messages).
  destruct (transport env (clock w) (requestOf model messages)) as [|[status body]].
  { right. split; [reflexivity|eexists; reflexivity]. }
  cbn [RequestUrlResponse.status RequestUrlResponse.json isSuccess].
  destruct (status =? 200); cbn [negb andb].
  2:{ right. split; [reflexivity|eexists; reflexivity]. }
  destruct body as [m|[choices err]].
  { right. split; [reflexivity|eexists; reflexivity]. }
  cbn [malformedBody OpenRouterResponse.error OpenRouterResponse.choices].
  destruct err.
  { right. split; [reflexivity|eexists; reflexivity]. }
  destruct choices as [[|content rest]|];
    try (right; split; [reflexivity|eexists; reflexivity]).
  destruct (isEmpty content); cbn [negb];
    [right|left]; (split; [reflexivity|eexists; reflexivity]).
Qed.

Lemma makeRequest_transient role model messages w :
  isRetryableFailure (transport env (clock w) (requestOf model messages)) = true ->
  fst (makeRequest env config role model messages w)
  = Thrown (transientError (transport env (clock w) (requestOf model messages)))
  /\ isRetryableError
       (transientError (transport env (clock w) (requestOf model messages))) = true.
Proof.
  unfold makeRequest, readResponse, bind, requestUrl, throw, ret.
  fold (Observe.requestOf config model messages).
  destruct (transport env (clock w) (requestOf model messages)) as [|[status body]];
    cbn [isRetryableFailure RequestUrlResponse.status]; intros H; [auto|].
  rewrite (retryableStatus_not_200 _ H). cbn [negb fst transientError].
  split; [reflexivity|].
  unfold handleHttpError. cbn [RequestUrlResponse.status isRetryableError].
  now rewrite retryableStatus_codes.
Qed.

Lemma makeRequest_terminal role model messages w :
  isTerminalFailure (transport env (clock w) (requestOf model messages)) = true ->
  exists e,
    fst (makeRequest env config role model messages w) = Thrown e
    /\ isRetryableError e = false.
Proof.
  unfold makeRequest, readResponse, bind, requestUrl, throw, ret.
  fold (Observe.requestOf config model messages).
  destruct (transport env (clock w) (requestOf model messages)) as [|[status body]];
    cbn [isTerminalFailure RequestUrlResponse.status RequestUrlResponse.json];
    [discriminate|].
  destruct (status =? 200); cbn [negb].
  - destruct body as [m|[choices err]].
    { intros _. eexists. split; reflexivity. }
    cbn [malformedBody OpenRouterResponse.error OpenRouterResponse.choices].
    destruct err.
    { intros _. eexists. split; reflexivity. }
    destruct choices as [[|content rest]|];
      try (intros _; eexists; split; reflexivity).
    intros H. rewrite H. eexists. split; reflexivity.
  - intros H. apply andb_true_iff in H as [_ H].
    eexists. split; [reflexivity|].
    unfold handleHttpError. cbn [RequestUrlResponse.status isRetryableError].
    rewrite retryableStatus_codes. now destruct (retryableStatus status).
Qed.

Lemma makeRequest_reply role model messages w content :
  transport env (clock w) (requestOf model messages)
  = Responded (RequestUrlResponse.mk 200
                 (Parsed (OpenRouterResponse.mk (Some [content]) None))) ->
  isEmpty content = false ->
  fst (makeRequest env config role model messages w) = Returned content.
Proof.
  intros T E. unfold makeRequest, readResponse, bind, requestUrl, throw, ret.
  fold (Observe.requestOf config model messages). rewrite T. cbn. now rewrite E.
Qed.

Lemma Sound_intro {A} (m : M A) :
  (forall w o w', m w = (o, w') ->
     o <> OutOfFuel
     /\ exists evs, trace w' = (trace w ++ evs)%list
                    /\ callCount w' + owed env (inFlight w')
                       = callCount w + owed env (inFlight w) + successes env evs) ->
  Sound env m.
Proof. intros H w. destruct (m w) as [o w'] eqn:E. exact (H w o w' E). Qed.

Lemma Sound_elim {A} (m : M A) w o w' :
  Sound env m -> m w = (o, w') ->
  o <> OutOfFuel
  /\ exists evs, trace w' = (trace w ++ evs)%list
                 /\ callCount w' + owed env (inFlight w')
                    = callCount w + owed env (inFlight w) + successes env evs.
Proof. intros H E. specialize (H w). now rewrite E in H. Qed.

Lemma quiet_step (w : World) :
  exists evs, trace w = (trace w ++ evs)%list
              /\ callCount w + owed env (inFlight w)
                 = callCount w + owed env (inFlight w) + successes env evs.
Proof. exists []. rewrite app_nil_r. cbn. split; [reflexivity|lia]. Qed.

(** The loop of [chat] ends within its fuel, and the counter moves by
    the number of successful requests. *)
Lemma chatAttempts_sound role model messages fuel attempt lastError :
  API.MAX_RETRIES - attempt <= fuel ->
  Sound env (chatAttempts env config fuel attempt lastError role model messages).
Proof.
  revert attempt lastError.
  induction fuel as [|fuel IH]; intros attempt lastError F;
    apply Sound_intro; intros w o w' E; cbn [chatAttempts] in E;
    destruct (Nat.ltb_spec attempt API.MAX_RETRIES) as [Lt|Ge];
    try lia;
    try (unfold throw in E; injection E as <- <-;
         split; [discriminate|apply quiet_step]).
  unfold bind at 1 in E. unfold checkCancelled in E. cbv beta in E.
  destruct (cancelled w).
  { injection E as <- <-. split; [discriminate|apply quiet_step]. }
  cbv iota beta in E. unfold bind at 1 in E. unfold tryCatch in E. cbv beta in E.
  pose proof (makeRequest_world role model messages w) as W.
  pose proof (makeRequest_result role model messages w) as R. cbv zeta in R.
  destruct (makeRequest env config role model messages w) as [o1 w1].
  cbn [fst snd] in W, R. subst w1.
  destruct R as [[Hs (content & ->)]|[Hs (e & ->)]]; cbv iota beta in E.
  - unfold bind, incrementCallCount, ret in E. injection E as <- <-.
    split; [discriminate|].
    exists [EvRequest (clock w) role (requestOf model messages)].
    cbn [suspend record trace callCount clock successes inFlight]. rewrite Hs.
    split; [reflexivity|lia].
  - destruct (isRetryableError e).
    + unfold bind at 1 in E. unfold drawJitter in E. cbv beta iota in E.
      unfold bind at 1 in E. unfold sleep in E. cbv beta iota in E.
      apply (Sound_elim _ _ _ _ (IH (S attempt) _ ltac:(lia))) in E
        as (T & evs & Tr & Cc).
      split; [exact T|].
      eexists (EvRequest (clock w) role (requestOf model messages) :: EvSleep _ _ :: evs).
      rewrite Tr. cbn [suspend record trace callCount clock successes inFlight] in Cc |- *.
      rewrite Hs. rewrite <- !app_assoc. cbn [app]. split; [reflexivity|lia].
    + unfold throw in E. injection E as <- <-. split; [discriminate|].
      exists [EvRequest (clock w) role (requestOf model messages)].
      cbn [suspend record trace callCount clock successes inFlight]. rewrite Hs.
    split; [reflexivity|lia].
Qed.

Lemma chat_sound role messages : Sound env (chat env config role messages).
Proof. unfold chat. apply chatAttempts_sound. lia. Qed.

Lemma chatAttempts_unfold fuel attempt lastError role model messages :
  chatAttempts env config (S fuel) attempt lastError role model messages
  = if attempt <? API.MAX_RETRIES then
      checkCancelled ;;;
      r <- tryCatch (makeRequest env config role model messages) ;;
      match r with
      | inl result => incrementCallCount ;;; ret result
      | inr error =>
          if isRetryableError error then
            random <- drawJitter env ;;
            sleep env (retryDelay attempt random) ;;;
            chatAttempts env config fuel (S attempt) (Some error) role model messages
          else throw error
      end
    else
      throw (match lastError with
             | Some e => e
             | None => Error "Request failed after maximum retries"
             end).
Proof. reflexivity. Qed.

Lemma chat_unfold role messages :
  chat env config role messages
  = chatAttempts env config 3 0 None role (modelOf role) messages.
Proof. reflexivity. Qed.

(** A cancelled token stops [chat] before any request. *)
Lemma chat_cancelled role messages w :
  cancelled w = true ->
  chat env config role messages w = (Thrown (Error "Cancelled"), w).
Proof.
  intros C. rewrite chat_unfold, chatAttempts_unfold.
  change (0 <? API.MAX_RETRIES) with true. cbv iota.
  unfold bind at 1. unfold checkCancelled. now rewrite C.
Qed.

(** A well-formed answer ends [chat] at the first attempt. *)
Lemma chat_reply role messages w content :
  cancelled w = false ->
  cancelDuring env (clock w) = false ->
  transport env (clock w) (requestOf (modelOf role) messages)
  = Responded (RequestUrlResponse.mk 200
                 (Parsed (OpenRouterResponse.mk (Some [content]) None))) ->
  isEmpty content = false ->
  chat env config role messages w
  = (Returned content,
     mkWorld (S (callCount w)) false (S (clock w))
             (trace w ++ [EvRequest (clock w) role (requestOf (modelOf role) messages)])
             (inFlight w)).
Proof.
  intros C D T E. rewrite chat_unfold, chatAttempts_unfold.
  change (0 <? API.MAX_RETRIES) with true. cbv iota.
  unfold bind at 1. unfold checkCancelled. rewrite C.
  unfold bind at 1. unfold tryCatch.
  pose proof (makeRequest_world role (modelOf role) messages w) as W.
  pose proof (makeRequest_reply role (modelOf role) messages w content T E) as R.
  destruct (makeRequest env config role (modelOf role) messages w) as [o w1].
  cbn [fst snd] in W, R. subst o w1.
  unfold bind, incrementCallCount, ret, suspend, record.
  cbn [callCount cancelled clock trace]. now rewrite C, D.
Qed.

End RequestLayer.

(* ====================================================================== *)
(** * Retry ceiling *)
(* ====================================================================== *)

Section RetryCeiling.
Import Js.
Import OpenRouterClient.
Import Observe.

Variable env : Env.
Variable config : OpenRouterConfig.

Local Abbreviation requestOf := (Observe.requestOf config).
Local Abbreviation modelOf := (Observe.modelOf config).

(** A transient failure costs one request and one sleep, and the loop
    goes on with the next attempt. *)
Lemma chatAttempts_transient fuel attempt lastError role model messages w :
  attempt < API.MAX_RETRIES ->
  cancelled w = false ->
  NeverCancels env ->
  isRetryableFailure (transport env (clock w) (requestOf model messages)) = true ->
  exists w2 delay,
    chatAttempts env config (S fuel) attempt lastError role model messages w
    = chatAttempts env config fuel (S attempt)
        (Some (transientError (transport env (clock w) (requestOf model messages))))
        role model messages w2
    /\ cancelled w2 = false
    /\ clock w2 = clock w + 2
    /\ callCount w2 = callCount w
    /\ trace w2
       = (trace w ++ [EvRequest (clock w) role (requestOf model messages);
                      EvSleep (S (clock w)) delay])%list.
Proof.
  intros Lt C N T. rewrite chatAttempts_unfold.
  apply Nat.ltb_lt in Lt. rewrite Lt.
  unfold bind at 1. unfold checkCancelled. rewrite C.
  unfold bind at 1. unfold tryCatch.
  pose proof (makeRequest_world env config role model messages w) as W.
  destruct (makeRequest_transient env config role model messages w T) as [R Re].
  destruct (makeRequest env config role model messages w) as [o1 w1].
  cbn [fst snd] in W, R. subst o1 w1. rewrite Re.
  unfold bind at 1. unfold drawJitter.
  unfold bind at 1. unfold sleep.
  eexists. eexists. split; [reflexivity|].
  cbn [suspend record cancelled clock callCount trace].
  rewrite C, !N. cbn [orb]. repeat split; try lia.
  now rewrite <- app_assoc.
Qed.

(** C4.  With [MAX_RETRIES] = 3 and no cancellation: against a
    transport that always fails transiently, [chat] makes exactly three
    requests and then throws the error of the third; against a terminal
    failure it makes one request, does not sleep, and throws at once.
    The call counter does not move. *)
Theorem chat_retry_ceiling role messages w :
  cancelled w = false ->
  (NeverCancels env ->
   (forall k request, isRetryableFailure (transport env k request) = true) ->
   exists w' evs,
     chat env config role messages w
     = (Thrown (transientError
                  (transport env (clock w + 4) (requestOf (modelOf role) messages))),
        w')
     /\ trace w' = (trace w ++ evs)%list
     /\ countRequests evs = 3
     /\ callCount w' = callCount w)
  /\
  (isTerminalFailure (transport env (clock w) (requestOf (modelOf role) messages)) = true ->
   exists e w',
     chat env config role messages w = (Thrown e, w')
     /\ isRetryableError e = false
     /\ trace w'
        = (trace w ++ [EvRequest (clock w) role (requestOf (modelOf role) messages)])%list
     /\ callCount w' = callCount w).
Proof.
  intros C. split.
  - intros N T. rewrite chat_unfold.
    assert (L0 : 0 < API.MAX_RETRIES) by (unfold API.MAX_RETRIES; lia).
    assert (L1 : 1 < API.MAX_RETRIES) by (unfold API.MAX_RETRIES; lia).
    assert (L2 : 2 < API.MAX_RETRIES) by (unfold API.MAX_RETRIES; lia).
    destruct (chatAttempts_transient 2 0 None role (modelOf role) messages w
                L0 C N (T _ _))
      as (w1 & d1 & E1 & C1 & K1 & Cc1 & T1).
    destruct (chatAttempts_transient 1 1
                (Some (transientError (transport env (clock w)
                                         (requestOf (modelOf role) messages))))
                role (modelOf role) messages w1 L1 C1 N (T _ _))
      as (w2 & d2 & E2 & C2 & K2 & Cc2 & T2).
    destruct (chatAttempts_transient 0 2
                (Some (transientError (transport env (clock w1)
                                         (requestOf (modelOf role) messages))))
                role (modelOf role) messages w2 L2 C2 N (T _ _))
      as (w3 & d3 & E3 & C3 & K3 & Cc3 & T3).
    rewrite E1, E2, E3. cbn [chatAttempts]. unfold throw.
    change (3 <? API.MAX_RETRIES) with false. cbv iota.
    replace (clock w + 4) with (clock w2) by lia.
    exists w3. eexists. split; [reflexivity|].
    rewrite T3, T2, T1, Cc3, Cc2, Cc1. rewrite <- !app_assoc.
    split; [reflexivity|]. split; reflexivity.
  - intros T. rewrite chat_unfold, chatAttempts_unfold.
    change (0 <? API.MAX_RETRIES) with true. cbv iota.
    unfold bind at 1. unfold checkCancelled. rewrite C.
    unfold bind at 1. unfold tryCatch.
    pose proof (makeRequest_world env config role (modelOf role) messages w) as W.
    destruct (makeRequest_terminal env config role (modelOf role) messages w T)
      as (e & R & Re).
    destruct (makeRequest env config role (modelOf role) messages w) as [o1 w1].
    cbn [fst snd] in W, R. subst o1 w1. rewrite Re. unfold throw.
    exists e. eexists. split; [reflexivity|]. split; [exact Re|].
    cbn [suspend record trace callCount]. split; reflexivity.
Qed.

End RetryCeiling.

Section RetryCeilingWitness.
Import Fixtures.
Import Observe.

(** C4 on two scripted transports: status 503 for ever, and a single
    status 401. *)
Lemma chat_retry_ceiling_witness :
  (exists w' evs,
      OpenRouterClient.chat (scripted [] (httpError 503)) config drafter [] freshWorld
      = (Thrown (OpenRouterError "Service temporarily unavailable. Retrying..." 503 true), w')
      /\ trace w' = evs /\ countRequests evs = 3 /\ callCount w' = 0)
  /\
  (exists e w',
      OpenRouterClient.chat (scripted [httpError 401] (ok "late")) config critic [] freshWorld
      = (Thrown e, w')
      /\ OpenRouterClient.isRetryableError e = false
      /\ countRequests (trace w') = 1
      /\ callCount w' = 0).
Proof.
  split.
  - destruct (chat_retry_ceiling (scripted [] (httpError 503)) config drafter []
                freshWorld eq_refl) as [Retry _].
    destruct Retry as (w' & evs & E & T & N & Cc).
    + intros k. reflexivity.
    + intros k request. cbn. now destruct k.
    + exists w', evs. repeat split; assumption.
  - destruct (chat_retry_ceiling (scripted [httpError 401] (ok "late")) config critic []
                freshWorld eq_refl) as [_ Terminal].
    destruct Terminal as (e & w' & E & R & T & Cc); [reflexivity|].
    exists e, w'. rewrite T. repeat split; assumption.
Defined.

End RetryCeilingWitness.

(* ====================================================================== *)
(** * Calls of [chat] from one [await] to the next *)
(* ====================================================================== *)

Section ChatSteps.
Import Js.
Import OpenRouterClient.
Import Observe.

Variable env : Env.
Variable config : OpenRouterConfig.

Local Abbreviation requestOf := (Observe.requestOf config).
Local Abbreviation modelOf := (Observe.modelOf config).

(** Reading a response leaves the world alone: it returns the content
    of a successful answer, which is not empty, and throws for the
    others. *)
Lemma readResponse_result (o : TransportOutcome) (w : World) :
  (isSuccess o = true
   /\ exists content,
        readResponse o w = (Returned content, w) /\ isEmpty content = false)
  \/ (isSuccess o = false /\ exists e, readResponse o w = (Thrown e, w)).
Proof.
  unfold readResponse, throw, ret.
  destruct o as [|[status body]].
  { right. split; [reflexivity|eexists; reflexivity]. }
  cbn [RequestUrlResponse.status RequestUrlResponse.json isSuccess].
  destruct (status =? 200); cbn [negb andb].
  2:{ right. split; [reflexivity|eexists; reflexivity]. }
  destruct body as [m|[choices err]].
  { right. split; [reflexivity|eexists; reflexivity]. }
  cbn [malformedBody OpenRouterResponse.error OpenRouterResponse.choices].
  destruct err.
  { right. split; [reflexivity|eexists; reflexivity]. }
  destruct choices as [[|content rest]|];
    try (right; split; [reflexivity|eexists; reflexivity]).
  destruct (isEmpty content) eqn:E; cbn [negb];
    [right; split; [reflexivity|eexists; reflexivity]|].
  left. split; [reflexivity|]. exists content. split; [reflexivity|exact E].
Qed.

Lemma suspend_record (ev : Event) (w : World) :
  suspend env (record ev w) = wake env (clock w) (begin ev w).
Proof. reflexivity. Qed.

Lemma makeRequest_steps role model messages w :
  makeRequest env config role model messages w
  = readResponse (transport env (clock w) (requestOf model messages))
      (wake env (clock w) (begin (EvRequest (clock w) role (requestOf model messages)) w)).
Proof. rewrite <- suspend_record. reflexivity. Qed.

Lemma double_S (n : nat) : 2 * S n = S (S (2 * n)).
Proof. lia. Qed.

(** The loop of [chat] is the call run from one [await] to the next,
    resumed whenever its suspension ends. *)
Lemma chatAttempts_by_steps fuel attempt lastError role model messages w :
  API.MAX_RETRIES - attempt <= fuel ->
  chatAttempts env config fuel attempt lastError role model messages w
  = chatSettle env config (2 * fuel)
      (fst (chatEnter config attempt lastError role model messages w))
      (snd (chatEnter config attempt lastError role model messages w)).
Proof.
  revert attempt lastError w.
  induction fuel as [|fuel IH]; intros attempt lastError w F;
    cbn [chatAttempts]; unfold chatEnter;
    destruct (Nat.ltb_spec attempt API.MAX_RETRIES) as [Lt|Ge]; try lia;
    try reflexivity.
  rewrite double_S.
  unfold bind at 1. unfold checkCancelled.
  destruct (cancelled w) eqn:C; [reflexivity|].
  cbv iota beta. cbn [fst snd].
  unfold bind at 1. unfold tryCatch. rewrite makeRequest_steps.
  cbn [chatSettle]. unfold chatResume at 1.
  cbn [pendingOn pendingSince pendingRequest pendingRole pendingAttempt].
  fold (requestOf model messages).
  set (w1 := wake env (clock w) _).
  destruct (readResponse_result (transport env (clock w) (requestOf model messages)) w1)
    as [[_ (content & -> & _)]|[_ (e & ->)]].
  - reflexivity.
  - destruct (isRetryableError e); [|reflexivity].
    unfold bind at 1. unfold drawJitter. unfold bind at 1. unfold sleep.
    rewrite suspend_record.
    rewrite (IH (S attempt) (Some e) _ ltac:(lia)).
    cbn [chatSettle]. unfold chatResume at 1.
    cbn [pendingOn pendingSince pendingRequest pendingRole pendingAttempt].
    cbn [RequestUrlParam.model RequestUrlParam.messages Observe.requestOf].
    destruct (chatEnter config (S attempt) (Some e) role model messages _);
      reflexivity.
Qed.

Lemma chat_by_steps role messages w :
  chat env config role messages w
  = chatSettle env config (2 * API.MAX_RETRIES)
      (fst (chatStart config role messages w))
      (snd (chatStart config role messages w)).
Proof. unfold chat, chatStart. apply chatAttempts_by_steps. lia. Qed.

(** What resuming a suspended call does: the answer is read and
    counted; or the call ends with an error; or it goes to sleep; or it
    wakes up and makes the request of the next round. *)
Lemma chatResume_cases (p : PendingChat) (w : World) :
  pendingAttempt p < API.MAX_RETRIES ->
  let w1 := wake env (pendingSince p) w in
  (owes env p = true
   /\ exists content,
        content <> EmptyString
        /\ chatResume env config p w
           = (Settled (Returned content), snd (incrementCallCount w1)))
  \/ (owes env p = false
      /\ ((exists e, chatResume env config p w = (Settled (Thrown e), w1))
          \/ (exists p' delay,
                chatResume env config p w
                = (Suspended p', begin (EvSleep (clock w) delay) w1)
                /\ pendingAttempt p' = pendingAttempt p
                /\ pendingSince p' = clock w
                /\ owes env p' = false
                /\ stepsLeft (Suspended p') < stepsLeft (Suspended p))
          \/ (exists p',
                chatResume env config p w
                = (Suspended p',
                   begin (EvRequest (clock w) (pendingRole p') (pendingRequest p')) w1)
                /\ pendingAttempt p' = S (pendingAttempt p)
                /\ pendingAttempt p' < API.MAX_RETRIES
                /\ pendingSince p' = clock w
                /\ pendingOn p' = AwaitResponse
                /\ cancelled w1 = false
                /\ stepsLeft (Suspended p') < stepsLeft (Suspended p)))).
Proof.
  intros A w1. unfold chatResume, owes, stepsLeft. fold w1.
  change (clock w) with (clock w1).
  destruct p as [role request attempt since [|error]];
    cbn [pendingOn pendingSince pendingRequest pendingRole pendingAttempt] in *.
  - destruct (readResponse_result (transport env since request) w1)
      as [[-> (content & -> & N)]|[-> (e & ->)]].
    + left. split; [reflexivity|]. exists content. split; [|reflexivity].
      intros ->. discriminate.
    + right. split; [reflexivity|].
      destruct (isRetryableError e); [|left; now exists e].
      right. left. eexists (mkPending _ _ _ _ _). eexists. split; [reflexivity|].
      cbn [pendingOn pendingSince pendingRequest pendingRole pendingAttempt].
      repeat split. unfold API.MAX_RETRIES in *. lia.
  - right. split; [reflexivity|]. unfold chatEnter.
    destruct (Nat.ltb_spec (S attempt) API.MAX_RETRIES) as [Lt|Ge];
      [|left; now eexists].
    destruct (cancelled w1) eqn:C; [left; now eexists|].
    right. right. eexists (mkPending _ _ _ _ _). split; [reflexivity|].
    cbn [pendingOn pendingSince pendingRequest pendingRole pendingAttempt].
    repeat split; trivial. unfold API.MAX_RETRIES in *. lia.
Qed.

Lemma chatResume_ready (p : PendingChat) (w : World) :
  pendingAttempt p < API.MAX_RETRIES ->
  Ready (fst (chatResume env config p w))
  /\ stepsLeft (fst (chatResume env config p w)) < stepsLeft (Suspended p).
Proof.
  intros A.
  assert (P : 0 < stepsLeft (Suspended p)).
  { unfold stepsLeft. destruct (pendingOn p); unfold API.MAX_RETRIES in *; lia. }
  destruct (chatResume_cases p w A)
    as [(_ & c & _ & ->)
       |(_ & [(e & ->)|[(p' & d & -> & Ea & _ & _ & L)|(p' & -> & _ & Lt & _ & _ & _ & L)]])];
    cbn [fst Ready]; (split; [try discriminate|]); trivial; try exact P.
  rewrite Ea. exact A.
Qed.

Lemma settlement_none_pending (s1 s2 : ChatStep) :
  settlement s1 s2 = None ->
  (exists p1, s1 = Suspended p1) \/ (exists p2, s2 = Suspended p2).
Proof.
  destruct s1 as [[a|e|]|p1], s2 as [[b|e2|]|p2]; cbn; try discriminate; eauto.
Qed.

Lemma settlement_ready (s1 s2 : ChatStep) o :
  Ready s1 -> Ready s2 -> settlement s1 s2 = Some o -> o <> OutOfFuel.
Proof.
  destruct s1 as [[a|e|]|p1], s2 as [[b|e2|]|p2]; cbn;
    intros R1 R2 [= <-]; congruence.
Qed.

(** The rule of [awaitBoth]: a property of the two calls and the world
    that every resumption keeps holds when [Promise.all] is settled,
    which it is before the fuel runs out. *)
Lemma awaitBoth_rule (J : ChatStep -> ChatStep -> World -> Prop) :
  (forall p1 s2 w,
      pendingAttempt p1 < API.MAX_RETRIES -> Ready s2 ->
      settlement (Suspended p1) s2 = None ->
      J (Suspended p1) s2 w ->
      J (fst (chatResume env config p1 w)) s2 (snd (chatResume env config p1 w))) ->
  (forall s1 p2 w,
      Ready s1 -> pendingAttempt p2 < API.MAX_RETRIES ->
      settlement s1 (Suspended p2) = None ->
      J s1 (Suspended p2) w ->
      J s1 (fst (chatResume env config p2 w)) (snd (chatResume env config p2 w))) ->
  forall fuel s1 s2 w,
    stepsLeft s1 + stepsLeft s2 <= fuel ->
    Ready s1 -> Ready s2 -> J s1 s2 w ->
    exists s1' s2' w' o,
      awaitBoth env config fuel s1 s2 w = (o, leaveRunning s1' (leaveRunning s2' w'))
      /\ settlement s1' s2' = Some o
      /\ o <> OutOfFuel
      /\ Ready s1' /\ Ready s2'
      /\ J s1' s2' w'.
Proof.
  intros Left Right.
  induction fuel as [|fuel IH]; intros s1 s2 w F R1 R2 H;
    cbn [awaitBoth];
    destruct (settlement s1 s2) as [o|] eqn:E;
    try (exists s1, s2, w, o; split; [reflexivity|]; split; [exact E|];
         split; [exact (settlement_ready _ _ _ R1 R2 E)|auto]).
  - exfalso.
    destruct (settlement_none_pending _ _ E) as [[p ->]|[p ->]];
      [pose proof (chatResume_ready p w R1)|pose proof (chatResume_ready p w R2)];
      lia.
  - destruct s1 as [o1|p1].
    + destruct (settlement_none_pending _ _ E) as [[p Ep]|[p2 ->]]; [discriminate|].
      pose proof (Right _ _ _ R1 R2 E H) as H'.
      destruct (chatResume_ready p2 w R2) as [R2' L].
      destruct (chatResume env config p2 w) as [s2' w2]. cbn [fst snd] in *.
      destruct o1; apply IH; trivial; cbn [stepsLeft] in *; lia.
    + destruct s2 as [o2|p2].
      * pose proof (Left _ _ _ R1 R2 E H) as H'.
        destruct (chatResume_ready p1 w R1) as [R1' L].
        destruct (chatResume env config p1 w) as [s1' w2]. cbn [fst snd] in *.
        apply IH; trivial; cbn [stepsLeft] in *; lia.
      * destruct (endsBefore env (pendingSince p1) (pendingSince p2)).
        -- pose proof (Left _ _ _ R1 R2 E H) as H'.
           destruct (chatResume_ready p1 w R1) as [R1' L].
           destruct (chatResume env config p1 w) as [s1' w2]. cbn [fst snd] in *.
           apply IH; trivial. cbn [stepsLeft] in *. lia.
        -- pose proof (Right _ _ _ R1 R2 E H) as H'.
           destruct (chatResume_ready p2 w R2) as [R2' L].
           destruct (chatResume env config p2 w) as [s2' w2]. cbn [fst snd] in *.
           apply IH; trivial. cbn [stepsLeft] in *. lia.
Qed.

End ChatSteps.

Section Racing.
Import Js.
Import OpenRouterClient.
Import Observe.

Variable env : Env.
Variable config : OpenRouterConfig.

Lemma owed_app (a b : list PendingChat) :
  owed env (a ++ b) = owed env a + owed env b.
Proof. unfold owed. now rewrite filter_app, length_app. Qed.

Lemma Racing_sym w0 s1 s2 w : Racing env w0 s1 s2 w -> Racing env w0 s2 s1 w.
Proof.
  intros (N1 & N2 & IF & CC & K & evs & T & FP & CR & CO).
  unfold Racing.
  split; [exact N2|]. split; [exact N1|]. split; [exact IF|]. split; [lia|].
  split; [exact K|].
  exists evs.
  split; [exact T|]. split; [exact FP|]. split; lia.
Qed.

(** Resuming the first call keeps the two calls in step with the
    world. *)
Lemma Racing_resume_left w0 p1 s2 w :
  pendingAttempt p1 < API.MAX_RETRIES ->
  Racing env w0 (Suspended p1) s2 w ->
  Racing env w0 (fst (chatResume env config p1 w)) s2
         (snd (chatResume env config p1 w)).
Proof.
  intros A (N1 & N2 & IF & CC & K & evs & T & FP & CR & CO).
  cbn [owedBy fulfilled spent] in CC, CR, CO.
  destruct (chatResume_cases env config p1 w A)
    as [(O & c & Nc & ->)
       |(O & [(e & ->)
             |[(p' & d & -> & Ea & Es & Op & _)
              |(p' & -> & Ea & Lt & Es & Eo & C & _)]])];
    rewrite O in CO; cbn [fst snd]; unfold Racing;
    cbn [incrementCallCount snd begin wake callCount clock trace cancelled inFlight].
  - split; [exact Nc|]. split; [exact N2|]. split; [exact IF|].
    split; [cbn [fulfilled]; lia|]. split; [exact K|].
    exists evs. split; [exact T|]. split; [exact FP|].
    split; [cbn [spent]; lia|cbn [owedBy]; lia].
  - split; [exact I|]. split; [exact N2|]. split; [exact IF|].
    split; [cbn [fulfilled]; lia|]. split; [exact K|].
    exists evs. split; [exact T|]. split; [exact FP|].
    split; [cbn [spent]; lia|cbn [owedBy]; lia].
  - split; [exact I|]. split; [exact N2|]. split; [exact IF|].
    split; [cbn [fulfilled]; lia|]. split; [lia|].
    exists (evs ++ [EvSleep (clock w) d])%list.
    split; [rewrite T; now rewrite app_assoc|].
    split; [apply Forall_app; split; [exact FP|repeat constructor]|].
    split.
    { rewrite countRequests_app. cbn [spent]. rewrite Ea.
      change (countRequests [EvSleep (clock w) d]) with 0. lia. }
    rewrite successes_app. cbn [successes owedBy]. rewrite Op. lia.
  - split; [exact I|]. split; [exact N2|]. split; [exact IF|].
    split; [cbn [fulfilled]; lia|]. split; [lia|].
    exists (evs ++ [EvRequest (clock w) (pendingRole p') (pendingRequest p')])%list.
    split; [rewrite T; now rewrite app_assoc|].
    split; [apply Forall_app; split; [exact FP|repeat constructor]|].
    split.
    { rewrite countRequests_app. cbn [spent]. rewrite Ea.
      change (countRequests [EvRequest (clock w) (pendingRole p') (pendingRequest p')])
        with 1. lia. }
    rewrite successes_app. cbn [successes owedBy]. unfold owes at 1.
    rewrite Eo, Es. destruct (isSuccess _); lia.
Qed.

Lemma Racing_resume_right w0 s1 p2 w :
  pendingAttempt p2 < API.MAX_RETRIES ->
  Racing env w0 s1 (Suspended p2) w ->
  Racing env w0 s1 (fst (chatResume env config p2 w))
         (snd (chatResume env config p2 w)).
Proof.
  intros A H. apply Racing_sym.
  apply Racing_resume_left; [exact A|]. now apply Racing_sym.
Qed.

(** The two calls of [Promise.all], each one run up to its first
    [await]. *)
Lemma Racing_start role1 messages1 role2 messages2 w :
  let s1 := fst (chatStart config role1 messages1 w) in
  let w1 := snd (chatStart config role1 messages1 w) in
  let s2 := fst (chatStart config role2 messages2 w1) in
  let w2 := snd (chatStart config role2 messages2 w1) in
  Ready s1 /\ Ready s2
  /\ stepsLeft s1 + stepsLeft s2 <= 2 * (2 * API.MAX_RETRIES)
  /\ Racing env w s1 s2 w2.
Proof.
  cbv zeta. unfold chatStart, chatEnter.
  change (0 <? API.MAX_RETRIES) with true. cbv iota.
  destruct (cancelled w) eqn:C; cbn [fst snd].
  - rewrite C. cbn [fst snd Ready stepsLeft].
    split; [discriminate|]. split; [discriminate|]. split; [lia|].
    unfold Racing. cbn [nonEmptyResult fulfilled].
    split; [exact I|]. split; [exact I|]. split; [reflexivity|]. split; [lia|].
    split; [lia|].
    exists []. rewrite app_nil_r. cbn [owedBy spent successes].
    split; [reflexivity|]. split; [constructor|]. split; [cbn; lia|lia].
  - cbn [begin cancelled]. rewrite C. cbn [fst snd Ready stepsLeft pendingAttempt pendingOn].
    split; [unfold API.MAX_RETRIES; lia|]. split; [unfold API.MAX_RETRIES; lia|].
    split; [lia|].
    unfold Racing.
    cbn [nonEmptyResult fulfilled begin callCount clock cancelled trace inFlight].
    split; [exact I|]. split; [exact I|]. split; [reflexivity|]. split; [lia|].
    split; [lia|].
    eexists [EvRequest (clock w) role1 _; EvRequest (S (clock w)) role2 _].
    split; [now rewrite <- app_assoc|].
    split; [repeat constructor|].
    split; [cbn; lia|].
    cbn [owedBy successes owes pendingOn pendingSince pendingRequest].
    destruct (isSuccess _), (isSuccess _); lia.
Qed.

Lemma leaveRunning_world (s : ChatStep) (w : World) :
  callCount (leaveRunning s w) = callCount w
  /\ cancelled (leaveRunning s w) = cancelled w
  /\ clock (leaveRunning s w) = clock w
  /\ trace (leaveRunning s w) = trace w
  /\ owed env (inFlight (leaveRunning s w)) = owed env (inFlight w) + owedBy env s.
Proof.
  destruct s as [o|p]; cbn [leaveRunning callCount cancelled clock trace inFlight owedBy].
  - repeat split. lia.
  - repeat split. rewrite owed_app. unfold owed at 2. cbn [filter].
    destruct (owes env p); reflexivity.
Qed.

(** [Promise.all] over two calls of [chat], whatever the network, the
    user and the order of the answers do. *)
Lemma promiseAll_racing call1 call2 w :
  exists s1 s2 w' o,
    promiseAll env config call1 call2 w = (o, leaveRunning s1 (leaveRunning s2 w'))
    /\ settlement s1 s2 = Some o
    /\ o <> OutOfFuel
    /\ Ready s1 /\ Ready s2
    /\ Racing env w s1 s2 w'.
Proof.
  unfold promiseAll.
  destruct (Racing_start (fst call1) (snd call1) (fst call2) (snd call2) w)
    as (R1 & R2 & F & H).
  destruct (chatStart config (fst call1) (snd call1) w) as [s1 w1].
  cbn [fst snd] in *.
  destruct (chatStart config (fst call2) (snd call2) w1) as [s2 w2].
  cbn [fst snd] in *.
  apply (awaitBoth_rule env config (Racing env w)); trivial.
  - intros p1 s2' w0 A _ E J. now apply Racing_resume_left.
  - intros s1' p2 w0 _ A E J. now apply Racing_resume_right.
Qed.

Lemma promiseAll_spec call1 call2 w :
  let o := fst (promiseAll env config call1 call2 w) in
  let w' := snd (promiseAll env config call1 call2 w) in
  o <> OutOfFuel
  /\ (forall a b, o = Returned (a, b) ->
        a <> EmptyString /\ b <> EmptyString /\ inFlight w' = inFlight w
        /\ callCount w' = callCount w + 2)
  /\ clock w <= clock w'
  /\ callCount w <= callCount w' <= callCount w + 2
  /\ exists evs,
       trace w' = (trace w ++ evs)%list
       /\ Forall (fun ev => isProgress ev = false) evs
       /\ countRequests evs <= API.MAX_RETRIES * 2
       /\ callCount w' + owed env (inFlight w')
          = callCount w + owed env (inFlight w) + successes env evs.
Proof.
  cbv zeta.
  destruct (promiseAll_racing call1 call2 w)
    as (s1 & s2 & w' & o & -> & S & N & R1 & R2
        & N1 & N2 & IF & CC & K & evs & T & FP & CR & CO).
  cbn [fst snd].
  destruct (leaveRunning_world s2 w') as (Lc2 & Lf2 & Lk2 & Lt2 & Lo2).
  destruct (leaveRunning_world s1 (leaveRunning s2 w')) as (Lc1 & Lf1 & Lk1 & Lt1 & Lo1).
  rewrite Lc1, Lk1, Lt1, Lo1, Lc2, Lk2, Lt2, Lo2, IF.
  assert (F1 : fulfilled s1 <= 1) by (destruct s1 as [[| |]|]; cbn; lia).
  assert (F2 : fulfilled s2 <= 1) by (destruct s2 as [[| |]|]; cbn; lia).
  assert (S1 : spent s1 <= API.MAX_RETRIES).
  { destruct s1; cbn [spent Ready] in *; lia. }
  assert (S2 : spent s2 <= API.MAX_RETRIES).
  { destruct s2; cbn [spent Ready] in *; lia. }
  split; [exact N|]. split.
  { intros a b ->.
    destruct s1 as [[a'|e|]|p1], s2 as [[b'|e2|]|p2]; cbn in S; try discriminate.
    injection S as <- <-. cbn [leaveRunning nonEmptyResult fulfilled] in *.
    repeat split; trivial. lia. }
  split; [lia|]. split; [lia|].
  exists evs. split; [exact T|]. split; [exact FP|].
  split; [lia|lia].
Qed.

Lemma awaitBoth_settled fuel s1 s2 w o :
  settlement s1 s2 = Some o ->
  awaitBoth env config fuel s1 s2 w = (o, leaveRunning s1 (leaveRunning s2 w)).
Proof. intros E. destruct fuel; cbn [awaitBoth]; now rewrite E. Qed.

Lemma awaitBoth_left fuel p1 s2 w :
  settlement (Suspended p1) s2 = None ->
  match s2 with
  | Suspended p2 => endsBefore env (pendingSince p1) (pendingSince p2) = true
  | Settled _ => True
  end ->
  awaitBoth env config (S fuel) (Suspended p1) s2 w
  = awaitBoth env config fuel (fst (chatResume env config p1 w)) s2
      (snd (chatResume env config p1 w)).
Proof.
  intros E F. cbn [awaitBoth]. rewrite E.
  destruct s2 as [o2|p2]; [|rewrite F];
    now destruct (chatResume env config p1 _).
Qed.

Lemma awaitBoth_right fuel s1 p2 w :
  settlement s1 (Suspended p2) = None ->
  match s1 with
  | Suspended p1 => endsBefore env (pendingSince p1) (pendingSince p2) = false
  | Settled _ => True
  end ->
  awaitBoth env config (S fuel) s1 (Suspended p2) w
  = awaitBoth env config fuel s1 (fst (chatResume env config p2 w))
      (snd (chatResume env config p2 w)).
Proof.
  intros E F. cbn [awaitBoth]. rewrite E.
  destruct s1 as [o1|p1]; [|rewrite F];
    now destruct (chatResume env config p2 _).
Qed.

Lemma chatResume_reply role request attempt since w content :
  transport env since request
  = Responded (RequestUrlResponse.mk 200
                 (Parsed (OpenRouterResponse.mk (Some [content]) None))) ->
  isEmpty content = false ->
  chatResume env config (mkPending role request attempt since AwaitResponse) w
  = (Settled (Returned content), snd (incrementCallCount (wake env since w))).
Proof.
  intros T E. unfold chatResume. cbn [pendingOn pendingSince pendingRequest].
  rewrite T. unfold readResponse.
  cbn [RequestUrlResponse.status RequestUrlResponse.json OpenRouterResponse.error
         OpenRouterResponse.choices Nat.eqb negb].
  now rewrite E.
Qed.

Lemma chatResume_http_error role request attempt since w response :
  transport env since request = Responded response ->
  RequestUrlResponse.status response <> 200 ->
  retryableStatus (RequestUrlResponse.status response) = false ->
  chatResume env config (mkPending role request attempt since AwaitResponse) w
  = (Settled (Thrown (handleHttpError response)), wake env since w).
Proof.
  intros T N R. unfold chatResume. cbn [pendingOn pendingSince pendingRequest].
  rewrite T. unfold readResponse. apply Nat.eqb_neq in N. rewrite N.
  cbn [negb throw]. unfold handleHttpError at 1. cbv zeta. cbn [isRetryableError].
  rewrite retryableStatus_codes, R. reflexivity.
Qed.

Lemma promiseAll_unfold role1 messages1 role2 messages2 w :
  cancelled w = false ->
  let request1 := requestOf config (modelOf config role1) messages1 in
  let request2 := requestOf config (modelOf config role2) messages2 in
  promiseAll env config (role1, messages1) (role2, messages2) w
  = awaitBoth env config 12
      (Suspended (mkPending role1 request1 0 (clock w) AwaitResponse))
      (Suspended (mkPending role2 request2 0 (S (clock w)) AwaitResponse))
      (begin (EvRequest (S (clock w)) role2 request2)
         (begin (EvRequest (clock w) role1 request1) w)).
Proof.
  intros C. cbv zeta. unfold promiseAll, chatStart, chatEnter.
  change (0 <? API.MAX_RETRIES) with true. cbv iota. cbn [fst snd].
  rewrite C. cbn [begin cancelled]. rewrite C. reflexivity.
Qed.

(** Both initial requests are answered with content: the two answers,
    in the order of the calls, whichever came first. *)
Lemma promiseAll_replies role1 messages1 role2 messages2 w content1 content2 :
  cancelled w = false ->
  transport env (clock w) (requestOf config (modelOf config role1) messages1)
  = Responded (RequestUrlResponse.mk 200
                 (Parsed (OpenRouterResponse.mk (Some [content1]) None))) ->
  transport env (S (clock w)) (requestOf config (modelOf config role2) messages2)
  = Responded (RequestUrlResponse.mk 200
                 (Parsed (OpenRouterResponse.mk (Some [content2]) None))) ->
  isEmpty content1 = false ->
  isEmpty content2 = false ->
  exists w',
    promiseAll env config (role1, messages1) (role2, messages2) w
    = (Returned (content1, content2), w')
    /\ callCount w' = S (S (callCount w))
    /\ clock w' = S (S (clock w))
    /\ cancelled w'
       = cancelled w || cancelDuring env (clock w) || cancelDuring env (S (clock w))
    /\ trace w'
       = (trace w
          ++ [EvRequest (clock w) role1 (requestOf config (modelOf config role1) messages1);
              EvRequest (S (clock w)) role2
                (requestOf config (modelOf config role2) messages2)])%list
    /\ inFlight w' = inFlight w.
Proof.
  intros C T1 T2 E1 E2. rewrite promiseAll_unfold by exact C. cbv zeta.
  destruct (endsBefore env (clock w) (S (clock w))) eqn:F.
  - rewrite awaitBoth_left by (trivial; exact F).
    rewrite (chatResume_reply _ _ _ _ _ _ T1 E1). cbn [fst snd].
    rewrite awaitBoth_right by (cbn; trivial).
    rewrite (chatResume_reply _ _ _ _ _ _ T2 E2). cbn [fst snd].
    rewrite (awaitBoth_settled _ _ _ _ (Returned (content1, content2))) by reflexivity.
    eexists. split; [reflexivity|].
    cbn [leaveRunning incrementCallCount snd wake begin callCount clock cancelled trace
           inFlight].
    rewrite C, <- app_assoc. repeat split.
  - rewrite awaitBoth_right by (trivial; exact F).
    rewrite (chatResume_reply _ _ _ _ _ _ T2 E2). cbn [fst snd].
    rewrite awaitBoth_left by (cbn; trivial).
    rewrite (chatResume_reply _ _ _ _ _ _ T1 E1). cbn [fst snd].
    rewrite (awaitBoth_settled _ _ _ _ (Returned (content1, content2))) by reflexivity.
    eexists. split; [reflexivity|].
    cbn [leaveRunning incrementCallCount snd wake begin callCount clock cancelled trace
           inFlight].
    rewrite C, <- app_assoc. repeat split.
    destruct (cancelDuring env (clock w)), (cancelDuring env (S (clock w)));
      reflexivity.
Qed.

(** Both initial requests are answered with an error that is not
    retried: [Promise.all] is rejected with the error of the answer that
    is read first, and the other call stays in flight. *)
Lemma promiseAll_http_errors role1 messages1 role2 messages2 w response1 response2 :
  cancelled w = false ->
  transport env (clock w) (requestOf config (modelOf config role1) messages1)
  = Responded response1 ->
  transport env (S (clock w)) (requestOf config (modelOf config role2) messages2)
  = Responded response2 ->
  RequestUrlResponse.status response1 <> 200 ->
  retryableStatus (RequestUrlResponse.status response1) = false ->
  RequestUrlResponse.status response2 <> 200 ->
  retryableStatus (RequestUrlResponse.status response2) = false ->
  exists response w',
    promiseAll env config (role1, messages1) (role2, messages2) w
    = (Thrown (handleHttpError response), w')
    /\ (response = response1 \/ response = response2)
    /\ callCount w' = callCount w
    /\ trace w'
       = (trace w
          ++ [EvRequest (clock w) role1 (requestOf config (modelOf config role1) messages1);
              EvRequest (S (clock w)) role2
                (requestOf config (modelOf config role2) messages2)])%list
    /\ List.length (inFlight w') = S (List.length (inFlight w)).
Proof.
  intros C T1 T2 N1 R1 N2 R2. rewrite promiseAll_unfold by exact C. cbv zeta.
  destruct (endsBefore env (clock w) (S (clock w))) eqn:F.
  - rewrite awaitBoth_left by (trivial; exact F).
    rewrite (chatResume_http_error _ _ _ _ _ _ T1 N1 R1). cbn [fst snd].
    rewrite (awaitBoth_settled _ _ _ _ (Thrown (handleHttpError response1)))
      by reflexivity.
    exists response1. eexists. split; [reflexivity|]. split; [now left|].
    cbn [leaveRunning wake begin callCount trace inFlight].
    rewrite <- app_assoc, length_app.
    repeat split. cbn. lia.
  - rewrite awaitBoth_right by (trivial; exact F).
    rewrite (chatResume_http_error _ _ _ _ _ _ T2 N2 R2). cbn [fst snd].
    rewrite (awaitBoth_settled _ _ _ _ (Thrown (handleHttpError response2)))
      by reflexivity.
    exists response2. eexists. split; [reflexivity|]. split; [now right|].
    cbn [leaveRunning wake begin callCount trace inFlight].
    rewrite <- app_assoc, length_app.
    repeat split. cbn. lia.
Qed.

Lemma chatResume_appends (p : PendingChat) (w : World) :
  pendingAttempt p < API.MAX_RETRIES ->
  exists more, trace (snd (chatResume env config p w)) = (trace w ++ more)%list.
Proof.
  intros A.
  destruct (chatResume_cases env config p w A)
    as [(_ & c & _ & ->)
       |(_ & [(e & ->)|[(p' & d & -> & _)|(p' & -> & _)]])];
    cbn [snd incrementCallCount begin wake trace].
  - exists []. now rewrite app_nil_r.
  - exists []. now rewrite app_nil_r.
  - now eexists.
  - now eexists.
Qed.

(** Unless the token is set, [Promise.all] starts with the request of
    its first call. *)
Lemma promiseAll_opens role1 messages1 role2 messages2 w :
  cancelled w = false ->
  exists rest,
    trace (snd (promiseAll env config (role1, messages1) (role2, messages2) w))
    = (trace w ++ [] ++
         EvRequest (clock w) role1 (requestOf config (modelOf config role1) messages1)
         :: rest)%list.
Proof.
  intros C. rewrite promiseAll_unfold by exact C. cbv zeta.
  set (first := EvRequest (clock w) role1 _).
  set (s1 := Suspended _). set (s2 := Suspended _). set (w2 := begin _ _).
  destruct (awaitBoth_rule env config
              (fun _ _ w' => exists more, trace w' = (trace w ++ first :: more)%list))
    with (fuel := 12) (s1 := s1) (s2 := s2) (w := w2)
    as (s1' & s2' & w' & o & -> & _ & _ & _ & _ & more & T).
  - intros p1 s w0 A _ _ [more T].
    destruct (chatResume_appends p1 w0 A) as [more' ->].
    rewrite T, <- app_assoc. now eexists.
  - intros s p2 w0 _ A _ [more T].
    destruct (chatResume_appends p2 w0 A) as [more' ->].
    rewrite T, <- app_assoc. now eexists.
  - subst s1 s2. cbn [stepsLeft pendingOn pendingAttempt]. unfold API.MAX_RETRIES. lia.
  - subst s1. cbn. unfold API.MAX_RETRIES. lia.
  - subst s2. cbn. unfold API.MAX_RETRIES. lia.
  - subst w2. cbn [begin trace]. rewrite <- app_assoc. now eexists.
  - cbn [snd]. destruct (leaveRunning_world s2' w') as (_ & _ & _ & L2 & _).
    destruct (leaveRunning_world s1' (leaveRunning s2' w')) as (_ & _ & _ & L1 & _).
    rewrite L1, L2, T. now exists more.
Qed.

End Racing.

(* ====================================================================== *)
(** * Every computation of the dialogue ends and keeps the count *)
(* ====================================================================== *)

Section Soundness.
Import Observe.

Variable env : Env.

Lemma Sound_ret {A} (a : A) : Sound env (ret a).
Proof.
  apply Sound_intro. intros w o w' [= <- <-].
  split; [discriminate|apply quiet_step].
Qed.

Lemma Sound_throw {A} (e : JsError) : Sound env (@throw A e).
Proof.
  apply Sound_intro. intros w o w' [= <- <-].
  split; [discriminate|apply quiet_step].
Qed.

Lemma Sound_checkCancelled : Sound env checkCancelled.
Proof.
  apply Sound_intro. intros w o w'. unfold checkCancelled.
  destruct (cancelled w); intros [= <- <-]; (split; [discriminate|apply quiet_step]).
Qed.

Lemma Sound_progress (onProgress : bool) (update : ProgressUpdate.t) :
  Sound env (progress onProgress update).
Proof.
  apply Sound_intro. intros w o w'. unfold progress.
  intros [= <- <-]. split; [discriminate|].
  destruct onProgress; [|apply quiet_step].
  exists [EvProgress update]. cbn [record trace callCount inFlight successes].
  split; [reflexivity|lia].
Qed.

Lemma Sound_trans (w w1 w2 : World) (evs1 evs2 : list Event) :
  trace w1 = (trace w ++ evs1)%list ->
  callCount w1 + owed env (inFlight w1)
  = callCount w + owed env (inFlight w) + successes env evs1 ->
  trace w2 = (trace w1 ++ evs2)%list ->
  callCount w2 + owed env (inFlight w2)
  = callCount w1 + owed env (inFlight w1) + successes env evs2 ->
  exists evs, trace w2 = (trace w ++ evs)%list
              /\ callCount w2 + owed env (inFlight w2)
                 = callCount w + owed env (inFlight w) + successes env evs.
Proof.
  intros T1 C1 T2 C2. exists (evs1 ++ evs2)%list.
  rewrite T2, T1, successes_app, app_assoc. split; [reflexivity|lia].
Qed.

Lemma Sound_bind {A B} (m : M A) (k : A -> M B) :
  Sound env m -> (forall a, Sound env (k a)) -> Sound env (bind m k).
Proof.
  intros Hm Hk. apply Sound_intro. intros w o w' E. unfold bind in E.
  destruct (m w) as [[a|e|] w1] eqn:Em;
    destruct (Sound_elim env _ _ _ _ Hm Em) as (T1 & evs1 & Tr1 & C1).
  - destruct (Sound_elim env _ _ _ _ (Hk a) E) as (T2 & evs2 & Tr2 & C2).
    split; [exact T2|]. eapply Sound_trans; eassumption.
  - injection E as <- <-. split; [discriminate|eauto].
  - congruence.
Qed.

Lemma Sound_promiseAll config call1 call2 :
  Sound env (OpenRouterClient.promiseAll env config call1 call2).
Proof.
  intros w.
  destruct (promiseAll_spec env config call1 call2 w)
    as (N & _ & _ & _ & evs & T & _ & _ & C).
  split; [exact N|]. exists evs. split; [exact T|exact C].
Qed.

End Soundness.

Ltac sound_step :=
  match goal with
  | |- Observe.Sound _ (bind _ _) => apply Sound_bind; [|intros ?]
  | |- Observe.Sound _ (ret _) => apply Sound_ret
  | |- Observe.Sound _ (throw _) => apply Sound_throw
  | |- Observe.Sound _ (progress _ _) => apply Sound_progress
  | |- Observe.Sound _ checkCancelled => apply Sound_checkCancelled
  | |- Observe.Sound _ (OpenRouterClient.chat _ _ _ _) => apply chat_sound
  | |- Observe.Sound _ (OpenRouterClient.promiseAll _ _ _ _) => apply Sound_promiseAll
  | |- Observe.Sound _ (if ?c then _ else _) => destruct c eqn:?
  end.

Section PhasesSound.
Import Observe.

Variable env : Env.
Variable config : OpenRouterClient.OpenRouterConfig.
Variable maxRounds : nat.
Variable article : ExtractedArticle.t.
Variable onProgress : bool.

Lemma alignmentLoop_sound fuel round prompt gpt claude :
  maxRounds - round <= fuel ->
  Sound env (InterpretationPhase.alignmentLoop env config maxRounds article onProgress
               fuel round prompt gpt claude).
Proof.
  revert round gpt claude.
  induction fuel as [|fuel IH]; intros round gpt claude F;
    cbn [InterpretationPhase.alignmentLoop];
    destruct (Nat.ltb_spec round maxRounds); try lia; try apply Sound_ret.
  repeat sound_step.
  - apply leb_complete_conv in Heqb0. apply IH. lia.
Qed.

Lemma interpretation_run_sound :
  Sound env (InterpretationPhase.run env config maxRounds article onProgress).
Proof.
  unfold InterpretationPhase.run. cbv zeta. repeat sound_step.
  apply alignmentLoop_sound. lia.
Qed.

Lemma refinementLoop_sound fuel round draftPrompt currentDraft notes transcript :
  maxRounds - round <= fuel ->
  Sound env (RefinementLoop.refinementLoop env config maxRounds article onProgress
               fuel round draftPrompt currentDraft notes transcript).
Proof.
  revert round currentDraft notes transcript.
  induction fuel as [|fuel IH]; intros round currentDraft notes transcript F;
    cbn [RefinementLoop.refinementLoop];
    destruct (Nat.ltb_spec round maxRounds); try lia; try apply Sound_ret.
  repeat sound_step.
  - apply IH. lia.
Qed.

Lemma refinement_run_sound interpretation :
  Sound env (RefinementLoop.run env config maxRounds article onProgress interpretation).
Proof.
  unfold RefinementLoop.run. cbv zeta. repeat sound_step.
  apply refinementLoop_sound. lia.
Qed.

End PhasesSound.

(* ====================================================================== *)
(** * The orchestrator *)
(* ====================================================================== *)

Section Orchestrator.
Import Observe.
Import DialogueOrchestrator.

Variable env : Env.
Variable settings : DistillSettings.t.

Lemma progress_run onProgress update w :
  progress onProgress update w
  = (Returned tt, if onProgress then record (EvProgress update) w else w).
Proof. reflexivity. Qed.

(** A progress report touches the trace only, and adds no request. *)
Lemma progress_world onProgress update w :
  let w' := snd (progress onProgress update w) in
  cancelled w' = cancelled w /\ clock w' = clock w /\ callCount w' = callCount w
  /\ exists evs, trace w' = (trace w ++ evs)%list
                 /\ countRequests evs = 0 /\ requestRoles evs = []
                 /\ successes env evs = 0.
Proof.
  cbn. destruct onProgress; cbn; repeat split; trivial.
  - exists [EvProgress update]. repeat split.
  - exists []. rewrite app_nil_r. repeat split.
Qed.

(** The [try] block ends; it counts its successful requests, but for
    those of the calls it leaves in flight; when it throws, the session
    state holds no draft yet. *)
Lemma tryBlock_spec article onProgress w o state w' :
  tryBlock env settings article onProgress w = (o, state, w') ->
  o <> OutOfFuel
  /\ (exists evs, trace w' = (trace w ++ evs)%list
                  /\ callCount w' + owed env (inFlight w')
                     = callCount w + owed env (inFlight w) + successes env evs)
  /\ (forall e, o = Thrown e -> DialogueState.currentDraft state = None)
  /\ (forall result, o = Returned result ->
        DialogueResult.totalApiCalls result = callCount w'
        /\ DialogueState.phase (DialogueResult.state result) = DialoguePhase.complete).
Proof.
  unfold tryBlock. cbv zeta.
  set (u0 := ProgressUpdate.mk DialoguePhase.interpreting (Some 1) (Some 3)
               "Starting interpretation phase...").
  destruct (Sound_elim env _ w (Returned tt) (snd (progress onProgress u0 w))
              (Sound_progress env onProgress u0) eq_refl) as (_ & evs0 & T0 & C0).
  destruct (InterpretationPhase.run _ _ _ _ _ (snd (progress onProgress u0 w)))
    as [[ir|e|] w1] eqn:E1;
    destruct (Sound_elim env _ _ _ _
                (interpretation_run_sound env _ _ _ _) E1) as (N1 & evs1 & T1 & C1);
    [| |congruence].
  2:{ intros [= <- <- <-]. split; [discriminate|].
      split; [eapply Sound_trans; eassumption|].
      split; [reflexivity|discriminate]. }
  destruct (cancelled w1).
  { intros [= <- <- <-]. split; [discriminate|].
    split; [eapply Sound_trans; eassumption|].
    split; [reflexivity|discriminate]. }
  set (u1 := ProgressUpdate.mk DialoguePhase.drafting None None
               "Starting drafting phase...").
  destruct (Sound_elim env _ w1 (Returned tt) (snd (progress onProgress u1 w1))
              (Sound_progress env onProgress u1) eq_refl) as (_ & evs2 & T2 & C2).
  destruct (RefinementLoop.run _ _ _ _ _ _ (snd (progress onProgress u1 w1)))
    as [[rr|e|] w3] eqn:E3;
    destruct (Sound_elim env _ _ _ _
                (refinement_run_sound env _ _ _ _ _) E3) as (N3 & evs3 & T3 & C3);
    [| |congruence].
  - intros [= <- <- <-]. split; [discriminate|].
    split.
    + destruct (Sound_trans env _ _ _ _ _ T0 C0 T1 C1) as (e01 & T01 & C01).
      destruct (Sound_trans env _ _ _ _ _ T2 C2 T3 C3) as (e23 & T23 & C23).
      eapply Sound_trans; eassumption.
    + split; [discriminate|]. intros result [= <-]. split; reflexivity.
  - intros [= <- <- <-]. split; [discriminate|].
    split.
    + destruct (Sound_trans env _ _ _ _ _ T0 C0 T1 C1) as (e01 & T01 & C01).
      destruct (Sound_trans env _ _ _ _ _ T2 C2 T3 C3) as (e23 & T23 & C23).
      eapply Sound_trans; eassumption.
    + split; [reflexivity|discriminate].
Qed.

(** [process] always returns a result, whose call total is the counter
    of the client at that moment. *)
Lemma process_returns article onProgress w :
  exists result w',
    process env settings article onProgress w = (Returned result, w')
    /\ DialogueResult.totalApiCalls result = callCount w'
    /\ exists evs, trace w' = (trace w ++ evs)%list
                   /\ callCount w' + owed env (inFlight w')
                      = callCount w + owed env (inFlight w) + successes env evs.
Proof.
  unfold process.
  destruct (tryBlock env settings article onProgress w) as [[o state] w'] eqn:E.
  destruct (tryBlock_spec _ _ _ _ _ _ E) as (N & A & _ & R).
  destruct o as [result|e|]; [| |congruence].
  - exists result, w'. split; [reflexivity|]. split; [apply (R result eq_refl)|exact A].
  - eexists. exists w'. split; [reflexivity|]. split; [reflexivity|exact A].
Qed.

(** When the [try] block throws, the session has no draft: the notes
    returned by the [catch] block are the empty list. *)
Lemma process_error_notes_empty article onProgress w e state w' :
  tryBlock env settings article onProgress w = (Thrown e, state, w') ->
  DialogueResult.atomicNotes (catchBlock article e state w') = [].
Proof.
  intros E. destruct (tryBlock_spec _ _ _ _ _ _ E) as (_ & _ & D & _).
  unfold catchBlock. cbn. now rewrite (D e eq_refl).
Qed.

(** C10, amended.  Two sessions in a row on one orchestrator, without
    [reset]: both return.  When no call of the first session is still
    in flight at its end, the call total of the second result is the
    total of the first plus the successful requests of the second
    session whose answers have been read when it ends: all of them,
    unless the second session leaves a call in flight itself.  [reset]
    puts the counter back to zero. *)
Theorem call_count_accumulates article1 article2 onProgress1 onProgress2 w0 :
  exists result1 w1 result2 w2 evs,
    process env settings article1 onProgress1 w0 = (Returned result1, w1)
    /\ process env settings article2 onProgress2 w1 = (Returned result2, w2)
    /\ trace w2 = (trace w1 ++ evs)%list
    /\ (inFlight w1 = [] ->
        DialogueResult.totalApiCalls result2 + owed env (inFlight w2)
        = DialogueResult.totalApiCalls result1 + successes env evs)
    /\ (inFlight w1 = [] -> inFlight w2 = [] ->
        DialogueResult.totalApiCalls result2
        = DialogueResult.totalApiCalls result1 + successes env evs)
    /\ callCount (snd (reset w2)) = 0
    /\ trace (snd (reset w2)) = trace w2.
Proof.
  destruct (process_returns article1 onProgress1 w0) as (r1 & w1 & E1 & T1 & _).
  destruct (process_returns article2 onProgress2 w1) as (r2 & w2 & E2 & T2 & evs & Tr & Cc).
  exists r1, w1, r2, w2, evs.
  rewrite T1, T2. split; [exact E1|]. split; [exact E2|]. split; [exact Tr|].
  split; [|split; [|split; reflexivity]].
  - intros F1. rewrite F1 in Cc. cbn in Cc. lia.
  - intros F1 F2. rewrite F1, F2 in Cc. cbn in Cc. lia.
Qed.

End Orchestrator.

Section Cancellation.
Import Observe.
Import DialogueOrchestrator.

Variable env : Env.
Variable settings : DistillSettings.t.
Variable article : ExtractedArticle.t.
Variable onProgress : bool.

Lemma countRequests_progress update w :
  countRequests (trace (snd (progress onProgress update w))) = countRequests (trace w).
Proof.
  unfold progress. cbn [snd]. destruct onProgress; [|reflexivity].
  unfold record. cbn [trace]. rewrite countRequests_app.
  change (countRequests [EvProgress update]) with 0. lia.
Qed.

(** A cancelled token stops the interpretation phase at its first
    check, before the two initial requests. *)
Lemma interpretation_run_cancelled config maxRounds w :
  cancelled w = true ->
  exists w',
    InterpretationPhase.run env config maxRounds article onProgress w
    = (Thrown (Error "Cancelled"), w')
    /\ countRequests (trace w') = countRequests (trace w)
    /\ clock w' = clock w /\ callCount w' = callCount w /\ cancelled w' = true.
Proof.
  intros C.
  set (u := ProgressUpdate.mk DialoguePhase.interpreting (Some 1) (Some maxRounds)
              "Getting initial interpretations...").
  destruct (progress_world env onProgress u w) as (C0 & K0 & Cc0 & _).
  cbv zeta in C0, K0, Cc0.
  exists (snd (progress onProgress u w)). split.
  - unfold InterpretationPhase.run. cbv zeta. fold u.
    unfold bind at 1.
    change (progress onProgress u w) with (Returned tt, snd (progress onProgress u w)).
    cbv iota beta. unfold bind at 1. unfold checkCancelled.
    now rewrite C0, C.
  - split; [apply countRequests_progress|]. repeat split; congruence.
Qed.

(** A cancelled token stops the refinement loop before the draft
    request. *)
Lemma refinement_run_cancelled config maxRounds interpretation w :
  cancelled w = true ->
  exists w',
    RefinementLoop.run env config maxRounds article onProgress interpretation w
    = (Thrown (Error "Cancelled"), w')
    /\ countRequests (trace w') = countRequests (trace w).
Proof.
  intros C.
  set (u := ProgressUpdate.mk DialoguePhase.drafting None None
              "Drafting atomic notes...").
  destruct (progress_world env onProgress u w) as (C0 & _).
  cbv zeta in C0.
  exists (snd (progress onProgress u w)). split.
  - unfold RefinementLoop.run. fold u.
    unfold bind at 1.
    change (progress onProgress u w) with (Returned tt, snd (progress onProgress u w)).
    cbv iota beta. unfold bind at 1. unfold checkCancelled.
    now rewrite C0, C.
  - apply countRequests_progress.
Qed.

(** C8.  With the token set before [process] is called, the session
    makes no request: [process] returns the error result for
    "Cancelled" with the trace free of new requests, the clock where it
    was and the counter untouched.  Each layer checks the token before
    its first request: [chat], the interpretation phase and the
    refinement loop all throw "Cancelled" without a request. *)
Theorem cancelled_before_process_makes_no_request w :
  cancelled w = true ->
  (exists result w',
      process env settings article onProgress w = (Returned result, w')
      /\ DialogueState.phase (DialogueResult.state result) = DialoguePhase.error
      /\ DialogueState.error (DialogueResult.state result) = Some "Cancelled"
      /\ DialogueResult.atomicNotes result = []
      /\ DialogueResult.totalApiCalls result = callCount w
      /\ countRequests (trace w') = countRequests (trace w)
      /\ clock w' = clock w)
  /\ (forall role messages,
        OpenRouterClient.chat env (clientConfig settings) role messages w
        = (Thrown (Error "Cancelled"), w))
  /\ (forall maxRounds, exists w',
        InterpretationPhase.run env (clientConfig settings) maxRounds article onProgress w
        = (Thrown (Error "Cancelled"), w')
        /\ countRequests (trace w') = countRequests (trace w))
  /\ (forall maxRounds interpretation, exists w',
        RefinementLoop.run env (clientConfig settings) maxRounds article onProgress
          interpretation w
        = (Thrown (Error "Cancelled"), w')
        /\ countRequests (trace w') = countRequests (trace w)).
Proof.
  intros C. split; [|split; [|split]].
  - set (u0 := ProgressUpdate.mk DialoguePhase.interpreting (Some 1) (Some 3)
                 "Starting interpretation phase...").
    destruct (progress_world env onProgress u0 w) as (C0 & K0 & Cc0 & _).
    cbv zeta in C0, K0, Cc0.
    destruct (interpretation_run_cancelled (clientConfig settings)
                (DistillSettings.maxInterpretationRounds settings)
                (snd (progress onProgress u0 w)))
      as (w' & E & R & K & Cc & _); [congruence|].
    unfold process, tryBlock. cbv zeta. fold u0. rewrite E.
    eexists. exists w'. split; [reflexivity|]. cbn.
    repeat split; try congruence.
    rewrite R. apply countRequests_progress.
  - intros role messages. now apply chat_cancelled.
  - intros maxRounds.
    destruct (interpretation_run_cancelled (clientConfig settings) maxRounds w C)
      as (w' & E & R & _).
    now exists w'.
  - intros maxRounds interpretation.
    exact (refinement_run_cancelled (clientConfig settings) maxRounds interpretation w C).
Qed.

End Cancellation.

Section OrchestratorWitnesses.
Import Fixtures.
Import Observe.
Import DialogueOrchestrator.

(** C5.  The partial draft is lost.  [process] never throws, and a
    failure ends in a result with phase [error] and the message of the
    failure in [state.error]; but the notes of that result are always
    the empty list, also when a draft existed when the failure
    happened.  Here the refinement loop has received the draft of the
    drafter, which holds one note, when the request to the critic is
    answered with status 401: the result has no note.  The session
    state gets its draft only when the refinement loop returns, so the
    [catch] block never finds one. *)
Theorem process_loses_the_draft_on_failure :
  let env := scripted [ok "G"; ok "C"; ok "I see it differently."; ok modelOutput;
                       httpError 401] RequestFailed in
  (exists result w' draftRequest,
      process env (settings 2 3) article true freshWorld = (Returned result, w')
      /\ In (EvRequest 3 drafter draftRequest) (trace w')
      /\ transport env 3 draftRequest = ok modelOutput
      /\ AtomicNoteParser.parse modelOutput = [theNote]
      /\ DialogueState.phase (DialogueResult.state result) = DialoguePhase.error
      /\ DialogueState.error (DialogueResult.state result)
         = Some "Invalid API key. Please check your OpenRouter API key in settings."
      /\ DialogueState.currentDraft (DialogueResult.state result) = None
      /\ DialogueResult.atomicNotes result = [])
  /\ (forall env settings article onProgress w,
        match tryBlock env settings article onProgress w with
        | (Thrown e, state, w') =>
            DialogueState.currentDraft state = None
            /\ process env settings article onProgress w
               = (Returned (catchBlock article e state w'), w')
            /\ DialogueState.error (DialogueResult.state (catchBlock article e state w'))
               = Some (errorMessage e)
            /\ DialogueResult.atomicNotes (catchBlock article e state w') = []
        | (Returned result, _, w') =>
            process env settings article onProgress w = (Returned result, w')
        | (OutOfFuel, _, _) => False
        end).
Proof.
  intros env. split.
  - destruct (process env (settings 2 3) article true freshWorld) as [o w'] eqn:E.
    assert (Eo : fst (process env (settings 2 3) article true freshWorld) = o)
      by now rewrite E.
    assert (Ew : trace (snd (process env (settings 2 3) article true freshWorld))
                 = trace w') by now rewrite E.
    vm_compute in Eo. subst o.
    eexists. exists w'. eexists.
    split; [reflexivity|].
    split; [rewrite <- Ew; vm_compute; repeat (first [left; reflexivity|right])|].
    split; [reflexivity|].
    split; [vm_compute; reflexivity|].
    repeat split.
  - intros env' settings' article' onProgress' w.
    destruct (tryBlock env' settings' article' onProgress' w) as [[o state] w'] eqn:E.
    destruct (tryBlock_spec _ _ _ _ _ _ _ _ E) as (N & _ & D & _).
    unfold process. rewrite E.
    destruct o as [result|e|]; [reflexivity| |congruence].
    split; [exact (D e eq_refl)|]. split; [reflexivity|]. split; [reflexivity|].
    unfold catchBlock. cbn. now rewrite (D e eq_refl).
Qed.

(** C10 as stated fails.  The drafter's first request is answered with
    status 401 before the answer of the critic is read: the first
    session ends with a total of 0 and the call of the critic in
    flight.  Its answer is read and counted afterwards.  The second
    session makes five successful requests and ends with a total of 6,
    not 0 + 5. *)
Lemma call_count_late_success_counterexample :
  let env := scripted [httpError 401] (ok "APPROVED") in
  let config := DialogueOrchestrator.clientConfig (settings 2 3) in
  exists result1 w1 result2 w2 evs,
    process env (settings 2 3) article true freshWorld = (Returned result1, w1)
    /\ process env (settings 2 3) article true
         (OpenRouterClient.settleInFlight env config w1)
       = (Returned result2, w2)
    /\ trace w2 = (trace w1 ++ evs)%list
    /\ DialogueState.phase (DialogueResult.state result2) = DialoguePhase.complete
    /\ DialogueResult.totalApiCalls result1 = 0
    /\ successes env evs = 5
    /\ DialogueResult.totalApiCalls result2 = 6
    /\ DialogueResult.totalApiCalls result2
       <> DialogueResult.totalApiCalls result1 + successes env evs.
Proof.
  intros env config.
  destruct (process env (settings 2 3) article true freshWorld) as [o1 w1] eqn:E1.
  assert (Eo1 : o1 = fst (process env (settings 2 3) article true freshWorld))
    by now rewrite E1.
  assert (Ew1 : w1 = snd (process env (settings 2 3) article true freshWorld))
    by now rewrite E1.
  vm_compute in Eo1. vm_compute in Ew1.
  destruct (process env (settings 2 3) article true
              (OpenRouterClient.settleInFlight env config w1)) as [o2 w2] eqn:E2.
  assert (Eo2 : o2 = fst (process env (settings 2 3) article true
                            (OpenRouterClient.settleInFlight env config w1)))
    by now rewrite E2.
  assert (Ew2 : w2 = snd (process env (settings 2 3) article true
                            (OpenRouterClient.settleInFlight env config w1)))
    by now rewrite E2.
  rewrite Ew1 in Eo2, Ew2. vm_compute in Eo2. vm_compute in Ew2.
  eexists. exists w1. eexists. exists w2, (skipn (List.length (trace w1)) (trace w2)).
  split; [rewrite Eo1; reflexivity|]. split; [rewrite E2, Eo2; reflexivity|].
  rewrite Ew1, Ew2. vm_compute. repeat split. discriminate.
Qed.

(** The amended C10 on two sessions that end with no call in flight:
    the second total is the first one plus the five successful requests
    of the second session. *)
Lemma call_count_accumulates_witness :
  let env := scripted [] (ok "APPROVED") in
  exists result1 w1 result2 w2 evs,
    process env (settings 2 3) article true freshWorld = (Returned result1, w1)
    /\ process env (settings 2 3) article true w1 = (Returned result2, w2)
    /\ trace w2 = (trace w1 ++ evs)%list
    /\ inFlight w1 = [] /\ inFlight w2 = []
    /\ DialogueResult.totalApiCalls result2
       = DialogueResult.totalApiCalls result1 + successes env evs.
Proof.
  intros env.
  destruct (call_count_accumulates env (settings 2 3) article article true true
              freshWorld)
    as (r1 & w1 & r2 & w2 & evs & E1 & E2 & T & _ & C & _).
  assert (F1 : inFlight w1 = []).
  { apply (f_equal (fun r => inFlight (snd r))) in E1. cbn [snd] in E1.
    rewrite <- E1. vm_compute. reflexivity. }
  assert (F2 : inFlight w2 = []).
  { apply (f_equal (fun r => inFlight (snd r))) in E2. cbn [snd] in E2.
    rewrite <- E2.
    apply (f_equal snd) in E1. cbn [snd] in E1. rewrite <- E1.
    vm_compute. reflexivity. }
  exists r1, w1, r2, w2, evs.
  split; [exact E1|]. split; [exact E2|]. split; [exact T|].
  split; [exact F1|]. split; [exact F2|]. exact (C F1 F2).
Defined.

(** C8 on a world whose token is already set. *)
Lemma cancelled_before_process_makes_no_request_witness :
  exists result w',
    process (scripted [] (ok "never asked")) (settings 3 3) article true cancelledWorld
    = (Returned result, w')
    /\ DialogueState.error (DialogueResult.state result) = Some "Cancelled"
    /\ countRequests (trace w') = 0.
Proof.
  destruct (cancelled_before_process_makes_no_request
              (scripted [] (ok "never asked")) (settings 3 3) article true
              cancelledWorld eq_refl)
    as ((result & w' & P & _ & Er & _ & _ & R & _) & _).
  exists result, w'. repeat split; assumption.
Defined.

End OrchestratorWitnesses.

(* ====================================================================== *)
(** * Runs in which every request is answered and nobody cancels *)
(* ====================================================================== *)

Section AnsweredRuns.
Import Observe.

Variable env : Env.
Variable config : OpenRouterClient.OpenRouterConfig.
Variable article : ExtractedArticle.t.
Variable onProgress : bool.
Variable f : nat -> string.

Hypothesis never : NeverCancels env.
Hypothesis replies : AlwaysReplies env f.


Lemma Advanced_trans w w1 w2 roles1 roles2 :
  Advanced w w1 roles1 -> Advanced w1 w2 roles2 ->
  Advanced w w2 (roles1 ++ roles2).
Proof.
  intros (C1 & K1 & Cc1 & evs1 & T1 & R1) (C2 & K2 & Cc2 & evs2 & T2 & R2).
  unfold Advanced. rewrite length_app.
  split; [exact C2|]. split; [lia|]. split; [lia|].
  exists (evs1 ++ evs2)%list. rewrite T2, T1, app_assoc, requestRoles_app, R1, R2.
  split; reflexivity.
Qed.

Lemma Advanced_progress update w :
  cancelled w = false -> Advanced w (snd (progress onProgress update w)) [].
Proof.
  intros C.
  destruct (progress_world env onProgress update w)
    as (C0 & K0 & Cc0 & evs & T & _ & R & _).
  cbv zeta in *. unfold Advanced. cbn [List.length].
  split; [congruence|]. split; [lia|]. split; [lia|].
  exists evs. now split.
Qed.

Lemma Advanced_cancelled w w' roles : Advanced w w' roles -> cancelled w' = false.
Proof. now intros (C & _). Qed.

Lemma Advanced_clock w w' roles :
  Advanced w w' roles -> clock w' = clock w + List.length roles.
Proof. now intros (_ & K & _). Qed.

(** [chat] is answered with [f] at the current tick. *)
Lemma chat_answered role messages w :
  cancelled w = false ->
  exists w',
    OpenRouterClient.chat env config role messages w = (Returned (f (clock w)), w')
    /\ Advanced w w' [role].
Proof.
  intros C. destruct (replies (clock w) (requestOf config (modelOf config role) messages))
    as [T E].
  eexists. split; [apply chat_reply; auto|].
  unfold Advanced. cbn [cancelled clock callCount trace List.length].
  split; [reflexivity|]. split; [lia|]. split; [lia|].
  eexists. split; reflexivity.
Qed.

Lemma bind_progress {B} update (k : unit -> M B) w :
  bind (progress onProgress update) k w = k tt (snd (progress onProgress update w)).
Proof. reflexivity. Qed.

Lemma bind_checkCancelled {B} (k : unit -> M B) w :
  cancelled w = false -> bind checkCancelled k w = k tt w.
Proof. intros C. unfold bind, checkCancelled. now rewrite C. Qed.

Lemma bind_returned {A B} (m : M A) (k : A -> M B) w a w' :
  m w = (Returned a, w') -> bind m k w = k a w'.
Proof. intros E. unfold bind. now rewrite E. Qed.

(** [Promise.all] over two calls is answered with [f] at the current
    tick and at the next one. *)
Lemma promiseAll_answered role1 messages1 role2 messages2 w :
  cancelled w = false ->
  exists w',
    OpenRouterClient.promiseAll env config (role1, messages1) (role2, messages2) w
    = (Returned (f (clock w), f (clock w + 1)), w')
    /\ Advanced w w' [role1; role2].
Proof.
  intros C.
  destruct (replies (clock w) (requestOf config (modelOf config role1) messages1))
    as [T1 E1].
  destruct (replies (S (clock w)) (requestOf config (modelOf config role2) messages2))
    as [T2 E2].
  destruct (promiseAll_replies env config role1 messages1 role2 messages2 w _ _
              C T1 T2 E1 E2) as (w' & E & Cc & K & Cf & T & _).
  exists w'. replace (clock w + 1) with (S (clock w)) by lia.
  split; [exact E|]. unfold Advanced. cbn [List.length].
  split; [rewrite Cf, C, !never; reflexivity|]. split; [lia|]. split; [lia|].
  eexists. split; [exact T|reflexivity].
Qed.

(** Stepping through the dialogue: a report, a check of the token, a
    call. *)
Ltac step_progress C A :=
  rewrite bind_progress; cbv beta;
  match goal with
  | |- context [snd (progress onProgress ?u ?w0)] =>
      pose proof (Advanced_progress u w0 C) as A
  end.

Ltac step_check A :=
  rewrite bind_checkCancelled by exact (Advanced_cancelled _ _ _ A); cbv beta.

Ltac step_chat A0 w' A :=
  match goal with
  | |- context [bind (OpenRouterClient.chat env config ?r ?m) _ ?w0] =>
      let E := fresh "E" in
      destruct (chat_answered r m w0 (Advanced_cancelled _ _ _ A0)) as (w' & E & A);
      rewrite (bind_returned _ _ _ _ _ E); cbv beta; clear E
  end.

Section Interpretation.
Variable maxRounds : nat.
Hypothesis disagree : forall k, InterpretationPhase.isAligned (f k) = false.



End Interpretation.

Section Refinement.
Variable maxRounds : nat.
Hypothesis rejects :
  forall k, RefinementLoop.parseCritiqueStatus (f k) = CritiqueStatus.needs_work.



End Refinement.

Section Scenario.

(** An alignment signal in the second round ends the phase there. *)
Lemma interpretation_run_aligned_second_round w :
  cancelled w = false ->
  InterpretationPhase.isAligned (f (clock w + 2)) = true ->
  exists w',
    InterpretationPhase.run env config 2 article onProgress w
    = (Returned
         (InterpretationPhase.mkResult true
            (InterpretationPhase.extractAlignedSummary (f (clock w + 2)) (f (clock w)))
            (f (clock w)) (f (clock w + 1)) 2),
       w')
    /\ Advanced w w' [drafter; critic; critic].
Proof.
  intros C Al. unfold InterpretationPhase.run. cbv zeta.
  step_progress C A0. step_check A0.
  match goal with
  | |- context [OpenRouterClient.promiseAll env config (drafter, ?m1) (critic, ?m2)] =>
      destruct (promiseAll_answered drafter m1 critic m2 _
                  (Advanced_cancelled _ _ _ A0)) as (w2 & E2 & A2);
      rewrite (bind_returned _ _ _ _ _ E2)
  end.
  cbv beta. step_check A2. cbn [fst snd].
  pose proof (Advanced_clock _ _ _ A0) as K0.
  pose proof (Advanced_clock _ _ _ A2) as K2.
  cbn [List.length] in K0, K2.
  cbn [InterpretationPhase.alignmentLoop Nat.ltb Nat.leb].
  step_progress (Advanced_cancelled _ _ _ A2) A3. step_check A3.
  step_chat A3 w4 A4. step_check A4.
  pose proof (Advanced_clock _ _ _ A3) as K3. cbn [List.length] in K3.
  replace (clock (snd (progress onProgress
             (ProgressUpdate.mk DialoguePhase.interpreting (Some (1 + 1)) (Some 2)
                ("Aligning interpretations (round " ++ Js.numberToString (1 + 1)
                 ++ ")...")) w2)))
    with (clock w + 2) by lia.
  rewrite Al.
  replace (clock (snd (progress onProgress
             (ProgressUpdate.mk DialoguePhase.interpreting (Some 1) (Some 2)
                "Getting initial interpretations...") w)))
    with (clock w) by lia.
  exists w4. split; [reflexivity|].
  exact (Advanced_trans _ _ _ _ _ A0
           (Advanced_trans _ _ _ _ _ A2
              (Advanced_trans _ _ _ _ _ A3 A4))).
Qed.

End Scenario.

End AnsweredRuns.

(* ====================================================================== *)
(** * Round budget *)
(* ====================================================================== *)

Section RoundBudget.
Import Observe.


End RoundBudget.

Section RoundBudgetWitness.
Import Fixtures.
Import Observe.


End RoundBudgetWitness.

(* ====================================================================== *)
(** * The scenario: alignment in the second round *)
(* ====================================================================== *)

Section AlignedScenario.
Import Observe.
Import Fixtures.

(** C6 as stated fails.  The critic's second response is exactly
    "ALIGNED. We agree the article argues X.": the phase returns
    [aligned = true] and [rounds = 2], but the text after the keyword
    has 30 characters, not more than 50, so the interpretation returned
    is the drafter's one. *)
Lemma aligned_summary_too_short_counterexample :
  let env := scripted [ok "The article argues X because of Y.";
                       ok "The article is about X.";
                       ok "ALIGNED. We agree the article argues X."]
                      RequestFailed in
  exists result w',
    InterpretationPhase.run env config 2 article true freshWorld = (Returned result, w')
    /\ InterpretationPhase.aligned result = true
    /\ InterpretationPhase.rounds result = 2
    /\ InterpretationPhase.alignedInterpretation result
       = "The article argues X because of Y."
    /\ InterpretationPhase.alignedInterpretation result
       <> "We agree the article argues X.".
Proof.
  intros env.
  destruct (InterpretationPhase.run env config 2 article true freshWorld)
    as [o w'] eqn:E.
  apply (f_equal fst) in E. cbn [fst] in E. vm_compute in E. subst o.
  eexists. exists w'. split; [reflexivity|]. cbn.
  repeat split. discriminate.
Qed.

(** C6, amended.  In the interpretation phase with [maxRounds = 2],
    every request answered and nobody cancelling: when the critic's
    second response starts with "ALIGNED. We agree the article argues
      X.", the phase returns [aligned = true] and [rounds = 2] after three
    requests; [alignedInterpretation] is the whole text after the keyword,
    without leading punctuation and trimmed, when that text is longer
    than 50 characters (20 beyond the sentence), and the drafter's
    interpretation otherwise. *)
Theorem aligned_in_second_round
        env config article onProgress (f : nat -> string) (tail : string) (w : World) :
  NeverCancels env ->
  AlwaysReplies env f ->
  cancelled w = false ->
  f (clock w + 2) = "ALIGNED. We agree the article argues X." ++ tail ->
  exists w',
    InterpretationPhase.run env config 2 article onProgress w
    = (Returned
         (InterpretationPhase.mkResult true
            (if 20 <? String.length (Js.trimEnd tail)
             then "We agree the article argues X." ++ Js.trimEnd tail
             else f (clock w))
            (f (clock w)) (f (clock w + 1)) 2),
       w')
    /\ Advanced w w' [drafter; critic; critic].
Proof.
  intros never replies C R.
  destruct (interpretation_run_aligned_second_round env config article onProgress f
              never replies w C) as (w' & E & A).
  - rewrite R. apply isAligned_scenario.
  - exists w'. split; [|exact A].
    rewrite E, R, extractAlignedSummary_scenario. reflexivity.
Qed.

(** The amended C6 on a script: a long enough summary is returned as
    it is. *)
Lemma aligned_in_second_round_witness :
  let summary :=
    "We agree the article argues X. It also shows why Y follows from X." in
  let env := scripted [ok "G"; ok "C"; ok ("ALIGNED. " ++ summary)] (ok "unused") in
  exists w',
    InterpretationPhase.run env config 2 article true freshWorld
    = (Returned (InterpretationPhase.mkResult true summary "G" "C" 2), w').
Proof.
  intros summary env.
  destruct (aligned_in_second_round env config article true
              (fun k => nth k ["G"; "C"; "ALIGNED. " ++ summary] "unused")
              " It also shows why Y follows from X." freshWorld)
    as (w' & E & _).
  - intros k. reflexivity.
  - intros k request. split.
    + cbn. destruct k as [|[|[|[|k]]]]; reflexivity.
    + destruct k as [|[|[|[|k]]]]; reflexivity.
  - reflexivity.
  - reflexivity.
  - exists w'. exact E.
Defined.

End AlignedScenario.

(* ====================================================================== *)
(** * Requests, calls and the token in arbitrary surroundings *)
(* ====================================================================== *)

Section Reaching.
Import Observe.

Variable env : Env.

Lemma anyCancel_empty (a : nat) : anyCancel env a a = false.
Proof. unfold anyCancel. now rewrite Nat.sub_diag. Qed.

Lemma anyCancel_split (a b c : nat) :
  a <= b -> b <= c ->
  anyCancel env a c = anyCancel env a b || anyCancel env b c.
Proof.
  intros Hab Hbc. unfold anyCancel.
  replace (c - a) with ((b - a) + (c - b)) by lia.
  rewrite seq_app, existsb_app. now replace (a + (b - a)) with b by lia.
Qed.

Lemma anyCancel_step (a : nat) : anyCancel env a (S a) = cancelDuring env a.
Proof.
  unfold anyCancel. replace (S a - a) with 1 by lia. cbn. apply orb_false_r.
Qed.

Lemma requestAllowed_trans (w w1 : World) (ev : Event) :
  clock w <= clock w1 ->
  cancelled w1 = cancelled w || anyCancel env (clock w) (clock w1) ->
  requestAllowed env w1 ev -> requestAllowed env w ev.
Proof.
  intros K C. destruct ev as [u|tick role request|tick d]; cbn; trivial.
  intros (Kt & C1 & A1). rewrite C1 in C. symmetry in C.
  apply orb_false_iff in C as [C0 A0].
  split; [lia|]. split; [exact C0|].
  rewrite (anyCancel_split (clock w) (clock w1) tick) by lia.
  now rewrite A0, A1.
Qed.

Lemma Reaches_refl (w : World) : Reaches env w w 0 0.
Proof.
  unfold Reaches. rewrite anyCancel_empty, orb_false_r.
  split; [lia|]. split; [reflexivity|]. split; [lia|].
  exists []. rewrite app_nil_r. split; [reflexivity|]. split; [cbn; lia|constructor].
Qed.

Lemma Reaches_trans (w w1 w2 : World) (n1 r1 n2 r2 : nat) :
  Reaches env w w1 n1 r1 -> Reaches env w1 w2 n2 r2 ->
  Reaches env w w2 (n1 + n2) (r1 + r2).
Proof.
  intros (K1 & C1 & Cc1 & evs1 & T1 & R1 & F1) (K2 & C2 & Cc2 & evs2 & T2 & R2 & F2).
  unfold Reaches. split; [lia|]. split.
  - rewrite C2, C1, (anyCancel_split (clock w) (clock w1) (clock w2)) by lia.
    now rewrite orb_assoc.
  - split; [lia|]. exists (evs1 ++ evs2)%list.
    rewrite T2, T1, app_assoc, countRequests_app. split; [reflexivity|].
    split; [lia|]. apply Forall_app. split; [exact F1|].
    eapply Forall_impl; [|exact F2]. intros ev. now apply requestAllowed_trans.
Qed.

Lemma Reaches_weaken (w w' : World) (n r n' r' : nat) :
  n <= n' -> r <= r' -> Reaches env w w' n r -> Reaches env w w' n' r'.
Proof.
  intros Hn Hr (K & C & Cc & evs & T & R & F).
  unfold Reaches. split; [exact K|]. split; [exact C|]. split; [lia|].
  exists evs. split; [exact T|]. split; [lia|exact F].
Qed.

(** A report changes the trace only. *)
Lemma Reaches_record (update : ProgressUpdate.t) (w : World) :
  Reaches env w (record (EvProgress update) w) 0 0.
Proof.
  unfold Reaches. cbn [record clock cancelled callCount trace].
  rewrite anyCancel_empty, orb_false_r.
  split; [lia|]. split; [reflexivity|]. split; [lia|].
  exists [EvProgress update]. split; [reflexivity|].
  split; [cbn; lia|]. constructor; [exact I|constructor].
Qed.

Lemma Reaches_progress (onProgress : bool) (update : ProgressUpdate.t) (w : World) :
  Reaches env w (snd (progress onProgress update w)) 0 0.
Proof.
  unfold progress. cbn [snd].
  destruct onProgress; [apply Reaches_record|apply Reaches_refl].
Qed.

(** One request made with the token not set, and the suspension that
    follows. *)
Lemma Reaches_request (role : ModelRole) (request : RequestUrlParam.t) (w : World) :
  cancelled w = false ->
  Reaches env w (suspend env (record (EvRequest (clock w) role request) w)) 0 1.
Proof.
  intros C. unfold Reaches. cbn [suspend record clock cancelled callCount trace].
  rewrite anyCancel_step.
  split; [lia|]. split; [reflexivity|]. split; [lia|].
  exists [EvRequest (clock w) role request]. split; [reflexivity|].
  split; [cbn; lia|]. constructor; [|constructor].
  cbn. split; [lia|]. split; [exact C|apply anyCancel_empty].
Qed.

Lemma Reaches_sleep (ms : Z) (w : World) :
  Reaches env w (suspend env (record (EvSleep (clock w) ms) w)) 0 0.
Proof.
  unfold Reaches. cbn [suspend record clock cancelled callCount trace].
  rewrite anyCancel_step.
  split; [lia|]. split; [reflexivity|]. split; [lia|].
  exists [EvSleep (clock w) ms]. split; [reflexivity|].
  split; [cbn; lia|]. constructor; [exact I|constructor].
Qed.

Lemma Reaches_count (w : World) :
  Reaches env w
    (mkWorld (S (callCount w)) (cancelled w) (clock w) (trace w) (inFlight w)) 1 0.
Proof.
  unfold Reaches. cbn [clock cancelled callCount trace].
  rewrite anyCancel_empty, orb_false_r.
  split; [lia|]. split; [reflexivity|]. split; [lia|].
  exists []. rewrite app_nil_r. split; [reflexivity|]. split; [cbn; lia|constructor].
Qed.

Lemma Within_ret {A} (a : A) : Within env 0 (ret a).
Proof. intros w. rewrite Nat.mul_0_r. apply Reaches_refl. Qed.

Lemma Within_throw {A} (e : JsError) : Within env 0 (@throw A e).
Proof. intros w. rewrite Nat.mul_0_r. apply Reaches_refl. Qed.

Lemma Within_outOfFuel {A} : Within env 0 (@outOfFuel A).
Proof. intros w. rewrite Nat.mul_0_r. apply Reaches_refl. Qed.

Lemma Within_checkCancelled : Within env 0 checkCancelled.
Proof.
  intros w. rewrite Nat.mul_0_r. unfold checkCancelled.
  destruct (cancelled w); apply Reaches_refl.
Qed.

Lemma Within_progress (onProgress : bool) (update : ProgressUpdate.t) :
  Within env 0 (progress onProgress update).
Proof. intros w. rewrite Nat.mul_0_r. apply Reaches_progress. Qed.

Lemma Within_weaken {A} (n n' : nat) (m : M A) :
  n <= n' -> Within env n m -> Within env n' m.
Proof.
  intros H W w. eapply Reaches_weaken; [exact H| |exact (W w)].
  apply Nat.mul_le_mono_l. exact H.
Qed.

Lemma Within_bind {A B} (n1 n2 : nat) (m : M A) (k : A -> M B) :
  Within env n1 m -> (forall a, Within env n2 (k a)) ->
  Within env (n1 + n2) (bind m k).
Proof.
  intros Hm Hk w. rewrite Nat.mul_add_distr_l. unfold bind.
  specialize (Hm w). destruct (m w) as [[a|e|] w1]; cbn [snd] in *.
  - exact (Reaches_trans _ _ _ _ _ _ _ Hm (Hk a w1)).
  - eapply Reaches_weaken; [| |exact Hm]; lia.
  - eapply Reaches_weaken; [| |exact Hm]; lia.
Qed.

Lemma Within_quiet_bind {A B} (n : nat) (m : M A) (k : A -> M B) :
  Within env 0 m -> (forall a, Within env n (k a)) -> Within env n (bind m k).
Proof. intros Hm Hk. exact (Within_bind 0 n m k Hm Hk). Qed.

End Reaching.

Section ChatInGeneral.
Import Js.
Import OpenRouterClient.
Import Observe.

Variable env : Env.
Variable config : OpenRouterConfig.

Lemma makeRequest_returned role model messages w content :
  fst (makeRequest env config role model messages w) = Returned content ->
  isEmpty content = false.
Proof.
  unfold makeRequest, readResponse, bind, requestUrl, throw, ret.
  destruct (transport env (clock w) _) as [|[status body]]; [discriminate|].
  cbn [RequestUrlResponse.status RequestUrlResponse.json].
  destruct (negb (status =? 200)); [discriminate|].
  destruct body as [m|[choices err]]; [discriminate|].
  cbn [OpenRouterResponse.error OpenRouterResponse.choices].
  destruct err; [discriminate|].
  destruct choices as [[|c rest]|]; try discriminate.
  destruct (isEmpty c) eqn:E; [discriminate|].
  cbn [fst]. now intros [= <-].
Qed.

(** The loop of [chat] from [attempt] on, whatever the network and the
    user do: what it returns is not empty and is counted once; a throw
    is not counted; at most the remaining attempts are made, each one
    with the token not set. *)
Lemma chatAttempts_general role model messages fuel attempt lastError w o w' :
  chatAttempts env config fuel attempt lastError role model messages w = (o, w') ->
  Reaches env w w' 1 (API.MAX_RETRIES - attempt)
  /\ match o with
     | Returned content => isEmpty content = false /\ callCount w' = S (callCount w)
     | Thrown _ => callCount w' = callCount w
     | OutOfFuel => callCount w' = callCount w
     end.
Proof.
  revert attempt lastError w.
  induction fuel as [|fuel IH]; intros attempt lastError w E;
    cbn [chatAttempts] in E;
    destruct (Nat.ltb_spec attempt API.MAX_RETRIES) as [Lt|Ge];
    try (unfold outOfFuel, throw in E; injection E as <- <-; split; [|reflexivity];
         eapply Reaches_weaken; [| |apply Reaches_refl]; lia).
  unfold bind at 1 in E. unfold checkCancelled in E.
  destruct (cancelled w) eqn:C.
  { injection E as <- <-. split; [|reflexivity].
    eapply Reaches_weaken; [| |apply Reaches_refl]; lia. }
  unfold bind at 1 in E. unfold tryCatch in E.
  pose proof (makeRequest_world env config role model messages w) as W.
  pose proof (makeRequest_returned role model messages w) as N.
  destruct (makeRequest env config role model messages w) as [[content|e|] w1];
    cbn [fst snd] in W, N; subst w1.
  - unfold bind, incrementCallCount, ret in E. injection E as <- <-.
    cbn [callCount suspend record].
    split; [|split; [now apply N|reflexivity]].
    eapply Reaches_weaken;
      [| |exact (Reaches_trans _ _ _ _ _ _ _ _
                   (Reaches_request env role _ w C) (Reaches_count env _))];
      lia.
  - destruct (isRetryableError e).
    + unfold bind at 1 in E. unfold drawJitter in E.
      unfold bind at 1 in E. unfold sleep in E.
      destruct (IH _ _ _ E) as [R O].
      split.
      * eapply Reaches_weaken;
          [| |exact (Reaches_trans _ _ _ _ _ _ _ _
                       (Reaches_trans _ _ _ _ _ _ _ _
                          (Reaches_request env role _ w C)
                          (Reaches_sleep env _ _)) R)]; lia.
      * destruct o; exact O.
    + unfold throw in E. injection E as <- <-. split; [|reflexivity].
      eapply Reaches_weaken; [| |exact (Reaches_request env role _ w C)]; lia.
  - injection E as <- <-. split; [|reflexivity].
    eapply Reaches_weaken; [| |exact (Reaches_request env role _ w C)]; lia.
Qed.

Lemma chat_within role messages : Within env 1 (chat env config role messages).
Proof.
  intros w. rewrite Nat.mul_1_r.
  destruct (chat env config role messages w) as [o w'] eqn:E.
  destruct (chatAttempts_general role (modelOf config role) messages
              API.MAX_RETRIES 0 None w o w' E) as [R _].
  rewrite Nat.sub_0_r in R. exact R.
Qed.

(** X1.  [chat] in arbitrary surroundings: it never returns the empty
    string; the counter moves by one exactly when it returns and stays
    when it throws; it makes at most [MAX_RETRIES] requests, each one
    with the token not set. *)
Theorem chat_returns_content_and_counts_it role messages w :
  match chat env config role messages w with
  | (Returned content, w') =>
      content <> EmptyString /\ callCount w' = S (callCount w)
      /\ Reaches env w w' 1 API.MAX_RETRIES
  | (Thrown _, w') =>
      callCount w' = callCount w /\ Reaches env w w' 0 API.MAX_RETRIES
  | (OutOfFuel, _) => False
  end.
Proof.
  pose proof (chat_sound env config role messages w) as [T _].
  destruct (chat env config role messages w) as [o w'] eqn:E.
  destruct (chatAttempts_general role (modelOf config role) messages
              API.MAX_RETRIES 0 None w o w' E) as [R O].
  rewrite Nat.sub_0_r in R. cbn [fst] in T.
  destruct o as [content|e|]; [| |congruence].
  - destruct O as [N Cc]. split; [|split; [exact Cc|exact R]].
    intros ->. discriminate.
  - split; [exact O|].
    destruct R as (K & C & Cc & evs & Tr & Rq & F).
    unfold Reaches. split; [exact K|]. split; [exact C|]. split; [lia|].
    exists evs. auto.
Qed.

End ChatInGeneral.

(* ====================================================================== *)
(** * The request budget and the token, for whole sessions *)
(* ====================================================================== *)

Section BudgetOfPhases.
Import Observe.

Variable env : Env.
Variable config : OpenRouterClient.OpenRouterConfig.
Variable maxRounds : nat.
Variable article : ExtractedArticle.t.
Variable onProgress : bool.

(** The alignment loop makes at most one call for every round that is
    left. *)
Lemma alignmentLoop_within fuel round prompt gpt claude :
  Within env (maxRounds - round)
    (InterpretationPhase.alignmentLoop env config maxRounds article onProgress
       fuel round prompt gpt claude).
Proof.
  revert round gpt claude.
  induction fuel as [|fuel IH]; intros round gpt claude;
    cbn [InterpretationPhase.alignmentLoop];
    destruct (Nat.ltb_spec round maxRounds) as [Lt|Ge];
    try (eapply Within_weaken; [|first [apply Within_ret|apply Within_outOfFuel]]; lia).
  apply Within_quiet_bind; [apply Within_progress|intros _].
  apply Within_quiet_bind; [apply Within_checkCancelled|intros _].
  apply (Within_weaken env (1 + (maxRounds - round - 1))); [lia|].
  apply Within_bind; [apply chat_within|intros claudeResponse].
  apply Within_quiet_bind; [apply Within_checkCancelled|intros _].
  destruct (InterpretationPhase.isAligned claudeResponse).
  { eapply Within_weaken; [|apply Within_ret]; lia. }
  destruct (Nat.leb_spec maxRounds (round + 1)) as [Le|Gt].
  { eapply Within_weaken; [|apply Within_ret]; lia. }
  apply (Within_weaken env (1 + (maxRounds - (round + 1 + 1)))); [lia|].
  apply Within_bind; [apply chat_within|intros gptResponse].
  apply Within_quiet_bind; [apply Within_checkCancelled|intros _].
  destruct (InterpretationPhase.isAligned gptResponse).
  { eapply Within_weaken; [|apply Within_ret]; lia. }
  apply IH.
Qed.

Lemma Reaches_spends (w w' : World) (n r : nat) :
  Reaches env w w' n r -> Spends w w' n r.
Proof.
  intros (K & _ & Cc & evs & T & R & _).
  unfold Spends. split; [exact K|]. split; [exact Cc|].
  exists evs. split; [exact T|exact R].
Qed.

Lemma Spends_weaken (w w' : World) (n r n' r' : nat) :
  n <= n' -> r <= r' -> Spends w w' n r -> Spends w w' n' r'.
Proof.
  intros Hn Hr (K & Cc & evs & T & R).
  unfold Spends. split; [exact K|]. split; [lia|].
  exists evs. split; [exact T|lia].
Qed.

Lemma Spends_trans (w w1 w2 : World) (n1 r1 n2 r2 : nat) :
  Spends w w1 n1 r1 -> Spends w1 w2 n2 r2 -> Spends w w2 (n1 + n2) (r1 + r2).
Proof.
  intros (K1 & Cc1 & evs1 & T1 & R1) (K2 & Cc2 & evs2 & T2 & R2).
  unfold Spends. split; [lia|]. split; [lia|].
  exists (evs1 ++ evs2)%list.
  rewrite T2, T1, app_assoc, countRequests_app. split; [reflexivity|lia].
Qed.

Lemma promiseAll_spends call1 call2 w :
  Spends w (snd (OpenRouterClient.promiseAll env config call1 call2 w))
         2 (API.MAX_RETRIES * 2).
Proof.
  destruct (promiseAll_spec env config call1 call2 w)
    as (_ & _ & K & Cc & evs & T & _ & R & _).
  unfold Spends. split; [exact K|]. split; [exact Cc|].
  exists evs. split; [exact T|exact R].
Qed.

(** The interpretation phase makes the two initial calls and at most
    one call for every round after the first. *)
Lemma interpretation_run_spends w :
  Spends w (snd (InterpretationPhase.run env config maxRounds article onProgress w))
         (2 + (maxRounds - 1)) (API.MAX_RETRIES * (2 + (maxRounds - 1))).
Proof.
  unfold InterpretationPhase.run. cbv zeta.
  rewrite Nat.mul_add_distr_l.
  set (u := ProgressUpdate.mk _ _ _ _).
  unfold bind at 1.
  change (progress onProgress u w) with (Returned tt, snd (progress onProgress u w)).
  cbv iota beta.
  pose proof (Reaches_spends _ _ _ _ (Reaches_progress env onProgress u w)) as R0.
  set (w0 := snd (progress onProgress u w)) in *.
  unfold bind at 1. unfold checkCancelled at 1.
  destruct (cancelled w0) eqn:C0.
  { cbn [snd]. eapply Spends_weaken; [| |exact R0]; lia. }
  cbv iota beta. unfold bind at 1.
  match goal with
  | |- context [OpenRouterClient.promiseAll env config ?c1 ?c2 w0] =>
      pose proof (Spends_trans _ _ _ _ _ _ _ R0 (promiseAll_spends c1 c2 w0)) as R1;
      destruct (OpenRouterClient.promiseAll env config c1 c2 w0) as [[both|e|] w1]
  end;
    cbn [snd] in R1 |- *;
    try (eapply Spends_weaken; [| |exact R1]; first [lia|apply Nat.le_add_r]).
  apply (Spends_trans _ _ _ _ _ _ _ R1). apply Reaches_spends.
  apply (Within_quiet_bind env (maxRounds - 1)); [apply Within_checkCancelled|intros _].
  apply alignmentLoop_within.
Qed.

(** The refinement loop makes at most two calls for every round that
    is left, less the revision that would follow the last critique. *)
Lemma refinementLoop_within fuel round draftPrompt currentDraft notes transcript :
  Within env (2 * (maxRounds - round) - 1)
    (RefinementLoop.refinementLoop env config maxRounds article onProgress
       fuel round draftPrompt currentDraft notes transcript).
Proof.
  revert round currentDraft notes transcript.
  induction fuel as [|fuel IH]; intros round currentDraft notes transcript;
    cbn [RefinementLoop.refinementLoop];
    destruct (Nat.ltb_spec round maxRounds) as [Lt|Ge];
    try (eapply Within_weaken; [|first [apply Within_ret|apply Within_outOfFuel]]; lia).
  apply Within_quiet_bind; [apply Within_progress|intros _].
  apply Within_quiet_bind; [apply Within_checkCancelled|intros _].
  apply (Within_weaken env (1 + (2 * (maxRounds - round) - 2))); [lia|].
  apply Within_bind; [apply chat_within|intros critique].
  apply Within_quiet_bind; [apply Within_checkCancelled|intros _].
  destruct (RefinementLoop.isAccepted (RefinementLoop.parseCritiqueStatus critique)).
  { eapply Within_weaken; [|apply Within_ret]; lia. }
  destruct (Nat.leb_spec maxRounds (round + 1)) as [Le|Gt].
  { eapply Within_weaken; [|apply Within_ret]; lia. }
  apply Within_quiet_bind; [apply Within_progress|intros _].
  apply (Within_weaken env (1 + (2 * (maxRounds - (round + 1)) - 1))); [lia|].
  apply Within_bind; [apply chat_within|intros revised].
  apply Within_quiet_bind; [apply Within_checkCancelled|intros _].
  apply IH.
Qed.

Lemma refinement_run_within interpretation :
  Within env (1 + (2 * maxRounds - 1))
    (RefinementLoop.run env config maxRounds article onProgress interpretation).
Proof.
  unfold RefinementLoop.run.
  apply Within_quiet_bind; [apply Within_progress|intros _].
  apply Within_quiet_bind; [apply Within_checkCancelled|intros _].
  cbv zeta.
  apply Within_bind; [apply chat_within|intros currentDraft].
  apply Within_quiet_bind; [apply Within_checkCancelled|intros _].
  eapply Within_weaken; [|apply refinementLoop_within]. lia.
Qed.

End BudgetOfPhases.

Section BudgetOfSessions.
Import Observe.
Import DialogueOrchestrator.

Variable env : Env.
Variable settings : DistillSettings.t.
Variable article : ExtractedArticle.t.
Variable onProgress : bool.

Lemma process_spends w :
  Spends w (snd (process env settings article onProgress w))
    ((2 + (DistillSettings.maxInterpretationRounds settings - 1))
     + (1 + (2 * DistillSettings.maxRefinementRounds settings - 1)))
    (API.MAX_RETRIES * (2 + (DistillSettings.maxInterpretationRounds settings - 1))
     + API.MAX_RETRIES * (1 + (2 * DistillSettings.maxRefinementRounds settings - 1))).
Proof.
  unfold process, tryBlock. cbv zeta.
  set (u0 := ProgressUpdate.mk DialoguePhase.interpreting (Some 1) (Some 3)
               "Starting interpretation phase...").
  pose proof (Reaches_spends env _ _ _ _ (Reaches_progress env onProgress u0 w)) as R0.
  pose proof (Spends_trans _ _ _ _ _ _ _ R0
                (interpretation_run_spends env (clientConfig settings)
                   (DistillSettings.maxInterpretationRounds settings) article onProgress
                   (snd (progress onProgress u0 w)))) as R1.
  destruct (InterpretationPhase.run _ _ _ _ _ (snd (progress onProgress u0 w)))
    as [[r|e|] w1]; cbn [snd] in *;
    try (eapply Spends_weaken; [| |exact R1]; first [lia|apply Nat.le_add_r]).
  destruct (cancelled w1);
    try (cbn [snd]; eapply Spends_weaken; [| |exact R1];
         first [lia|apply Nat.le_add_r]).
  set (u1 := ProgressUpdate.mk DialoguePhase.drafting None None
               "Starting drafting phase...").
  pose proof (Reaches_progress env onProgress u1 w1) as R2.
  pose proof (refinement_run_within env (clientConfig settings)
                (DistillSettings.maxRefinementRounds settings) article onProgress
                (InterpretationPhase.alignedInterpretation r)
                (snd (progress onProgress u1 w1))) as R3.
  pose proof (Spends_trans _ _ _ _ _ _ _ R1
                (Reaches_spends env _ _ _ _ (Reaches_trans _ _ _ _ _ _ _ _ R2 R3))) as R.
  destruct (RefinementLoop.run _ _ _ _ _ _ (snd (progress onProgress u1 w1)))
    as [[rr|e|] w3]; cbn [snd] in *;
    (eapply Spends_weaken; [| |exact R]; lia).
Qed.

(** X2.  The cost of a session is bounded by its round budgets: with both
    budgets at least 1, [process] has made at most
    [3 * (I + 1 + 2 * R)] requests and counted at most [I + 1 + 2 * R]
    calls when it returns, whatever the network answers, in whatever
    order, and whenever the user cancels. *)
Theorem process_request_budget w :
  1 <= DistillSettings.maxInterpretationRounds settings ->
  1 <= DistillSettings.maxRefinementRounds settings ->
  let budget :=
    DistillSettings.maxInterpretationRounds settings + 1
    + 2 * DistillSettings.maxRefinementRounds settings in
  exists result w' evs,
    process env settings article onProgress w = (Returned result, w')
    /\ trace w' = (trace w ++ evs)%list
    /\ countRequests evs <= API.MAX_RETRIES * budget
    /\ DialogueResult.totalApiCalls result <= callCount w + budget.
Proof.
  intros HI HR budget.
  destruct (process_returns env settings article onProgress w)
    as (result & w' & E & T & _).
  pose proof (process_spends w) as R. rewrite E in R. cbn [snd] in R.
  destruct R as (_ & Cc & evs & Tr & Rq).
  exists result, w', evs. split; [exact E|]. split; [exact Tr|].
  unfold budget. split.
  - etransitivity; [exact Rq|]. rewrite <- Nat.mul_add_distr_l.
    apply Nat.mul_le_mono_l. lia.
  - rewrite T. lia.
Qed.

(** X3.  No request after cancellation in the refinement loop, whose
    calls follow one another: each of its requests is made at a tick at
    which the token is not set, that is, the token was not set when the
    loop was entered and the user has not cancelled since; and the loop
    never resets the token. *)
Theorem refinement_never_requests_after_cancel interpretation w :
  let w' :=
    snd (RefinementLoop.run env (clientConfig settings)
           (DistillSettings.maxRefinementRounds settings) article onProgress
           interpretation w) in
  (exists evs,
      trace w' = (trace w ++ evs)%list
      /\ forall tick role request,
           In (EvRequest tick role request) evs ->
           clock w <= tick
           /\ cancelled w = false
           /\ anyCancel env (clock w) tick = false)
  /\ cancelled w' = cancelled w || anyCancel env (clock w) (clock w').
Proof.
  cbv zeta.
  destruct (refinement_run_within env (clientConfig settings)
              (DistillSettings.maxRefinementRounds settings) article onProgress
              interpretation w) as (_ & C & _ & evs & Tr & _ & F).
  split; [|exact C].
  exists evs. split; [exact Tr|].
  intros tick role request H.
  rewrite Forall_forall in F. exact (F _ H).
Qed.

End BudgetOfSessions.

Section BudgetWitness.
Import Fixtures.
Import Observe.

(** The budget with the default settings (three rounds each): at most
    30 requests and 10 counted calls. *)
Lemma process_request_budget_witness :
  exists result w' evs,
    DialogueOrchestrator.process (scripted [] (httpError 503)) (settings 3 3) article true
      freshWorld = (Returned result, w')
    /\ trace w' = evs
    /\ countRequests evs <= 30
    /\ DialogueResult.totalApiCalls result <= 10.
Proof.
  destruct (process_request_budget (scripted [] (httpError 503)) (settings 3 3) article
              true freshWorld) as (result & w' & evs & E & T & R & C).
  - cbn. lia.
  - cbn. lia.
  - exists result, w', evs. repeat split; assumption.
Defined.

End BudgetWitness.

(* ====================================================================== *)
(** * What the phases return, in arbitrary surroundings *)
(* ====================================================================== *)

Section Inversion.

Lemma bind_inv {A B} (m : M A) (k : A -> M B) w b w' :
  bind m k w = (Returned b, w') ->
  exists a w1, m w = (Returned a, w1) /\ k a w1 = (Returned b, w').
Proof.
  unfold bind. destruct (m w) as [[a|e|] w1]; try discriminate.
  intros E. now exists a, w1.
Qed.

Lemma promiseAll_returned_nonempty env config call1 call2 w ab w' :
  OpenRouterClient.promiseAll env config call1 call2 w = (Returned ab, w') ->
  fst ab <> EmptyString /\ snd ab <> EmptyString.
Proof.
  intros E.
  destruct (promiseAll_spec env config call1 call2 w) as (_ & R & _).
  rewrite E in R. cbn [fst snd] in R. destruct ab as [a b].
  destruct (R a b eq_refl) as (Na & Nb & _). now split.
Qed.

Lemma chat_returned_nonempty env config role messages w content w' :
  OpenRouterClient.chat env config role messages w = (Returned content, w') ->
  content <> EmptyString.
Proof.
  intros E.
  destruct (chatAttempts_general env config role _ messages _ _ _ _ _ _ E) as [_ [N _]].
  intros ->. discriminate.
Qed.

End Inversion.

Section SummaryInGeneral.
Import Js.
Import InterpretationPhase.

Lemma stripLeadingPunctuation_suffix (s : string) :
  exists pre, s = pre ++ stripLeadingPunctuation s.
Proof.
  induction s as [|c s [pre IH]]; [now exists EmptyString|].
  cbn [stripLeadingPunctuation]. destruct (isLeadingPunctuation c).
  - exists (String c pre). cbn. now rewrite <- IH.
  - now exists EmptyString.
Qed.

Lemma inside_trans (a b c : string) :
  (exists pre post, a = pre ++ b ++ post) ->
  (exists pre post, b = pre ++ c ++ post) ->
  exists pre post, a = pre ++ c ++ post.
Proof.
  intros (p1 & q1 & ->) (p2 & q2 & ->).
  exists (p1 ++ p2), (q2 ++ q1). now rewrite !append_assoc.
Qed.

Lemma find_existsb {A} (f : A -> bool) (l : list A) :
  existsb f l = false -> find f l = None.
Proof.
  induction l as [|x l IH]; [reflexivity|]. cbn.
  destruct (f x); [discriminate|exact IH].
Qed.

Lemma extractAlignedSummary_general (response fallback : string) :
  extractAlignedSummary response fallback = fallback
  \/ (isAligned response = true
      /\ 50 < String.length (extractAlignedSummary response fallback)
      /\ exists pre post,
           response = pre ++ extractAlignedSummary response fallback ++ post).
Proof.
  unfold extractAlignedSummary, isAligned.
  destruct (find _ DIALOGUE.ALIGNMENT_KEYWORDS) as [keyword|] eqn:F; [|now left].
  cbv zeta.
  destruct (Nat.ltb_spec 50
              (String.length
                 (trim (stripLeadingPunctuation
                          (trim (sliceFrom (trim response)
                                   (Z.of_nat (String.length keyword)))))))) as [L|_];
    [right|now left].
  split; [|split; [exact L|]].
  - destruct (existsb _ DIALOGUE.ALIGNMENT_KEYWORDS) eqn:E; [reflexivity|].
    apply find_existsb in E. congruence.
  - eapply inside_trans; [apply trim_inside|].
    eapply inside_trans.
    { unfold sliceFrom.
      exists (take (Z.to_nat (relIndex (Z.of_nat (String.length (trim response)))
                                (Z.of_nat (String.length keyword))))
                (trim response)), EmptyString.
      rewrite append_nil_r. symmetry. apply take_drop. }
    eapply inside_trans; [apply trim_inside|].
    eapply inside_trans; [|apply trim_inside].
    destruct (stripLeadingPunctuation_suffix
                (trim (sliceFrom (trim response) (Z.of_nat (String.length keyword)))))
      as [pre E].
    exists pre, EmptyString. now rewrite append_nil_r.
Qed.

(** X4.  The summary of an alignment response is the fallback, or text taken
    verbatim from an aligned response and longer than 50 characters. *)
Theorem extractAlignedSummary_cases (response fallback : string) :
  extractAlignedSummary response fallback = fallback
  \/ (isAligned response = true
      /\ 50 < String.length (extractAlignedSummary response fallback)
      /\ exists pre post,
           response = pre ++ extractAlignedSummary response fallback ++ post).
Proof. exact (extractAlignedSummary_general response fallback). Qed.

End SummaryInGeneral.

Section InterpretationInGeneral.
Import Observe.
Import InterpretationPhase.

Variable env : Env.
Variable config : OpenRouterClient.OpenRouterConfig.
Variable maxRounds : nat.
Variable article : ExtractedArticle.t.
Variable onProgress : bool.

Lemma alignmentLoop_result fuel round prompt gpt claude w r w' :
  1 <= round <= maxRounds \/ maxRounds = 0 ->
  gpt <> EmptyString -> claude <> EmptyString ->
  alignmentLoop env config maxRounds article onProgress fuel round prompt gpt claude w
  = (Returned r, w') ->
  interpretationWellFormed maxRounds r.
Proof.
  revert round gpt claude w.
  induction fuel as [|fuel IH]; intros round gpt claude w R G C E;
    cbn [alignmentLoop] in E;
    destruct (Nat.ltb_spec round maxRounds) as [Lt|Ge];
    try discriminate;
    try (injection E as <- <-; unfold interpretationWellFormed; cbn; auto).
  apply bind_inv in E as (_ & w1 & _ & E).
  apply bind_inv in E as (_ & w2 & _ & E).
  apply bind_inv in E as (claudeResponse & w3 & Ec & E).
  apply chat_returned_nonempty in Ec.
  apply bind_inv in E as (_ & w4 & _ & E).
  destruct (isAligned claudeResponse).
  { injection E as <- <-. unfold interpretationWellFormed. cbn.
    repeat split; auto; try lia.
    destruct (extractAlignedSummary_general claudeResponse gpt) as [->|(_ & L & _)];
      auto. }
  destruct (Nat.leb_spec maxRounds (round + 1)) as [Le|Gt].
  { injection E as <- <-. unfold interpretationWellFormed. cbn. auto. }
  apply bind_inv in E as (gptResponse & w5 & Eg & E).
  apply chat_returned_nonempty in Eg.
  apply bind_inv in E as (_ & w6 & _ & E).
  destruct (isAligned gptResponse).
  { injection E as <- <-. unfold interpretationWellFormed. cbn.
    repeat split; auto; try lia.
    destruct (extractAlignedSummary_general gptResponse claudeResponse)
      as [->|(_ & L & _)]; auto. }
  apply (IH (round + 1 + 1) _ _ _ ltac:(lia) Eg Ec E).
Qed.

Lemma interpretation_run_result w r w' :
  1 <= maxRounds \/ maxRounds = 0 ->
  run env config maxRounds article onProgress w = (Returned r, w') ->
  interpretationWellFormed maxRounds r.
Proof.
  intros N E. unfold run in E. cbv zeta in E.
  apply bind_inv in E as (_ & w1 & _ & E).
  apply bind_inv in E as (_ & w2 & _ & E).
  apply bind_inv in E as (both & w3 & Eb & E).
  apply promiseAll_returned_nonempty in Eb as (Eg & Ec).
  apply bind_inv in E as (_ & w4 & _ & E).
  apply (alignmentLoop_result _ 1 _ _ _ _ _ _ ltac:(lia) Eg Ec E).
Qed.

(** X5.  Whenever the interpretation phase returns: both interpretations
    are non-empty and the rounds are within the budget; with [aligned]
    there were at least two rounds and the interpretation is one of
    the two interpretations or a summary longer than 50 characters;
    without, the rounds are the budget and the interpretation is the
    synthesis of the two. *)
Theorem interpretation_result_well_formed w :
  match run env config maxRounds article onProgress w with
  | (Returned r, _) =>
      gptInterpretation r <> EmptyString
      /\ claudeInterpretation r <> EmptyString
      /\ rounds r <= maxRounds
      /\ (if aligned r
          then 2 <= rounds r
               /\ (alignedInterpretation r = gptInterpretation r
                   \/ alignedInterpretation r = claudeInterpretation r
                   \/ 50 < String.length (alignedInterpretation r))
          else rounds r = maxRounds
               /\ alignedInterpretation r
                  = combineInterpretations (gptInterpretation r)
                      (claudeInterpretation r))
  | _ => True
  end.
Proof.
  destruct (run env config maxRounds article onProgress w) as [[r|e|] w'] eqn:E;
    [|exact I|exact I].
  apply interpretation_run_result in E; [exact E|lia].
Qed.

End InterpretationInGeneral.

Section RefinementInGeneral.
Import Observe.
Import RefinementLoop.

Variable env : Env.
Variable config : OpenRouterClient.OpenRouterConfig.
Variable maxRounds : nat.
Variable article : ExtractedArticle.t.
Variable onProgress : bool.

Lemma lastDraft_app_critique entries entry :
  isCritique entry = true ->
  lastDraft (entries ++ [entry]) = lastDraft entries.
Proof.
  intros H. induction entries as [|x entries IH]; cbn [app lastDraft].
  - now rewrite H.
  - now rewrite IH.
Qed.

Lemma lastDraft_app_draft entries entry :
  isCritique entry = false ->
  lastDraft (entries ++ [entry]) = Some (TranscriptEntry.content entry).
Proof.
  intros H. induction entries as [|x entries IH]; cbn [app lastDraft].
  - now rewrite H.
  - now rewrite IH.
Qed.

Lemma countCritiques_app entries entry :
  countCritiques (entries ++ [entry])
  = countCritiques entries + (if isCritique entry then 1 else 0).
Proof.
  unfold countCritiques. rewrite filter_app, length_app. cbn.
  now destruct (isCritique entry).
Qed.

Lemma refinementLoop_result fuel round draftPrompt currentDraft entries w r w' :
  round < maxRounds ->
  lastDraft entries = Some currentDraft ->
  countCritiques entries = round ->
  refinementLoop env config maxRounds article onProgress fuel round draftPrompt
    currentDraft (AtomicNoteParser.parse currentDraft) entries w
  = (Returned r, w') ->
  refinementWellFormed maxRounds r.
Proof.
  revert round currentDraft entries w.
  induction fuel as [|fuel IH]; intros round currentDraft entries w Lt D K E;
    cbn [refinementLoop] in E;
    apply Nat.ltb_lt in Lt as Ltb; rewrite Ltb in E; [discriminate|].
  apply bind_inv in E as (_ & w1 & _ & E).
  apply bind_inv in E as (_ & w2 & _ & E).
  apply bind_inv in E as (critique & w3 & _ & E).
  apply bind_inv in E as (_ & w4 & _ & E).
  set (entry := TranscriptEntry.mk "refinement" critic TranscriptEntry.critique
                  critique (round + 1)) in *.
  assert (Hd : lastDraft (entries ++ [entry]) = Some currentDraft)
    by (rewrite lastDraft_app_critique; [exact D|reflexivity]).
  assert (Hk : countCritiques (entries ++ [entry]) = round + 1)
    by (rewrite countCritiques_app; cbn; lia).
  destruct (isAccepted (parseCritiqueStatus critique)) eqn:S.
  { injection E as <- <-. unfold refinementWellFormed.
    cbn [transcript notes rounds approved].
    rewrite Hd, Hk. split; [now exists currentDraft|].
    split; [reflexivity|]. split; [lia|]. split; [now left|].
    right. exists entries, entry. cbn. rewrite S. repeat split. }
  destruct (Nat.leb_spec maxRounds (round + 1)) as [Le|Gt].
  { injection E as <- <-. unfold refinementWellFormed.
    cbn [transcript notes rounds approved].
    rewrite Hd, Hk. split; [now exists currentDraft|].
    split; [lia|]. split; [lia|]. split; [now right|].
    right. exists entries, entry. cbn. rewrite S. repeat split. }
  apply bind_inv in E as (_ & w5 & _ & E).
  apply bind_inv in E as (revised & w6 & _ & E).
  apply bind_inv in E as (_ & w7 & _ & E).
  apply (IH (round + 1) revised _ _ Gt) in E; [exact E| |].
  - now rewrite lastDraft_app_draft.
  - rewrite countCritiques_app, Hk. cbn. lia.
Qed.

Lemma refinement_run_result interpretation w r w' :
  run env config maxRounds article onProgress interpretation w = (Returned r, w') ->
  refinementWellFormed maxRounds r.
Proof.
  intros E. unfold run in E.
  apply bind_inv in E as (_ & w1 & _ & E).
  apply bind_inv in E as (_ & w2 & _ & E).
  cbv zeta in E.
  apply bind_inv in E as (currentDraft & w3 & _ & E).
  apply bind_inv in E as (_ & w4 & _ & E).
  destruct maxRounds as [|n] eqn:M.
  - cbn in E. injection E as <- <-. unfold refinementWellFormed. cbn.
    split; [now exists currentDraft|]. repeat split; auto.
  - rewrite <- M in *.
    apply (refinementLoop_result maxRounds 0) in E;
      [exact E|lia|reflexivity|reflexivity].
Qed.

(** X6.  Whenever the refinement loop returns: the notes are the parse of
    the last draft or revision of the transcript; [rounds] is the number
    of critiques in the transcript and within the budget; without
    approval the budget is used up; and, unless the budget is zero, the
    transcript ends with a critique and [approved] says whether that
    critique starts with an approval or marginal keyword. *)
Theorem refinement_result_well_formed interpretation w :
  match run env config maxRounds article onProgress interpretation w with
  | (Returned r, _) =>
      (exists text, lastDraft (transcript r) = Some text
                    /\ notes r = AtomicNoteParser.parse text)
      /\ rounds r = countCritiques (transcript r)
      /\ rounds r <= maxRounds
      /\ (approved r = true \/ rounds r = maxRounds)
      /\ (maxRounds = 0
          \/ exists earlier critique,
               transcript r = (earlier ++ [critique])%list
               /\ isCritique critique = true
               /\ approved r
                  = isAccepted
                      (parseCritiqueStatus (TranscriptEntry.content critique)))
  | _ => True
  end.
Proof.
  destruct (run env config maxRounds article onProgress interpretation w)
    as [[r|e|] w'] eqn:E; [|exact I|exact I].
  exact (refinement_run_result _ _ _ _ E).
Qed.

End RefinementInGeneral.

Section SessionInGeneral.
Import Observe.
Import DialogueOrchestrator.

Variable env : Env.
Variable settings : DistillSettings.t.
Variable article : ExtractedArticle.t.
Variable onProgress : bool.

(** X7.  [process] ends in one of two phases.  A completed session has no
    error, its notes are the current draft of the state, its rounds
    are within the two budgets and all three interpretations are
    recorded, the two models' being non-empty.  A failed session has an
    error message, no notes, and no refinement round recorded. *)
Theorem process_result_shape w :
  match process env settings article onProgress w with
  | (Returned result, _) =>
      let state := DialogueResult.state result in
      DialogueResult.article result = article
      /\ ((DialogueState.phase state = DialoguePhase.complete
           /\ DialogueState.error state = None
           /\ DialogueState.currentDraft state
              = Some (DialogueResult.atomicNotes result)
           /\ DialogueState.interpretationRounds state
              <= DistillSettings.maxInterpretationRounds settings
           /\ DialogueState.refinementRounds state
              <= DistillSettings.maxRefinementRounds settings
           /\ exists gpt claude interpretation,
                DialogueState.gptInterpretation state = Some gpt
                /\ DialogueState.claudeInterpretation state = Some claude
                /\ DialogueState.alignedInterpretation state = Some interpretation
                /\ gpt <> EmptyString /\ claude <> EmptyString)
          \/ (DialogueState.phase state = DialoguePhase.error
              /\ DialogueState.error state <> None
              /\ DialogueResult.atomicNotes result = []
              /\ DialogueState.currentDraft state = None
              /\ DialogueState.refinementRounds state = 0))
  | _ => False
  end.
Proof.
  unfold process, tryBlock. cbv zeta.
  destruct (InterpretationPhase.run _ _ _ _ _ _) as [[ir|e|] w1] eqn:E1.
  - apply interpretation_run_result in E1 as (G & C & Ri & _); [|lia].
    destruct (cancelled w1).
    { cbn. split; [reflexivity|]. right. repeat split. discriminate. }
    destruct (RefinementLoop.run _ _ _ _ _ _ _) as [[rr|e|] w2] eqn:E2.
    + apply refinement_run_result in E2 as (_ & _ & Rr & _).
      cbn. split; [reflexivity|]. left. repeat split; auto.
      eexists. eexists. eexists. repeat split; auto.
    + cbn. split; [reflexivity|]. right. repeat split. discriminate.
    + pose proof (refinement_run_sound env (clientConfig settings)
                    (DistillSettings.maxRefinementRounds settings) article onProgress
                    (InterpretationPhase.alignedInterpretation ir)) as Snd.
      destruct (Sound_elim env _ _ _ _ (Snd) E2) as (N & _). congruence.
  - cbn. split; [reflexivity|]. right. repeat split. discriminate.
  - destruct (Sound_elim env _ _ _ _
                (interpretation_run_sound env _ _ _ _) E1) as (N & _). congruence.
Qed.

(** X8.  After [reset], and with no call of an earlier session in
    flight, the total of the next session is the number of its own
    successful requests whose answers it has read, whatever the counter
    held before: all its successful requests, unless it leaves a call in
    flight itself.  [getApiCallCount] then returns that total. *)
Theorem reset_starts_a_new_count w :
  inFlight w = [] ->
  exists result w' evs,
    (reset ;;; process env settings article onProgress) w = (Returned result, w')
    /\ trace w' = (trace w ++ evs)%list
    /\ DialogueResult.totalApiCalls result + owed env (inFlight w') = successes env evs
    /\ (inFlight w' = [] -> DialogueResult.totalApiCalls result = successes env evs)
    /\ getApiCallCount w' = (Returned (DialogueResult.totalApiCalls result), w').
Proof.
  intros F.
  destruct (process_returns env settings article onProgress (snd (reset w)))
    as (result & w' & E & T & evs & Tr & Cc).
  change (trace (snd (reset w))) with (trace w) in Tr.
  change (callCount (snd (reset w))) with 0 in Cc.
  change (inFlight (snd (reset w))) with (inFlight w) in Cc.
  rewrite F in Cc. change (owed env []) with 0 in Cc.
  exists result, w', evs.
  change ((reset ;;; process env settings article onProgress) w)
    with (process env settings article onProgress (snd (reset w))).
  split; [exact E|]. split; [exact Tr|]. split; [lia|]. split.
  - intros F'. rewrite F' in Cc. change (owed env []) with 0 in Cc. lia.
  - unfold getApiCallCount, OpenRouterClient.getCallCount. now rewrite T.
Qed.

End SessionInGeneral.

Section ResetWitness.
Import Observe.
Import Fixtures.
Import DialogueOrchestrator.

(** X8 on a client whose counter stands at 7: after [reset], a session
    in which every request is answered ends with a total of 5. *)
Lemma reset_starts_a_new_count_witness :
  let env := scripted [] (ok "APPROVED") in
  exists result w' evs,
    (reset ;;; process env (settings 2 3) article true)
      (mkWorld 7 false 0 [] []) = (Returned result, w')
    /\ trace w' = evs
    /\ DialogueResult.totalApiCalls result + owed env (inFlight w') = successes env evs.
Proof.
  intros env.
  destruct (reset_starts_a_new_count env (settings 2 3) article true
              (mkWorld 7 false 0 [] []) eq_refl)
    as (result & w' & evs & E & T & C & _).
  exists result, w', evs. split; [exact E|]. split; [exact T|exact C].
Defined.

End ResetWitness.

(* ====================================================================== *)
(** * Retries: back-off and recovery *)
(* ====================================================================== *)

Section Backoff.
Import Js.
Import OpenRouterClient.
Import Observe.

Variable env : Env.
Variable config : OpenRouterConfig.

Local Abbreviation requestOf := (Observe.requestOf config).
Local Abbreviation modelOf := (Observe.modelOf config).

Lemma retryDelay_bounds attempt random :
  attempt < API.MAX_RETRIES ->
  (0 <= random < 1000)%Z ->
  (1000 * 2 ^ Z.of_nat attempt <= retryDelay attempt random
   < 1000 * 2 ^ Z.of_nat attempt + 1000)%Z.
Proof.
  unfold API.MAX_RETRIES, retryDelay, API.RETRY_BASE_DELAY_MS, API.RETRY_MAX_DELAY_MS.
  intros A R.
  destruct attempt as [|[|[|attempt]]]; [| | |lia];
    cbn [Z.of_nat Pos.of_succ_nat Pos.succ]; change (2 ^ 0)%Z with 1%Z;
    change (2 ^ 1)%Z with 2%Z; change (2 ^ 2)%Z with 4%Z; lia.
Qed.

(** One transient failure: a request, then a sleep of the back-off
    delay, then the next attempt. *)
Lemma chatAttempts_retries fuel attempt lastError role model messages w :
  attempt < API.MAX_RETRIES ->
  cancelled w = false ->
  NeverCancels env ->
  isRetryableFailure (transport env (clock w) (requestOf model messages)) = true ->
  chatAttempts env config (S fuel) attempt lastError role model messages w
  = chatAttempts env config fuel (S attempt)
      (Some (transientError (transport env (clock w) (requestOf model messages))))
      role model messages
      (mkWorld (callCount w) false (S (S (clock w)))
         (trace w ++ [EvRequest (clock w) role (requestOf model messages);
                      EvSleep (S (clock w))
                        (retryDelay attempt (jitter env (S (clock w))))])
         (inFlight w)).
Proof.
  intros Lt C N T. rewrite chatAttempts_unfold.
  apply Nat.ltb_lt in Lt. rewrite Lt.
  unfold bind at 1. unfold checkCancelled. rewrite C.
  unfold bind at 1. unfold tryCatch.
  pose proof (makeRequest_world env config role model messages w) as W.
  destruct (makeRequest_transient env config role model messages w T) as [R Re].
  destruct (makeRequest env config role model messages w) as [o1 w1].
  cbn [fst snd] in W, R. subst o1 w1. rewrite Re.
  unfold bind at 1. unfold drawJitter.
  unfold bind at 1. unfold sleep.
  f_equal. unfold suspend, record. cbn [cancelled clock callCount trace].
  rewrite C, !N. cbn [orb]. now rewrite <- app_assoc.
Qed.

(** A well-formed answer: one request, counted, and the loop ends. *)
Lemma chatAttempts_succeeds fuel attempt lastError role model messages w content others :
  attempt < API.MAX_RETRIES ->
  cancelled w = false ->
  NeverCancels env ->
  transport env (clock w) (requestOf model messages)
  = Responded (RequestUrlResponse.mk 200
                 (Parsed (OpenRouterResponse.mk (Some (content :: others)) None))) ->
  isEmpty content = false ->
  chatAttempts env config (S fuel) attempt lastError role model messages w
  = (Returned content,
     mkWorld (S (callCount w)) false (S (clock w))
       (trace w ++ [EvRequest (clock w) role (requestOf model messages)])
       (inFlight w)).
Proof.
  intros Lt C N T E. rewrite chatAttempts_unfold.
  apply Nat.ltb_lt in Lt. rewrite Lt.
  unfold bind at 1. unfold checkCancelled. rewrite C.
  unfold bind at 1. unfold tryCatch.
  unfold makeRequest, readResponse, bind, requestUrl, throw, ret.
  fold (Observe.requestOf config model messages). rewrite T.
  cbn [RequestUrlResponse.status RequestUrlResponse.json Nat.eqb negb
       OpenRouterResponse.error OpenRouterResponse.choices].
  rewrite E. unfold incrementCallCount, suspend, record.
  cbn [callCount cancelled clock trace]. now rewrite C, N.
Qed.

Lemma chatAttempts_recovers k fuel attempt lastError role model messages w
      content others :
  attempt + k < API.MAX_RETRIES ->
  cancelled w = false ->
  NeverCancels env ->
  (forall i, i < k ->
     isRetryableFailure
       (transport env (clock w + 2 * i) (requestOf model messages)) = true) ->
  transport env (clock w + 2 * k) (requestOf model messages)
  = Responded (RequestUrlResponse.mk 200
                 (Parsed (OpenRouterResponse.mk (Some (content :: others)) None))) ->
  isEmpty content = false ->
  exists w' evs,
    chatAttempts env config (S k + fuel) attempt lastError role model messages w
    = (Returned content, w')
    /\ trace w' = (trace w ++ evs)%list
    /\ countRequests evs = S k
    /\ List.length evs = 2 * k + 1
    /\ callCount w' = S (callCount w)
    /\ clock w' = clock w + 2 * k + 1.
Proof.
  revert attempt lastError w.
  induction k as [|k IH]; intros attempt lastError w Lt C N T Hs E.
  - replace (clock w + 2 * 0) with (clock w) in Hs by lia.
    cbn [Nat.add]. rewrite (chatAttempts_succeeds fuel attempt lastError role model messages w
               content others); auto; [|lia].
    eexists. eexists. split; [reflexivity|]. cbn [trace callCount clock].
    split; [reflexivity|]. repeat split. lia.
  - change (S (S k) + fuel) with (S (S k + fuel)).
    rewrite chatAttempts_retries; auto; [|lia|].
    2:{ specialize (T 0 ltac:(lia)).
        now replace (clock w + 2 * 0) with (clock w) in T by lia. }
    set (w1 := mkWorld (callCount w) false (S (S (clock w))) _ _).
    assert (T1 : forall i, i < k ->
              isRetryableFailure
                (transport env (clock w1 + 2 * i) (requestOf model messages)) = true).
    { intros i Hi. cbn [clock w1]. specialize (T (S i) ltac:(lia)).
      now replace (S (S (clock w)) + 2 * i) with (clock w + 2 * S i) by lia. }
    assert (S1 : transport env (clock w1 + 2 * k) (requestOf model messages)
                 = Responded (RequestUrlResponse.mk 200
                     (Parsed (OpenRouterResponse.mk (Some (content :: others)) None)))).
    { cbn [clock w1].
      now replace (S (S (clock w)) + 2 * k) with (clock w + 2 * S k) by lia. }
    destruct (IH (S attempt)
                (Some (transientError
                         (transport env (clock w) (requestOf model messages))))
                w1 ltac:(lia) eq_refl N T1 S1 E)
      as (w' & evs & R & Tr & Cr & Le & Cc & Ck).
    exists w'. eexists. split; [exact R|]. cbn [trace callCount clock w1] in Tr, Cc, Ck.
    rewrite Tr, <- app_assoc. split; [reflexivity|].
    cbn [app]. unfold countRequests in *. cbn [filter isRequest List.length].
    repeat split; lia.
Qed.

(** X9.  Against a transport that keeps failing transiently, with nobody
    cancelling and a jitter below one second, [chat] records three
    requests, each followed by a sleep - also the last one - and then
    throws the error of the third request.  The sleeps take between 1
    and 2, 2 and 3, and 4 and 5 seconds. *)
Theorem chat_backs_off_before_giving_up role messages w :
  cancelled w = false ->
  NeverCancels env ->
  (forall k, (0 <= jitter env k < 1000)%Z) ->
  (forall k request, isRetryableFailure (transport env k request) = true) ->
  exists w' d0 d1 d2,
    chat env config role messages w
    = (Thrown (transientError
                 (transport env (clock w + 4) (requestOf (modelOf role) messages))),
       w')
    /\ trace w'
       = (trace w
          ++ [EvRequest (clock w) role (requestOf (modelOf role) messages);
              EvSleep (clock w + 1) d0;
              EvRequest (clock w + 2) role (requestOf (modelOf role) messages);
              EvSleep (clock w + 3) d1;
              EvRequest (clock w + 4) role (requestOf (modelOf role) messages);
              EvSleep (clock w + 5) d2])%list
    /\ (1000 <= d0 < 2000 /\ 2000 <= d1 < 3000 /\ 4000 <= d2 < 5000)%Z
    /\ clock w' = clock w + 6.
Proof.
  intros C N J T. rewrite chat_unfold.
  rewrite chatAttempts_retries; auto; try (unfold API.MAX_RETRIES; lia).
  rewrite chatAttempts_retries; auto; try (unfold API.MAX_RETRIES; lia).
  rewrite chatAttempts_retries; auto; try (unfold API.MAX_RETRIES; lia).
  cbn [chatAttempts clock trace callCount]. unfold throw.
  change (3 <? API.MAX_RETRIES) with false. cbv iota.
  replace (S (S (S (S (S (S (clock w))))))) with (clock w + 6) by lia.
  replace (S (S (S (S (S (clock w)))))) with (clock w + 5) by lia.
  replace (S (S (S (S (clock w))))) with (clock w + 4) by lia.
  replace (S (S (S (clock w)))) with (clock w + 3) by lia.
  replace (S (S (clock w))) with (clock w + 2) by lia.
  replace (S (clock w)) with (clock w + 1) by lia.
  eexists. eexists. eexists. eexists. split; [reflexivity|].
  cbn [trace clock]. rewrite <- !app_assoc. split; [reflexivity|].
  pose proof (retryDelay_bounds 0 (jitter env (clock w + 1))
                ltac:(unfold API.MAX_RETRIES; lia) (J _)) as B0.
  pose proof (retryDelay_bounds 1 (jitter env (clock w + 3))
                ltac:(unfold API.MAX_RETRIES; lia) (J _)) as B1.
  pose proof (retryDelay_bounds 2 (jitter env (clock w + 5))
                ltac:(unfold API.MAX_RETRIES; lia) (J _)) as B2.
  change (2 ^ Z.of_nat 0)%Z with 1%Z in B0.
  change (2 ^ Z.of_nat 1)%Z with 2%Z in B1.
  change (2 ^ Z.of_nat 2)%Z with 4%Z in B2.
  split; [lia|lia].
Qed.

(** X10.  With nobody cancelling: when the first [k] requests of a [chat]
    fail transiently ([k] below [MAX_RETRIES]) and the next one is
    answered with non-empty content, [chat] returns that content after
    [k + 1] requests and [k] sleeps, and counts one call. *)
Theorem chat_recovers_after_transient_failures role messages w k content others :
  k < API.MAX_RETRIES ->
  cancelled w = false ->
  NeverCancels env ->
  (forall i, i < k ->
     isRetryableFailure
       (transport env (clock w + 2 * i) (requestOf (modelOf role) messages)) = true) ->
  transport env (clock w + 2 * k) (requestOf (modelOf role) messages)
  = Responded (RequestUrlResponse.mk 200
                 (Parsed (OpenRouterResponse.mk (Some (content :: others)) None))) ->
  isEmpty content = false ->
  exists w' evs,
    chat env config role messages w = (Returned content, w')
    /\ trace w' = (trace w ++ evs)%list
    /\ countRequests evs = S k
    /\ List.length evs = 2 * k + 1
    /\ callCount w' = S (callCount w)
    /\ clock w' = clock w + 2 * k + 1.
Proof.
  intros K C N T Hs E. rewrite chat_unfold.
  unfold API.MAX_RETRIES in K.
  replace 3 with (S k + (2 - k)) by lia.
  apply (chatAttempts_recovers k (2 - k) 0 None role (modelOf role) messages w
           content others); auto; unfold API.MAX_RETRIES; lia.
Qed.

End Backoff.

Section BackoffWitnesses.
Import Fixtures.
Import Observe.
Import OpenRouterClient.

Lemma chat_backs_off_before_giving_up_witness :
  let env := scripted [] (httpError 503) in
  exists w' d0 d1 d2,
    chat env config critic [ChatMessage.mk user "Hello"] freshWorld
    = (Thrown (transientError (httpError 503)), w')
    /\ countRequests (trace w') = 3
    /\ List.length (trace w') = 6
    /\ nth_error (trace w') 1 = Some (EvSleep 1 d0)
    /\ nth_error (trace w') 3 = Some (EvSleep 3 d1)
    /\ nth_error (trace w') 5 = Some (EvSleep 5 d2)
    /\ (1000 <= d0 < 2000 /\ 2000 <= d1 < 3000 /\ 4000 <= d2 < 5000)%Z.
Proof.
  intros env.
  destruct (chat_backs_off_before_giving_up env config critic
              [ChatMessage.mk user "Hello"] freshWorld)
    as (w' & d0 & d1 & d2 & R & Tr & B & _).
  - reflexivity.
  - intros k. reflexivity.
  - intros k. cbn. lia.
  - intros k request. cbn. now destruct k.
  - exists w', d0, d1, d2. split; [exact R|]. rewrite Tr.
    repeat split; try reflexivity; apply B.
Defined.

Lemma chat_recovers_after_transient_failures_witness :
  let env := scripted [httpError 429; httpError 429] (ok "Hello back") in
  exists w' evs,
    chat env config drafter [ChatMessage.mk user "Hello"] freshWorld
    = (Returned "Hello back", w')
    /\ trace w' = evs
    /\ countRequests evs = 2
    /\ List.length evs = 3
    /\ callCount w' = 1
    /\ clock w' = 3.
Proof.
  intros env.
  destruct (chat_recovers_after_transient_failures env config drafter
              [ChatMessage.mk user "Hello"] freshWorld 1 "Hello back" [])
    as (w' & evs & R & Tr & Cr & Le & Cc & Ck).
  - unfold API.MAX_RETRIES. lia.
  - reflexivity.
  - intros k. reflexivity.
  - intros i Hi. destruct i; [reflexivity|lia].
  - reflexivity.
  - reflexivity.
  - exists w', evs. repeat split; assumption.
Defined.

End BackoffWitnesses.

(* ====================================================================== *)
(** * Prompts, truncation and the two revisions of the classifiers *)
(* ====================================================================== *)

Section Replacement.
Import Js.
Import Observe.

Lemma includes_cons (c : ascii) (s k : string) :
  includes (String c s) k = false -> includes s k = false.
Proof. cbn [includes]. now intros H%orb_false_iff. Qed.

Lemma includes_dollar_head (c : ascii) (s : string) :
  includes (String c s) "$" = false -> Ascii.eqb c "$" = false.
Proof.
  cbn [includes startsWith]. intros H%orb_false_iff. destruct H as [H _].
  rewrite andb_true_r in H. now rewrite Ascii.eqb_sym.
Qed.

(** A replacement text without a dollar sign is inserted as it is. *)
Lemma getSubstitution_plain (matched before after replacement : string) :
  includes replacement "$" = false ->
  getSubstitution matched before after replacement = replacement.
Proof.
  induction replacement as [|c r IH]; [reflexivity|]. intros H.
  cbn [getSubstitution]. rewrite (includes_dollar_head _ _ H).
  now rewrite IH by exact (includes_cons _ _ _ H).
Qed.

Lemma getSubstitution_app_plain (matched before after a r : string) :
  includes a "$" = false ->
  getSubstitution matched before after (a ++ r)
  = a ++ getSubstitution matched before after r.
Proof.
  induction a as [|c a IH]; [reflexivity|]. intros H.
  cbn [append getSubstitution]. rewrite (includes_dollar_head _ _ H).
  now rewrite IH by exact (includes_cons _ _ _ H).
Qed.

(** [replace] rewrites the first occurrence and keeps what surrounds
    it. *)
Lemma replaceFrom_first (before s pat replacement : string) (n : nat) :
  firstOccurrence s pat = Some n ->
  replaceFrom before s pat replacement
  = take n s
    ++ getSubstitution pat (before ++ take n s)
         (drop (n + String.length pat) s) replacement
    ++ drop (n + String.length pat) s.
Proof.
  revert before n. induction s as [|c s IH]; intros before n;
    cbn [firstOccurrence replaceFrom];
    destruct (startsWith _ pat) eqn:P.
  - intros [= <-]. cbn [take Nat.add append]. now rewrite append_nil_r.
  - discriminate.
  - intros [= <-]. cbn [take Nat.add append]. now rewrite append_nil_r.
  - destruct (firstOccurrence s pat) as [m|] eqn:F; [|discriminate].
    intros [= <-]. cbn [take drop Nat.add append]. f_equal.
    rewrite (IH _ m eq_refl). now rewrite append_assoc.
Qed.

Lemma firstOccurrence_includes (s k : string) :
  includes s k = true -> exists n, firstOccurrence s k = Some n.
Proof.
  induction s as [|c s IH]; cbn [includes firstOccurrence];
    destruct (startsWith _ k); try (now exists 0); try discriminate.
  cbn [orb]. intros H. destruct (IH H) as [n ->]. now exists (S n).
Qed.

Lemma includes_inside (s pre t post k : string) :
  s = pre ++ t ++ post -> includes t k = true -> includes s k = true.
Proof.
  intros -> H. apply includes_inv in H as (a & b & ->).
  replace (pre ++ (a ++ k ++ b) ++ post) with ((pre ++ a) ++ k ++ (b ++ post))
    by now rewrite !append_assoc.
  apply includes_app.
Qed.

Lemma interpretationPrompt_shape (title text : string) :
  exists pre post n,
    interpretationPrompt title text
    = pre ++ getSubstitution "{content}" pre post text ++ post
    /\ firstOccurrence
         (replace InterpretationPhase.INTERPRETATION_PROMPT "{title}" title)
         "{content}" = Some n.
Proof.
  unfold interpretationPrompt.
  assert (F1 : firstOccurrence InterpretationPhase.INTERPRETATION_PROMPT "{title}"
               = Some 219) by (vm_compute; reflexivity).
  assert (I2 : includes (replace InterpretationPhase.INTERPRETATION_PROMPT
                           "{title}" title) "{content}" = true).
  { unfold replace at 1. rewrite (replaceFrom_first _ _ _ _ _ F1).
    eapply includes_inside with (post := EmptyString).
    - rewrite append_nil_r, <- append_assoc. reflexivity.
    - vm_compute. reflexivity. }
  destruct (firstOccurrence_includes _ _ I2) as [n F2].
  unfold replace at 1. rewrite (replaceFrom_first _ _ _ _ _ F2).
  cbn [append]. eexists. eexists. exists n. split; [reflexivity|exact F2].
Qed.

(** The interpretation prompt holds the (truncated) article content
    verbatim when the content has no dollar sign, whatever the title. *)
Lemma interpretationPrompt_plain (title text : string) :
  includes text "$" = false ->
  exists pre post, interpretationPrompt title text = pre ++ text ++ post.
Proof.
  intros D. destruct (interpretationPrompt_shape title text) as (pre & post & n & E & _).
  exists pre, post. rewrite E. now rewrite getSubstitution_plain.
Qed.

(** A [$&] in the article content is not inserted: [replace] expands
    it to the placeholder it is replacing. *)
Lemma interpretationPrompt_dollar (title a b : string) :
  includes a "$" = false ->
  includes b "$" = false ->
  exists pre post,
    interpretationPrompt title (a ++ "$&" ++ b)
    = pre ++ (a ++ "{content}" ++ b) ++ post.
Proof.
  intros A B.
  destruct (interpretationPrompt_shape title (a ++ "$&" ++ b))
    as (pre & post & n & E & _).
  exists pre, post. rewrite E. rewrite getSubstitution_app_plain by exact A.
  cbn [append getSubstitution Ascii.eqb Bool.eqb andb].
  now rewrite getSubstitution_plain by exact B.
Qed.

End Replacement.

Section TruncationAtSpace.
Import Js.
Import InterpretationPhase.

(** X11.  Above the ceiling, with a space among the first [maxChars]
    characters: the result is the content up to just before a space,
    followed by the notice; no word is cut, and the result is not longer
    than the ceiling plus the notice. *)
Theorem truncateContent_cuts_before_a_space (content : string) (maxChars : Z) :
  (0 <= maxChars < Z.of_nat (String.length content))%Z ->
  includes (take (Z.to_nat maxChars) content) " " = true ->
  exists kept rest,
    truncateContent content maxChars = kept ++ TRUNCATION_NOTICE
    /\ content = kept ++ " " ++ rest
    /\ (Z.of_nat (String.length kept) < maxChars)%Z.
Proof.
  intros H Sp.
  destruct (truncateContent_cut_at_space content maxChars H Sp)
    as (cut & rest & E & D).
  destruct (truncateContent_long content maxChars H) as (cut' & E' & B & L).
  exists (take cut content), rest. split; [exact E|].
  pose proof (take_drop cut content) as TD. rewrite D in TD.
  split; [now symmetry|].
  assert (Lc : String.length (take cut content) + S (String.length rest)
               = String.length content).
  { apply (f_equal String.length) in TD. now rewrite length_append in TD. }
  assert (Ec : String.length (take cut content) = String.length (take cut' content)).
  { rewrite E in E'. apply (f_equal String.length) in E'.
    rewrite !length_append in E'. lia. }
  rewrite Ec, length_take.
  pose proof (lastIndexOfFrom_present _ _ 0%Z (Z.le_refl 0) Sp) as Pos.
  fold (lastIndexOf (take (Z.to_nat maxChars) content) " ") in Pos.
  destruct L as [L|[L _]]; [|lia].
  pose proof (lastIndexOfFrom_range (take (Z.to_nat maxChars) content) " " 0) as R.
  cbv zeta in R. fold (lastIndexOf (take (Z.to_nat maxChars) content) " ") in R.
  destruct R as [R|[R P]]; [lia|].
  rewrite length_take in R.
  assert (cut' <> Z.to_nat maxChars).
  { intros ->. rewrite L, Z.sub_0_r, Nat2Z.id in P.
    pose proof (take_drop (Z.to_nat maxChars) (take (Z.to_nat maxChars) content)) as T2.
    apply (f_equal String.length) in T2.
    rewrite length_append, !length_take in T2.
    destruct (drop (Z.to_nat maxChars) (take (Z.to_nat maxChars) content));
      [discriminate|]. cbn [String.length] in T2. lia. }
  lia.
Qed.

Lemma truncateContent_cuts_before_a_space_witness :
  exists kept rest,
    truncateContent "alpha beta gamma" 8 = kept ++ TRUNCATION_NOTICE
    /\ "alpha beta gamma" = kept ++ " " ++ rest
    /\ (Z.of_nat (String.length kept) < 8)%Z.
Proof.
  apply (truncateContent_cuts_before_a_space "alpha beta gamma" 8).
  - cbn. lia.
  - vm_compute. reflexivity.
Defined.

End TruncationAtSpace.

Section Revisions.
Import Js.

Lemma toUpperChar_whiteSpace (c : ascii) :
  isWhiteSpace (toUpperChar c) = isWhiteSpace c.
Proof. destruct c as [[] [] [] [] [] [] [] []]; reflexivity. Qed.

Lemma isEmpty_toUpperCase (s : string) : isEmpty (toUpperCase s) = isEmpty s.
Proof. now destruct s. Qed.

Lemma trimStart_toUpperCase (s : string) :
  toUpperCase (trimStart s) = trimStart (toUpperCase s).
Proof.
  induction s as [|c s IH]; [reflexivity|].
  cbn [trimStart toUpperCase]. rewrite toUpperChar_whiteSpace.
  now destruct (isWhiteSpace c).
Qed.

Lemma trimEnd_toUpperCase (s : string) :
  toUpperCase (trimEnd s) = trimEnd (toUpperCase s).
Proof.
  induction s as [|c s IH]; [reflexivity|].
  cbn [trimEnd toUpperCase]. cbv zeta.
  rewrite toUpperChar_whiteSpace, <- IH, isEmpty_toUpperCase.
  now destruct (isWhiteSpace c && isEmpty (trimEnd s)).
Qed.

(** Upper-casing and trimming commute: the two revisions normalise a
    response to the same text. *)
Lemma trim_toUpperCase (s : string) :
  toUpperCase (trim s) = trim (toUpperCase s).
Proof. unfold trim. now rewrite trimEnd_toUpperCase, trimStart_toUpperCase. Qed.

Lemma startsWith_prefix (s a b : string) :
  startsWith s (a ++ b) = true -> startsWith s a = true.
Proof.
  intros H%startsWith_inv. rewrite H, append_assoc. apply startsWith_app.
Qed.

(** X12.  Whatever the keyword-table copy of [isAligned] accepts, the
    substring copy accepts too: the newer revision only ever turns an
    acceptance into a rejection. *)
Theorem strict_isAligned_implies_legacy (response : string) :
  InterpretationPhase.isAligned response = true ->
  LegacyInterpretationPhase.isAligned response = true.
Proof.
  intros H. apply isAligned_iff in H as (keyword & Hin & Hk).
  rewrite trim_toUpperCase in Hk.
  destruct (trim_inside (toUpperCase response)) as (pre & post & E).
  unfold LegacyInterpretationPhase.isAligned. cbv zeta.
  destruct Hin as [<-|[<-|[<-|[]]]].
  - rewrite (includes_inside _ _ _ _ _ E (includes_startsWith _ _ Hk)). reflexivity.
  - change "I AGREE WITH THIS INTERPRETATION"
      with ("I AGREE" ++ " WITH THIS INTERPRETATION") in Hk.
    apply startsWith_prefix in Hk.
    rewrite (includes_inside _ _ _ _ "I AGREE" E (includes_startsWith _ _ Hk)).
    apply orb_true_iff. left. apply orb_true_r.
  - apply startsWith_inv in Hk.
    assert (I : includes (trim (toUpperCase response)) "ALIGNED" = true).
    { rewrite Hk. change "WE ARE ALIGNED" with ("WE ARE " ++ "ALIGNED").
      rewrite append_assoc. apply includes_app. }
    rewrite (includes_inside _ _ _ _ _ E I). reflexivity.
Qed.

Lemma strict_isAligned_implies_legacy_witness :
  InterpretationPhase.isAligned "  we are aligned: the article argues X."  = true
  /\ LegacyInterpretationPhase.isAligned "  we are aligned: the article argues X."
     = true.
Proof.
  split; [vm_compute; reflexivity|].
  apply (strict_isAligned_implies_legacy "  we are aligned: the article argues X.").
  vm_compute. reflexivity.
Defined.

(** X13.  The two revisions of [parseCritiqueStatus] classify every critique
    alike, except for critiques that mention MARGINAL without starting
    with a keyword: there the substring copy says [marginal] and the
    keyword-table copy says [needs_work]. *)
Theorem parseCritiqueStatus_revisions_differ_only_on_marginal (critique : string) :
  RefinementLoop.parseCritiqueStatus critique
  = LegacyRefinementLoop.parseCritiqueStatus critique
  \/ (RefinementLoop.parseCritiqueStatus critique = CritiqueStatus.needs_work
      /\ LegacyRefinementLoop.parseCritiqueStatus critique = CritiqueStatus.marginal
      /\ includes (toUpperCase critique) "MARGINAL" = true).
Proof.
  unfold RefinementLoop.parseCritiqueStatus, LegacyRefinementLoop.parseCritiqueStatus,
    DIALOGUE.APPROVAL_KEYWORDS, DIALOGUE.MARGINAL_KEYWORDS.
  cbn [existsb]. cbv zeta. rewrite !orb_false_r, trim_toUpperCase.
  destruct (trim_inside (toUpperCase critique)) as (pre & post & E).
  destruct (startsWith (trim (toUpperCase critique)) "APPROVED") eqn:A; [now left|].
  destruct (String.eqb (trim (toUpperCase critique)) "APPROVED") eqn:Q.
  { apply String.eqb_eq in Q. rewrite Q in A. discriminate. }
  cbn [orb].
  destruct (startsWith (trim (toUpperCase critique)) "MARGINAL"); [now left|].
  cbn [orb].
  destruct (includes (trim (toUpperCase critique)) "MARGINAL") eqn:M; [|now left].
  right. split; [reflexivity|]. split; [reflexivity|].
  exact (includes_inside _ _ _ _ _ E M).
Qed.

End Revisions.

(* ====================================================================== *)
(** * Parsed notes, validation, cleaning and previews *)
(* ====================================================================== *)

Section TrimFacts.
Import Js.

Lemma trimStart_trimEnd_trimStart (s : string) :
  trimStart (trimEnd (trimStart s)) = trimEnd (trimStart s).
Proof.
  induction s as [|c s IH]; [reflexivity|].
  cbn [trimStart]. destruct (isWhiteSpace c) eqn:E; [exact IH|].
  cbn [trimEnd]. rewrite E. cbn [andb trimStart]. now rewrite E.
Qed.

Lemma trim_idem (s : string) : trim (trim s) = trim s.
Proof. unfold trim. now rewrite trimStart_trimEnd_trimStart, trimEnd_idem. Qed.

Lemma length_trim (s : string) : String.length (trim s) <= String.length s.
Proof.
  destruct (trim_inside s) as (pre & post & E).
  apply (f_equal String.length) in E. rewrite !length_append in E. lia.
Qed.

Lemma includes_trim_false (s k : string) :
  includes s k = false -> includes (trim s) k = false.
Proof.
  intros H. destruct (includes (trim s) k) eqn:E; [|reflexivity].
  destruct (trim_inside s) as (pre & post & I).
  rewrite (includes_inside _ _ _ _ _ I E) in H. discriminate.
Qed.

Lemma allChars_app (p : ascii -> bool) (a b : string) :
  Observe.allChars p (a ++ b) = Observe.allChars p a && Observe.allChars p b.
Proof.
  induction a as [|c a IH]; [reflexivity|].
  cbn [append Observe.allChars]. now rewrite IH, andb_assoc.
Qed.

Lemma allChars_trim (p : ascii -> bool) (s : string) :
  Observe.allChars p s = true -> Observe.allChars p (trim s) = true.
Proof.
  destruct (trim_inside s) as (pre & post & E). intros H. rewrite E in H.
  rewrite !allChars_app in H.
  apply andb_true_iff in H as [_ H]. now apply andb_true_iff in H as [H _].
Qed.

End TrimFacts.


(* ====================================================================== *)
(** * The first request of the interpretation phase *)
(* ====================================================================== *)

Section FirstRequest.
Import Js.
Import Observe.
Import InterpretationPhase.

Variable env : Env.
Variable config : OpenRouterClient.OpenRouterConfig.
Variable maxRounds : nat.
Variable article : ExtractedArticle.t.
Variable onProgress : bool.

Lemma Within_appends {A} (n : nat) (m : M A) (w : World) :
  Within env n m -> exists evs, trace (snd (m w)) = (trace w ++ evs)%list.
Proof. intros H. destruct (H w) as (_ & _ & _ & evs & T & _). now exists evs. Qed.

Lemma opens_bind {A B} (m : M A) (k : A -> M B) w before ev :
  (exists rest, trace (snd (m w)) = (trace w ++ before ++ ev :: rest)%list) ->
  (forall a w1, exists evs, trace (snd (k a w1)) = (trace w1 ++ evs)%list) ->
  exists rest, trace (snd (bind m k w)) = (trace w ++ before ++ ev :: rest)%list.
Proof.
  intros [rest T] Hk. unfold bind.
  destruct (m w) as [[a|e|] w1]; cbn [snd] in T |- *; eauto.
  destruct (Hk a w1) as (evs & T2).
  exists (rest ++ evs)%list. rewrite T2, T, <- !app_assoc. reflexivity.
Qed.

(** Unless the token is set, [chat] starts with a request for the
    model of the role, carrying the messages it was given. *)
Lemma chat_opens role messages w :
  cancelled w = false ->
  exists rest,
    trace (snd (OpenRouterClient.chat env config role messages w))
    = (trace w ++ [] ++
         EvRequest (clock w) role (requestOf config (modelOf config role) messages)
         :: rest)%list.
Proof.
  intros C. rewrite chat_unfold, chatAttempts_unfold.
  change (0 <? API.MAX_RETRIES) with true. cbv iota.
  rewrite bind_checkCancelled by exact C.
  apply opens_bind.
  - unfold tryCatch.
    pose proof (makeRequest_world env config role (modelOf config role) messages w) as W.
    destruct (OpenRouterClient.makeRequest env config role _ messages w)
      as [[c|e|] w1]; cbn [snd] in W |- *; subst w1;
      exists []; reflexivity.
  - intros [result|error] w1.
    + exists []. cbn. now rewrite app_nil_r.
    + destruct (OpenRouterClient.isRetryableError error).
      * unfold bind at 1. unfold OpenRouterClient.drawJitter.
        unfold bind at 1. unfold sleep.
        match goal with
        | |- context [OpenRouterClient.chatAttempts ?e ?c ?f ?a ?l ?r ?m ?ms ?w2] =>
            destruct (OpenRouterClient.chatAttempts e c f a l r m ms w2)
              as [o w'] eqn:E;
            destruct (chatAttempts_general e c r m ms f a l w2 o w' E)
              as [(_ & _ & _ & evs & T & _) _]
        end.
        cbn [snd]. rewrite T. cbn [suspend record trace].
        eexists. rewrite <- app_assoc. reflexivity.
      * exists []. cbn. now rewrite app_nil_r.
Qed.

(** Unless the token is set, the phase starts - after its progress
    update - with a request to the drafter that carries the
    interpretation prompt for the truncated article. *)
Lemma interpretation_run_opens w :
  cancelled w = false ->
  exists before rest,
    trace (snd (run env config maxRounds article onProgress w))
    = (trace w ++ before
         ++ EvRequest (clock w) drafter
              (requestOf config (OpenRouterClient.drafterModel config)
                 [ChatMessage.mk user
                    (interpretationPrompt (ExtractedArticle.title article)
                       (truncateContent (ExtractedArticle.content article)
                          CONTENT.MAX_ARTICLE_CHARS))])
         :: rest)%list
    /\ countRequests before = 0.
Proof.
  intros C. unfold run. cbv zeta. rewrite bind_progress.
  fold (interpretationPrompt (ExtractedArticle.title article)
          (truncateContent (ExtractedArticle.content article)
             CONTENT.MAX_ARTICLE_CHARS)).
  set (prompt := interpretationPrompt _ _).
  set (u := ProgressUpdate.mk _ _ _ _).
  set (w0 := snd (progress onProgress u w)).
  assert (C0 : cancelled w0 = false) by (subst w0; now destruct onProgress).
  assert (K0 : clock w0 = clock w) by (subst w0; now destruct onProgress).
  rewrite bind_checkCancelled by exact C0.
  destruct (opens_bind
              (OpenRouterClient.promiseAll env config
                 (drafter, [ChatMessage.mk user prompt])
                 (critic, [ChatMessage.mk user prompt]))
              (fun both => checkCancelled ;;;
                 alignmentLoop env config maxRounds article onProgress maxRounds 1
                   prompt (fst both) (snd both))
              w0 []
              (EvRequest (clock w0) drafter
                 (requestOf config (modelOf config drafter)
                    [ChatMessage.mk user prompt]))) as [rest T].
  - apply promiseAll_opens. exact C0.
  - intros both w1. apply (Within_appends (maxRounds - 1)).
    apply Within_quiet_bind; [apply Within_checkCancelled|intros _].
    apply alignmentLoop_within.
  - rewrite T, K0. cbn [modelOf app]. subst w0.
    destruct onProgress; cbn [progress snd record trace].
    + exists [EvProgress u], rest. rewrite <- app_assoc. split; reflexivity.
    + exists [], rest. split; reflexivity.
Qed.

Lemma truncateContent_fits (content : string) :
  (Z.of_nat (String.length content) <= CONTENT.MAX_ARTICLE_CHARS)%Z ->
  truncateContent content CONTENT.MAX_ARTICLE_CHARS = content.
Proof. apply truncateContent_short. Qed.

(** X14.  For an article within the length ceiling and without a dollar
    sign, and unless the token is set: the first request of the phase
    goes to the drafter with one user message that holds the article
    content verbatim. *)
Theorem first_request_carries_the_article w :
  cancelled w = false ->
  (Z.of_nat (String.length (ExtractedArticle.content article))
   <= CONTENT.MAX_ARTICLE_CHARS)%Z ->
  includes (ExtractedArticle.content article) "$" = false ->
  exists before request rest pre post,
    trace (snd (run env config maxRounds article onProgress w))
    = (trace w ++ before ++ EvRequest (clock w) drafter request :: rest)%list
    /\ countRequests before = 0
    /\ RequestUrlParam.messages request
       = [ChatMessage.mk user (pre ++ ExtractedArticle.content article ++ post)].
Proof.
  intros C L D. destruct (interpretation_run_opens w C) as (before & rest & T & B).
  rewrite (truncateContent_fits _ L) in T.
  destruct (interpretationPrompt_plain (ExtractedArticle.title article) _ D)
    as (pre & post & E).
  rewrite E in T.
  exists before. eexists. exists rest, pre, post.
  split; [exact T|]. split; [exact B|reflexivity].
Qed.

(** X15.  An article text of the form [a ++ "$&" ++ b] (within the length
    ceiling, [a] and [b] without a dollar sign) does not reach the model
    as it is: in the first request the dollar pattern has become the
    placeholder of the prompt template. *)
Theorem first_request_expands_dollar_patterns w (a b : string) :
  cancelled w = false ->
  ExtractedArticle.content article = a ++ "$&" ++ b ->
  (Z.of_nat (String.length (ExtractedArticle.content article))
   <= CONTENT.MAX_ARTICLE_CHARS)%Z ->
  includes a "$" = false ->
  includes b "$" = false ->
  exists before request rest pre post,
    trace (snd (run env config maxRounds article onProgress w))
    = (trace w ++ before ++ EvRequest (clock w) drafter request :: rest)%list
    /\ countRequests before = 0
    /\ RequestUrlParam.messages request
       = [ChatMessage.mk user (pre ++ (a ++ "{content}" ++ b) ++ post)].
Proof.
  intros C Ec L A B. destruct (interpretation_run_opens w C) as (before & rest & T & N).
  rewrite (truncateContent_fits _ L), Ec in T.
  destruct (interpretationPrompt_dollar (ExtractedArticle.title article) a b A B)
    as (pre & post & E).
  rewrite E in T.
  exists before. eexists. exists rest, pre, post.
  split; [exact T|]. split; [exact N|reflexivity].
Qed.

End FirstRequest.

Section FirstRequestWitnesses.
Import Js.
Import Observe.
Import Fixtures.

Lemma first_request_carries_the_article_witness :
  let env := scripted [] (ok "The article argues X.") in
  exists before request rest pre post,
    trace (snd (InterpretationPhase.run env config 3 article true freshWorld))
    = (before ++ EvRequest 0 drafter request :: rest)%list
    /\ countRequests before = 0
    /\ RequestUrlParam.messages request
       = [ChatMessage.mk user (pre ++ "Agents need throwaway runs." ++ post)].
Proof.
  intros env.
  apply (first_request_carries_the_article env config 3 article true freshWorld).
  - reflexivity.
  - vm_compute. discriminate.
  - vm_compute. reflexivity.
Defined.

Lemma first_request_expands_dollar_patterns_witness :
  let env := scripted [] (ok "The article argues X.") in
  exists before request rest pre post,
    trace (snd (InterpretationPhase.run env config 3 priceArticle false freshWorld))
    = (before ++ EvRequest 0 drafter request :: rest)%list
    /\ countRequests before = 0
    /\ RequestUrlParam.messages request
       = [ChatMessage.mk user (pre ++ ("It costs " ++ "{content}" ++ " 5.") ++ post)].
Proof.
  intros env.
  apply (first_request_expands_dollar_patterns env config 3 priceArticle false
           freshWorld "It costs " " 5.").
  - reflexivity.
  - reflexivity.
  - vm_compute. discriminate.
  - vm_compute. reflexivity.
  - vm_compute. reflexivity.
Defined.

End FirstRequestWitnesses.

(* ====================================================================== *)
(** * Formatting parsed notes and parsing them again *)
(* ====================================================================== *)

Section RoundTrip.
Import Js.
Import AtomicNoteParser.
Import Observe.

Lemma whiteSpace_not_hash (w : ascii) :
  isWhiteSpace w = true -> Ascii.eqb "#" w = false.
Proof. destruct w as [[] [] [] [] [] [] [] []]; vm_compute; congruence. Qed.

Lemma lineTerminator_whiteSpace (c : ascii) :
  isLineTerminator c = true -> isWhiteSpace c = true.
Proof. destruct c as [[] [] [] [] [] [] [] []]; vm_compute; congruence. Qed.

Lemma headingAhead_mono (r x : string) :
  headingAhead r = true -> headingAhead (r ++ x) = true.
Proof.
  unfold headingAhead.
  destruct r as [|a [|b [|c [|d r]]]]; cbn [startsWith drop append];
    rewrite ?andb_false_r; try discriminate; auto.
Qed.

(** The lookahead reads four characters: behind the text [r], one
    white space is as good as another. *)
Lemma headingAhead_ws_ctx (r : string) (w w' : ascii) (x x' : string) :
  isWhiteSpace w = true -> isWhiteSpace w' = true ->
  headingAhead (r ++ String w x) = headingAhead (r ++ String w' x').
Proof.
  intros W W'. unfold headingAhead.
  destruct r as [|a [|b [|c [|d r]]]]; cbn [startsWith drop append];
    rewrite ?(whiteSpace_not_hash _ W), ?(whiteSpace_not_hash _ W'), ?W, ?W';
    cbn [andb]; rewrite ?andb_false_r; reflexivity.
Qed.

Lemma splitSections_first (s : string) :
  exists p q,
    s = p ++ q
    /\ innerCutFree p q = true
    /\ ((q = EmptyString /\ splitSections s = [p])
        \/ (headingAhead q = true /\ endsWithWhiteSpace p = true
            /\ splitSections s = p :: splitSections q)).
Proof.
  induction s as [|c s (p & q & E & I & H)].
  - exists EmptyString, EmptyString. repeat split. left. split; reflexivity.
  - cbn [splitSections]. destruct (isLineTerminator c && headingAhead s) eqn:Cut.
    + exists (String c EmptyString), s. split; [reflexivity|]. split; [reflexivity|].
      right. apply andb_true_iff in Cut as [L A]. split; [exact A|].
      split; [|reflexivity]. cbn. now apply lineTerminator_whiteSpace.
    + exists (String c p), q. split; [cbn; now rewrite <- E|]. split.
      * cbn [innerCutFree]. rewrite I, andb_true_r. unfold cutHere.
        rewrite <- E, Cut. apply orb_true_r.
      * destruct H as [[-> H]|(A & W & H)]; rewrite H.
        -- left. split; reflexivity.
        -- right. split; [exact A|]. split; [|reflexivity].
           cbn [endsWithWhiteSpace]. destruct p; [discriminate W|exact W].
Qed.

Lemma splitSections_closed (s : string) :
  cutFreeIn s EmptyString = true -> splitSections s = [s].
Proof.
  induction s as [|c s IH]; [reflexivity|].
  cbn [cutFreeIn splitSections]. unfold cutHere. rewrite append_nil_r.
  intros H. apply andb_true_iff in H as [C H]. apply negb_true_iff in C.
  now rewrite C, (IH H).
Qed.

Lemma splitSections_nonempty (s : string) : splitSections s <> [].
Proof.
  destruct s as [|c s]; [discriminate|]. cbn [splitSections].
  destruct (isLineTerminator c && headingAhead s); [discriminate|].
  destruct (splitSections s); discriminate.
Qed.

(** Text without a cut, in front of text that goes on, joins the first
    section of that text. *)
Lemma splitSections_glue (a ctx : string) :
  cutFreeIn a ctx = true ->
  splitSections (a ++ ctx)
  = match splitSections ctx with
    | piece :: pieces => (a ++ piece) :: pieces
    | [] => [a]
    end.
Proof.
  induction a as [|c a IH]; intros H.
  - cbn [append]. destruct (splitSections ctx) eqn:E; [|reflexivity].
    now destruct (splitSections_nonempty ctx).
  - cbn [cutFreeIn] in H. apply andb_true_iff in H as [C H].
    apply negb_true_iff in C. unfold cutHere in C.
    cbn [append splitSections]. rewrite C, (IH H).
    destruct (splitSections ctx) eqn:E; [|reflexivity].
    now destruct (splitSections_nonempty ctx).
Qed.

Lemma cutFreeIn_app (a b ctx : string) :
  cutFreeIn (a ++ b) ctx = cutFreeIn a (b ++ ctx) && cutFreeIn b ctx.
Proof.
  induction a as [|c a IH]; [reflexivity|].
  cbn [append cutFreeIn]. now rewrite IH, append_assoc, andb_assoc.
Qed.

Lemma innerCutFree_app_r (a b ctx : string) :
  innerCutFree (a ++ b) ctx = true -> innerCutFree b ctx = true.
Proof.
  induction a as [|c a IH]; [auto|].
  cbn [append innerCutFree]. intros H. apply andb_true_iff in H as [_ H]. auto.
Qed.

Lemma endsWithWhiteSpace_app (a b : string) :
  b <> EmptyString -> endsWithWhiteSpace (a ++ b) = endsWithWhiteSpace b.
Proof.
  intros N. induction a as [|c a IH]; [reflexivity|].
  cbn [append endsWithWhiteSpace]. rewrite IH.
  destruct (a ++ b) eqn:E; [|reflexivity].
  destruct a; [cbn in E; congruence|discriminate].
Qed.

Lemma allWs_trimEnd (x : string) :
  allChars isWhiteSpace x = true -> trimEnd x = EmptyString.
Proof.
  induction x as [|c x IH]; [reflexivity|].
  cbn [allChars trimEnd]. intros H. apply andb_true_iff in H as [C H].
  now rewrite (IH H), C.
Qed.

Lemma trimEnd_app_ws (a x : string) :
  allChars isWhiteSpace x = true -> trimEnd (a ++ x) = trimEnd a.
Proof.
  intros H. induction a as [|c a IH]; [now apply allWs_trimEnd|].
  cbn [append trimEnd]. now rewrite IH.
Qed.

(** What [trimEnd] removes is white space. *)
Lemma trimEnd_split (s : string) :
  exists post, s = trimEnd s ++ post /\ allChars isWhiteSpace post = true.
Proof.
  induction s as [|c s (post & E & W)]; [now exists EmptyString|].
  cbn [trimEnd]. destruct (isWhiteSpace c && isEmpty (trimEnd s)) eqn:B.
  - apply andb_true_iff in B as [C B]. apply isEmpty_true in B.
    rewrite B in E. cbn [append] in E. subst post.
    exists (String c s). split; [reflexivity|]. cbn [allChars]. now rewrite C, W.
  - exists post. split; [cbn; now rewrite <- E|exact W].
Qed.

Lemma endsWithWhiteSpace_trimEnd (s : string) :
  endsWithWhiteSpace (trimEnd s) = false.
Proof.
  induction s as [|c s IH]; [reflexivity|].
  cbn [trimEnd]. destruct (isWhiteSpace c) eqn:C; cbn [andb].
  - destruct (trimEnd s) eqn:E; cbn [isEmpty]; [reflexivity|].
    cbn [endsWithWhiteSpace isEmpty]. exact IH.
  - cbn [endsWithWhiteSpace]. destruct (trimEnd s) eqn:E; cbn [isEmpty];
      [exact C|exact IH].
Qed.

(** No cut falls inside a trimmed section. *)
Lemma closed_trimEnd (t q : string) :
  innerCutFree t q = true -> cutFreeIn (trimEnd t) EmptyString = true.
Proof.
  induction t as [|d r IH]; [reflexivity|].
  cbn [innerCutFree trimEnd]. intros H. apply andb_true_iff in H as [H I].
  destruct (isWhiteSpace d && isEmpty (trimEnd r)); [reflexivity|].
  cbn [cutFreeIn]. rewrite (IH I), andb_true_r, append_nil_r.
  apply negb_true_iff. unfold cutHere.
  destruct (isLineTerminator d) eqn:L; [|reflexivity]. cbn [andb].
  destruct (headingAhead (trimEnd r)) eqn:A; [|reflexivity].
  destruct (trimEnd_split r) as (post & E & _).
  pose proof (headingAhead_mono _ (post ++ q) A) as A'.
  rewrite <- append_assoc, <- E in A'.
  unfold cutHere in H. rewrite L, A' in H. cbn [andb negb] in H.
  rewrite orb_false_r in H. apply isEmpty_true in H. subst r. discriminate.
Qed.

(** Nor when the trimmed section of a piece that ends in white space
    is followed by a line feed. *)
Lemma sealed_trimEnd (t q : string) :
  innerCutFree t q = true ->
  endsWithWhiteSpace t = true ->
  cutFreeIn (trimEnd t) nl = true.
Proof.
  induction t as [|d r IH]; [reflexivity|].
  cbn [innerCutFree trimEnd endsWithWhiteSpace].
  intros H W. apply andb_true_iff in H as [H I].
  destruct (isWhiteSpace d && isEmpty (trimEnd r)) eqn:B; [reflexivity|].
  cbn [cutFreeIn].
  destruct r as [|e r'] eqn:R.
  { cbn [trimEnd append cutFreeIn]. unfold cutHere.
    now rewrite andb_false_r. }
  rewrite <- R in *. cbn [isEmpty] in W, H.
  assert (Er : isEmpty r = false) by (rewrite R; reflexivity).
  rewrite Er in W, H. cbn [orb] in H.
  rewrite (IH I W), andb_true_r.
  apply negb_true_iff. unfold cutHere.
  destruct (isLineTerminator d) eqn:L; [|reflexivity]. cbn [andb].
  destruct (headingAhead (trimEnd r ++ nl)) eqn:A; [|reflexivity].
  destruct (trimEnd_split r) as (post & E & Wp).
  destruct post as [|w post'].
  - rewrite append_nil_r in E.
    pose proof (endsWithWhiteSpace_trimEnd r) as T. rewrite <- E in T. congruence.
  - cbn [allChars] in Wp. apply andb_true_iff in Wp as [Ww _].
    unfold nl in A.
    rewrite (headingAhead_ws_ctx _ _ w EmptyString (post' ++ q)) in A;
      [|reflexivity|exact Ww].
    change (String w (post' ++ q)) with (String w post' ++ q) in A.
    rewrite <- append_assoc, <- E in A.
    unfold cutHere in H. rewrite L, A in H. discriminate.
Qed.

Lemma cutFreeIn_ws_ctx (s : string) (w w' : ascii) (x x' : string) :
  isWhiteSpace w = true -> isWhiteSpace w' = true ->
  cutFreeIn s (String w x) = cutFreeIn s (String w' x').
Proof.
  intros W W'. induction s as [|c s IH]; [reflexivity|].
  cbn [cutFreeIn]. unfold cutHere.
  now rewrite IH, (headingAhead_ws_ctx s w w' x x' W W').
Qed.

(** The section of a piece, as [parse] sees it. *)
Lemma trim_of_piece (p q : string) :
  innerCutFree p q = true ->
  cutFreeIn (trim p) EmptyString = true
  /\ (endsWithWhiteSpace p = true -> trim p <> EmptyString ->
      cutFreeIn (trim p) nl = true).
Proof.
  intros I. destruct (trimStart_suffix p) as [pre E].
  rewrite E in I. apply innerCutFree_app_r in I. unfold trim. split.
  - exact (closed_trimEnd _ _ I).
  - intros W N. apply (sealed_trimEnd _ q I).
    destruct (trimStart p) eqn:T; [now destruct N|].
    rewrite E in W. rewrite endsWithWhiteSpace_app in W; [exact W|discriminate].
Qed.

Lemma trimStart_hash (s : string) :
  startsWith s "###" = true -> trimStart s = s.
Proof.
  destruct s as [|c s]; [discriminate|]. cbn [startsWith trimStart].
  intros H. apply andb_true_iff in H as [H _]. apply Ascii.eqb_eq in H. now subst c.
Qed.

Lemma trim_followed_by_blank_line (r : string) :
  startsWith r "###" = true -> trim r = r -> trim (r ++ nl ++ nl) = r.
Proof.
  intros S T. unfold trim in *.
  rewrite (trimStart_hash _ S) in T.
  rewrite trimStart_hash by (apply startsWith_app_l; exact S).
  now rewrite trimEnd_app_ws.
Qed.

Lemma trimEnd_hashes (x : string) : trimEnd ("###" ++ x) = "###" ++ trimEnd x.
Proof. reflexivity. Qed.

(** A note of a piece with the heading marker ahead starts a section
    again wherever its raw text is put. *)
Lemma headed_of_piece (p : string) (note : AtomicNote.t) :
  headingAhead p = true ->
  parseSection (trim p) = Some note ->
  headed note.
Proof.
  intros A P rest.
  destruct (parseSection_some _ _ P) as (_ & _ & _ & R).
  rewrite trim_idem in R. rewrite R. clear R.
  unfold headingAhead in A. apply andb_true_iff in A as [S W].
  unfold trim in *. rewrite (trimStart_hash _ S) in *.
  apply startsWith_inv in S. cbn [String.length] in S.
  remember (drop 3 p) as tail eqn:Et. clear Et. subst p.
  destruct tail as [|w t]; [discriminate|].
  rewrite trimEnd_hashes in *.
  cbn [trimEnd] in *. rewrite W in *. cbn [andb] in *.
  destruct (isEmpty (trimEnd t)).
  - vm_compute in P. discriminate.
  - cbn. now rewrite W.
Qed.

Lemma parseSections_cons (piece : string) (pieces : list string) :
  parseSections (piece :: pieces) = (noteOf piece ++ parseSections pieces)%list.
Proof.
  cbn [parseSections]. unfold noteOf. cbv zeta.
  destruct (negb (startsWith (trim piece) "###")); [reflexivity|].
  now destruct (parseSection (trim piece)).
Qed.

Lemma noteOf_some (piece : string) (note : AtomicNote.t) :
  In note (noteOf piece) ->
  noteOf piece = [note]
  /\ startsWith (trim piece) "###" = true
  /\ parseSection (trim piece) = Some note
  /\ AtomicNote.raw note = trim piece.
Proof.
  unfold noteOf. cbv zeta.
  destruct (startsWith (trim piece) "###") eqn:S; cbn [negb]; [|intros []].
  destruct (parseSection (trim piece)) as [n|] eqn:P; [|intros []].
  intros [->|[]]. repeat split.
  destruct (parseSection_some _ _ P) as (_ & _ & _ & R).
  now rewrite trim_idem in R.
Qed.

Lemma formatForVault_cons (n n2 : AtomicNote.t) (more : list AtomicNote.t) :
  formatForVault (n :: n2 :: more)
  = (AtomicNote.raw n ++ nl)
    ++ String (ascii_of_nat 10) (formatForVault (n2 :: more)).
Proof.
  unfold formatForVault. cbn [map].
  change (join (AtomicNote.raw n :: AtomicNote.raw n2 :: map AtomicNote.raw more)
               (nl ++ nl))
    with (AtomicNote.raw n ++ (nl ++ nl)
          ++ join (AtomicNote.raw n2 :: map AtomicNote.raw more) (nl ++ nl)).
  rewrite (append_assoc (AtomicNote.raw n) nl). reflexivity.
Qed.

Lemma headingAhead_format (n2 : AtomicNote.t) (more : list AtomicNote.t) :
  headed n2 -> headingAhead (formatForVault (n2 :: more)) = true.
Proof.
  intros H. destruct more as [|n3 more].
  - unfold formatForVault. cbn [map join].
    rewrite <- (append_nil_r (AtomicNote.raw n2)). apply H.
  - rewrite formatForVault_cons, append_assoc. apply H.
Qed.

Lemma split_format (n n2 : AtomicNote.t) (more : list AtomicNote.t) :
  cutFreeIn (AtomicNote.raw n) nl = true ->
  headed n2 ->
  splitSections (formatForVault (n :: n2 :: more))
  = (AtomicNote.raw n ++ nl ++ nl) :: splitSections (formatForVault (n2 :: more)).
Proof.
  intros C H. rewrite formatForVault_cons.
  pose proof (headingAhead_format n2 more H) as A.
  rewrite splitSections_glue.
  - cbn [splitSections]. change (isLineTerminator (ascii_of_nat 10)) with true.
    rewrite A. cbn [andb]. now rewrite append_assoc.
  - rewrite cutFreeIn_app. apply andb_true_iff. split.
    + unfold nl at 1. cbn [append].
      rewrite (cutFreeIn_ws_ctx _ _ (ascii_of_nat 10) _ EmptyString);
        [exact C|reflexivity|reflexivity].
    + reflexivity.
Qed.

(** One round of the loop, seen from the formatted notes. *)
Lemma round_trip_step (piece : string) (tail : list AtomicNote.t) :
  cutFreeIn (trim piece) EmptyString = true ->
  (tail <> [] -> cutFreeIn (trim piece) nl = true) ->
  parse (formatForVault tail) = tail ->
  Forall headed tail ->
  parse (formatForVault (noteOf piece ++ tail)) = (noteOf piece ++ tail)%list.
Proof.
  intros Closed Sealed RT Hd.
  destruct (noteOf piece) as [|n [|]] eqn:N; [exact RT| |].
  2:{ destruct (noteOf_some piece n) as (N' & _); [rewrite N; now left|].
      rewrite N in N'. discriminate. }
  destruct (noteOf_some piece n) as (_ & S & P & R); [rewrite N; now left|].
  cbn [app]. destruct tail as [|n2 more].
  - unfold formatForVault. cbn [map join]. unfold parse. rewrite R.
    rewrite (splitSections_closed _ Closed). cbn [parseSections].
    now rewrite trim_idem, S, P.
  - unfold parse. rewrite split_format.
    + cbn [parseSections]. rewrite R.
      rewrite (trim_followed_by_blank_line _ S (trim_idem piece)), S, P. cbn [negb].
      f_equal. exact RT.
    + rewrite R. apply Sealed. discriminate.
    + now inversion Hd.
Qed.

Lemma hash_not_whiteSpace (c : ascii) :
  Ascii.eqb "#" c = true -> isWhiteSpace c = false.
Proof. intros H%Ascii.eqb_eq. now subst c. Qed.

Lemma headingAhead_prefix (p q : string) :
  headingAhead (p ++ q) = true -> endsWithWhiteSpace p = true -> headingAhead p = true.
Proof.
  unfold headingAhead. intros H W.
  destruct p as [|a [|b [|c [|d p]]]];
    cbn [append startsWith drop endsWithWhiteSpace isEmpty] in *;
    [discriminate| | | |exact H];
    exfalso; apply andb_true_iff in H as [H _].
  - apply andb_true_iff in H as [H _].
    apply hash_not_whiteSpace in H. congruence.
  - apply andb_true_iff in H as [_ H]. apply andb_true_iff in H as [H _].
    apply hash_not_whiteSpace in H. congruence.
  - apply andb_true_iff in H as [_ H]. apply andb_true_iff in H as [_ H].
    apply andb_true_iff in H as [H _].
    apply hash_not_whiteSpace in H. congruence.
Qed.

Lemma round_trip_aux (n : nat) (s : string) :
  String.length s <= n ->
  parse (formatForVault (parse s)) = parse s
  /\ (headingAhead s = true -> Forall headed (parse s)).
Proof.
  revert s. induction n as [|n IH]; intros s Hs.
  { destruct s; [|cbn in Hs; lia]. split; [reflexivity|discriminate]. }
  destruct (splitSections_first s) as (p & q & E & I & H).
  destruct (trim_of_piece p q I) as [Closed Sealed].
  assert (Hn : forall note, In note (noteOf p) -> trim p <> EmptyString).
  { intros note Hin. destruct (noteOf_some _ _ Hin) as (_ & S & _).
    intros Z. rewrite Z in S. discriminate. }
  destruct H as [[-> H]|(A & W & H)].
  - rewrite append_nil_r in E. subst p.
    assert (Ps : parse s = (noteOf s ++ [])%list)
      by (unfold parse; rewrite H; apply parseSections_cons).
    rewrite Ps. split.
    + apply round_trip_step; auto; congruence.
    + intros Ah. rewrite app_nil_r. apply Forall_forall. intros note Hin.
      destruct (noteOf_some _ _ Hin) as (_ & _ & P & _).
      exact (headed_of_piece _ _ Ah P).
  - assert (Lq : String.length q <= n).
    { apply (f_equal String.length) in E. rewrite length_append in E.
      destruct p; [discriminate|]. cbn [String.length] in E. lia. }
    destruct (IH q Lq) as [RT Hd]. specialize (Hd A).
    assert (Ps : parse s = (noteOf p ++ parse q)%list)
      by (unfold parse; rewrite H; apply parseSections_cons).
    rewrite Ps. split.
    + apply round_trip_step; auto.
      intros _. destruct (noteOf p) as [|note rest] eqn:N.
      * destruct (trim p) eqn:T; [reflexivity|]. apply Sealed; [exact W|discriminate].
      * apply Sealed; [exact W|]. apply (Hn note). now left.
    + intros Ah. apply Forall_app. split; [|exact Hd].
      apply Forall_forall. intros note Hin.
      destruct (noteOf_some _ _ Hin) as (_ & _ & P & _).
      rewrite E in Ah.
      exact (headed_of_piece _ _ (headingAhead_prefix _ _ Ah W) P).
Qed.

(** X16.  Formatting the notes of a model output for the vault and parsing
    the result gives the same notes again; the display format is the
    same text. *)
Theorem parse_formatForVault_round_trip (modelOutput : string) :
  parse (formatForVault (parse modelOutput)) = parse modelOutput
  /\ formatForDisplay (parse modelOutput) = formatForVault (parse modelOutput).
Proof.
  split; [|reflexivity].
  exact (proj1 (round_trip_aux (String.length modelOutput) modelOutput (le_n _))).
Qed.

End RoundTrip.

Section ParsedNotes.
Import Js.
Import AtomicNoteParser.

Lemma isNewline_eqb (c : ascii) : isNewline c = Ascii.eqb (ascii_of_nat 10) c.
Proof. destruct c as [[] [] [] [] [] [] [] []]; reflexivity. Qed.

Lemma includes_nl_cons (c : ascii) (s : string) :
  includes (String c s) nl = Ascii.eqb (ascii_of_nat 10) c || includes s nl.
Proof. unfold nl. cbn [includes startsWith]. now rewrite andb_true_r. Qed.

Lemma startsWith_blank_cons (c : ascii) (s : string) :
  startsWith (String c s) (nl ++ nl) = Ascii.eqb (ascii_of_nat 10) c && startsWith s nl.
Proof. reflexivity. Qed.

(** The lines of a split hold no line feed. *)
Lemma split_lines_no_newline (s line : string) :
  In line (split s (ascii_of_nat 10)) -> includes line nl = false.
Proof.
  revert line. induction s as [|c s IH]; intros line; cbn [split].
  - intros [<-|[]]. reflexivity.
  - destruct (Ascii.eqb c (ascii_of_nat 10)) eqn:E.
    + intros [<-|H]; [reflexivity|exact (IH _ H)].
    + destruct (split s (ascii_of_nat 10)) as [|piece pieces].
      * intros [<-|[]]. rewrite includes_nl_cons, Ascii.eqb_sym, E. reflexivity.
      * intros [<-|H].
        -- rewrite includes_nl_cons, Ascii.eqb_sym, E. apply IH. now left.
        -- apply IH. now right.
Qed.

Lemma glue_no_blank (x y : string) :
  includes x nl = false ->
  includes y (nl ++ nl) = false ->
  startsWith y nl = false ->
  includes (x ++ nl ++ y) (nl ++ nl) = false.
Proof.
  intros X Y S. induction x as [|c x IH].
  - change (EmptyString ++ nl ++ y) with (String (ascii_of_nat 10) y).
    cbn [includes]. rewrite startsWith_blank_cons, S, Y. now rewrite andb_false_r.
  - rewrite includes_nl_cons in X. apply orb_false_iff in X as [C X].
    cbn [append includes]. rewrite startsWith_blank_cons, C, (IH X). reflexivity.
Qed.

Lemma startsWith_nl_false (x : string) :
  x <> EmptyString -> includes x nl = false -> startsWith x nl = false.
Proof.
  destruct x as [|c x]; [congruence|]. intros _ H.
  rewrite includes_nl_cons in H. apply orb_false_iff in H as [C _].
  unfold nl. cbn [startsWith]. now rewrite C.
Qed.

Lemma includes_blank_false (x : string) :
  includes x nl = false -> includes x (nl ++ nl) = false.
Proof.
  induction x as [|c x IH]; [reflexivity|]. intros H.
  rewrite includes_nl_cons in H. apply orb_false_iff in H as [C X].
  cbn [includes]. rewrite startsWith_blank_cons, C, (IH X). reflexivity.
Qed.

(** Joining non-empty lines with single line feeds leaves no blank
    line. *)
Lemma join_lines_no_blank (lines : list string) :
  (forall line, In line lines -> includes line nl = false /\ line <> EmptyString) ->
  includes (join lines nl) (nl ++ nl) = false
  /\ startsWith (join lines nl) nl = false.
Proof.
  induction lines as [|x [|y rest] IH]; intros H.
  - split; reflexivity.
  - destruct (H x (or_introl eq_refl)) as [X N]. cbn [join].
    split; [now apply includes_blank_false|now apply startsWith_nl_false].
  - destruct (H x (or_introl eq_refl)) as [X N].
    destruct IH as [B S]; [intros line L; apply H; now right|].
    change (join (x :: y :: rest) nl) with (x ++ nl ++ join (y :: rest) nl).
    split; [now apply glue_no_blank|].
    destruct x as [|c x]; [congruence|].
    rewrite includes_nl_cons in X. apply orb_false_iff in X as [C _].
    unfold nl at 3. cbn [append startsWith]. now rewrite C.
Qed.

Lemma In_tl {A} (x : A) (l : list A) : In x (tl l) -> In x l.
Proof. destruct l; [intros []|now right]. Qed.

(** What a returned note looks like. *)
Lemma parseSection_shape (section : string) (note : AtomicNote.t) :
  parseSection section = Some note ->
  trim (AtomicNote.heading note) = AtomicNote.heading note
  /\ trim (AtomicNote.content note) = AtomicNote.content note
  /\ includes (AtomicNote.content note) (nl ++ nl) = false
  /\ trim (AtomicNote.raw note) = AtomicNote.raw note.
Proof.
  unfold parseSection.
  destruct (List.length (split section (ascii_of_nat 10)) <? 2); [discriminate|].
  destruct (isEmpty (trim (stripHeadingMarker _))) eqn:Hh; [discriminate|].
  destruct (isEmpty (trim (join _ nl))) eqn:Hc; [discriminate|].
  intros [= <-]. cbn [AtomicNote.heading AtomicNote.content AtomicNote.raw].
  rewrite !trim_idem. repeat split.
  apply includes_trim_false, join_lines_no_blank.
  intros line L. apply filter_In in L as [L B]. split.
  - apply (split_lines_no_newline section). now apply In_tl.
  - intros ->. discriminate.
Qed.

Lemma splitParagraphs_single (s : string) :
  includes s (nl ++ nl) = false -> splitParagraphs s = [s].
Proof.
  unfold splitParagraphs. induction s as [|c s IH]; [reflexivity|].
  cbn [includes]. rewrite startsWith_blank_cons. intros H.
  apply orb_false_iff in H as [S H].
  cbn [splitParagraphsFrom andb]. rewrite isNewline_eqb, S.
  now rewrite (IH H).
Qed.

Lemma parse_note_section (text : string) (note : AtomicNote.t) :
  In note (parse text) ->
  exists piece,
    In piece (splitSections text)
    /\ startsWith (trim piece) "###" = true
    /\ parseSection (trim piece) = Some note.
Proof.
  unfold parse. generalize (splitSections text) as sections.
  induction sections as [|section rest IH]; [contradiction|].
  cbn [parseSections].
  destruct (startsWith (trim section) "###") eqn:S; cbn [negb].
  - destruct (parseSection (trim section)) as [n|] eqn:P.
    + intros [->|H].
      * exists section. split; [now left|]. split; assumption.
      * destruct (IH H) as (s & Hs & P'). exists s. split; [now right|exact P'].
    + intros H. destruct (IH H) as (s & Hs & P'). exists s. split; [now right|exact P'].
  - intros H. destruct (IH H) as (s & Hs & P'). exists s. split; [now right|exact P'].
Qed.

Lemma parsed_note_facts (text : string) (note : AtomicNote.t) :
  In note (parse text) ->
  (exists pre post, text = pre ++ AtomicNote.raw note ++ post)
  /\ startsWith (AtomicNote.raw note) "###" = true
  /\ parseSection (AtomicNote.raw note) = Some note
  /\ trim (AtomicNote.raw note) = AtomicNote.raw note
  /\ trim (AtomicNote.heading note) = AtomicNote.heading note
  /\ trim (AtomicNote.content note) = AtomicNote.content note
  /\ includes (AtomicNote.content note) (nl ++ nl) = false.
Proof.
  intros H. destruct (parse_note_section _ _ H) as (piece & Hin & S & P).
  destruct (parseSection_shape _ _ P) as (Th & Tc & B & Tr).
  destruct (parseSection_some _ _ P) as (_ & _ & _ & R).
  rewrite trim_idem in R.
  split; [|repeat split; try assumption; rewrite R; assumption].
  destruct (piece_of_concat _ _ Hin) as (pre & post & E).
  rewrite splitSections_concat in E.
  destruct (trim_inside piece) as (pre' & post' & E').
  rewrite R. exists (pre ++ pre'), (post' ++ post).
  rewrite E, E' at 1. now rewrite !append_assoc.
Qed.

(** X17.  Every note that [parse] returns is a section of the model output:
    its raw text occurs verbatim in the output, starts with the heading
    marker and has no surrounding white space; parsing the raw text
    again gives the same note; heading and content are trimmed, and
    the content holds no blank line. *)
Theorem parsed_note_is_a_verbatim_section (text : string) (note : AtomicNote.t) :
  In note (parse text) ->
  (exists pre post, text = pre ++ AtomicNote.raw note ++ post)
  /\ startsWith (AtomicNote.raw note) "###" = true
  /\ parseSection (AtomicNote.raw note) = Some note
  /\ trim (AtomicNote.raw note) = AtomicNote.raw note
  /\ trim (AtomicNote.heading note) = AtomicNote.heading note
  /\ trim (AtomicNote.content note) = AtomicNote.content note
  /\ includes (AtomicNote.content note) (nl ++ nl) = false.
Proof. exact (parsed_note_facts text note). Qed.

Section Validating.
Variable hostname : string -> option string.

Lemma paragraphs_of_parsed_note (text : string) (note : AtomicNote.t) :
  In note (parse text) ->
  (2 <? List.length
          (filter (fun p => negb (isEmpty (trim p)))
             (splitParagraphs (AtomicNote.content note)))) = false.
Proof.
  intros H. destruct (parsed_note_facts _ _ H) as (_ & _ & _ & _ & _ & _ & B).
  rewrite (splitParagraphs_single _ B). cbn [filter].
  now destruct (negb (isEmpty (trim (AtomicNote.content note)))).
Qed.

(** X18.  The two-paragraph check of [validate] never fires for a note
    that came out of [parse]: the parser has already dropped every
    blank line of the content. *)
Theorem validate_never_reports_paragraphs_of_parsed_note
        (text articleUrl : string) (note : AtomicNote.t) :
  In note (parse text) ->
  ~ In "Contains multiple paragraphs (may not be atomic)"
       (ValidationResult.issues (validate hostname note articleUrl)).
Proof.
  intros H. unfold validate. cbv zeta. cbn [ValidationResult.issues].
  rewrite (paragraphs_of_parsed_note _ _ H).
  rewrite !in_app_iff.
  repeat match goal with
         | |- context [if ?b then _ else _] => destruct b
         end; cbn [In]; intuition discriminate.
Qed.

(** X19.  A parsed note with a heading of 10 to 100 characters, a
    content of 50 to 1000 characters and a link, whose content
    mentions the article URL, is valid - whatever the URL parser says
    about the URL. *)
Theorem parsed_note_in_range_is_valid
        (text articleUrl : string) (note : AtomicNote.t) :
  In note (parse text) ->
  10 <= String.length (AtomicNote.heading note) <= 100 ->
  50 <= String.length (AtomicNote.content note) <= 1000 ->
  AtomicNote.hasLink note = true ->
  includes (AtomicNote.content note) articleUrl = true ->
  validate hostname note articleUrl = ValidationResult.mk true [].
Proof.
  intros H [H1 H2] [C1 C2] L U. unfold validate. cbv zeta.
  rewrite (paragraphs_of_parsed_note _ _ H), L, U.
  apply Nat.ltb_ge in H1, C1. rewrite H1, C1.
  assert (H2' : (100 <? String.length (AtomicNote.heading note)) = false)
    by (apply Nat.ltb_ge; lia).
  assert (C2' : (1000 <? String.length (AtomicNote.content note)) = false)
    by (apply Nat.ltb_ge; lia).
  rewrite H2', C2'. reflexivity.
Qed.

End Validating.

End ParsedNotes.

Section ParsedNotesWitnesses.
Import Js.
Import AtomicNoteParser.
Import Fixtures.

Lemma parsed_note_is_a_verbatim_section_witness :
  In theNote (parse modelOutput)
  /\ startsWith (AtomicNote.raw theNote) "###" = true
  /\ parseSection (AtomicNote.raw theNote) = Some theNote
  /\ includes (AtomicNote.content theNote) (nl ++ nl) = false.
Proof.
  assert (H : In theNote (parse modelOutput)) by (vm_compute; left; reflexivity).
  split; [exact H|].
  destruct (parsed_note_is_a_verbatim_section modelOutput theNote H)
    as (_ & S & P & _ & _ & _ & B).
  split; [exact S|]. split; [exact P|exact B].
Defined.

Lemma validate_never_reports_paragraphs_of_parsed_note_witness :
  In theNote (parse modelOutput)
  /\ ~ In "Contains multiple paragraphs (may not be atomic)"
          (ValidationResult.issues
             (validate (fun _ => None) theNote "https://example.org/other")).
Proof.
  assert (H : In theNote (parse modelOutput)) by (vm_compute; left; reflexivity).
  split; [exact H|].
  exact (validate_never_reports_paragraphs_of_parsed_note
           (fun _ => None) modelOutput "https://example.org/other" theNote H).
Defined.

Lemma parsed_note_in_range_is_valid_witness :
  validate (fun _ => None) theNote "https://example.com/article"
  = ValidationResult.mk true [].
Proof.
  apply (parsed_note_in_range_is_valid (fun _ => None) modelOutput).
  - vm_compute. left. reflexivity.
  - vm_compute. split; [apply Nat.leb_le|apply Nat.leb_le]; reflexivity.
  - vm_compute. split; [apply Nat.leb_le|apply Nat.leb_le]; reflexivity.
  - reflexivity.
  - vm_compute. reflexivity.
Defined.

End ParsedNotesWitnesses.

Section Cleaning.
Import Js.
Import Observe.
Import ArticleExtractor.

Lemma collapseWhiteSpace_chars (inRun : bool) (s : string) :
  allChars blankOrInk (collapseWhiteSpace inRun s) = true.
Proof.
  revert inRun. induction s as [|c s IH]; intros inRun; [reflexivity|].
  cbn [collapseWhiteSpace]. destruct (isWhiteSpace c) eqn:W.
  - destruct inRun; [apply IH|]. cbn [allChars]. rewrite IH.
    unfold blankOrInk. now rewrite Ascii.eqb_refl, orb_true_r.
  - cbn [allChars]. rewrite IH. unfold blankOrInk. now rewrite W.
Qed.

Lemma startsWith_two_blanks (c : ascii) (s : string) :
  startsWith (String c s) "  " = Ascii.eqb " " c && startsWith s " ".
Proof. reflexivity. Qed.

Lemma blank_is_whiteSpace (c : ascii) :
  Ascii.eqb " " c = true -> isWhiteSpace c = true.
Proof. intros H%Ascii.eqb_eq. now subst c. Qed.

Lemma collapseWhiteSpace_single (inRun : bool) (s : string) :
  includes (collapseWhiteSpace inRun s) "  " = false
  /\ (inRun = true -> startsWith (collapseWhiteSpace inRun s) " " = false).
Proof.
  revert inRun. induction s as [|c s IH]; intros inRun.
  - split; [reflexivity|]. reflexivity.
  - cbn [collapseWhiteSpace]. destruct (isWhiteSpace c) eqn:W.
    + destruct inRun.
      * apply IH.
      * destruct (IH true) as [N S]. split; [|discriminate].
        cbn [includes]. rewrite startsWith_two_blanks, (S eq_refl), N.
        now rewrite andb_false_r.
      + destruct (IH false) as [N _].
        assert (B : Ascii.eqb " " c = false).
        { destruct (Ascii.eqb " " c) eqn:B; [|reflexivity].
          apply blank_is_whiteSpace in B. congruence. }
        split.
        * cbn [includes]. now rewrite startsWith_two_blanks, B, N.
        * intros _. cbn [startsWith]. now rewrite B.
Qed.

Lemma newline_is_not_ink (c : ascii) :
  blankOrInk c = true -> (nat_of_ascii c =? 10) = false.
Proof. destruct c as [[] [] [] [] [] [] [] []]; vm_compute; congruence. Qed.

(** After the white-space rule no line feed is left, so the line-feed
    rule has nothing to rewrite. *)
Lemma collapseNewlines_idle (seen : nat) (s : string) :
  allChars blankOrInk s = true -> collapseNewlines seen s = s.
Proof.
  revert seen. induction s as [|c s IH]; intros seen; [reflexivity|].
  cbn [allChars collapseNewlines]. intros H. apply andb_true_iff in H as [C H].
  now rewrite (newline_is_not_ink _ C), (IH 0 H).
Qed.

Lemma blankOrInk_whiteSpace (c : ascii) :
  blankOrInk c = true -> isWhiteSpace c = true -> Ascii.eqb " " c = true.
Proof.
  unfold blankOrInk. intros H W. rewrite W in H. cbn [negb orb] in H.
  now rewrite Ascii.eqb_sym.
Qed.

(** Text whose only white space is single blanks is left alone. *)
Lemma collapseWhiteSpace_idle (inRun : bool) (s : string) :
  allChars blankOrInk s = true ->
  includes s "  " = false ->
  (inRun = true -> startsWith s " " = false) ->
  collapseWhiteSpace inRun s = s.
Proof.
  revert inRun. induction s as [|c s IH]; intros inRun; [reflexivity|].
  cbn [allChars includes collapseWhiteSpace]. rewrite startsWith_two_blanks.
  intros H N S. apply andb_true_iff in H as [C H].
  apply orb_false_iff in N as [D N].
  destruct (isWhiteSpace c) eqn:W.
  - pose proof (blankOrInk_whiteSpace _ C W) as B. rewrite B in D. cbn [andb] in D.
    destruct inRun.
    + specialize (S eq_refl). cbn [startsWith] in S. rewrite B in S. discriminate.
    + apply Ascii.eqb_eq in B. subst c. f_equal. apply IH; auto.
  - f_equal. apply IH; auto. discriminate.
Qed.

Lemma cleanContent_eq (text : string) :
  cleanContent text = trim (collapseWhiteSpace false text).
Proof.
  unfold cleanContent.
  now rewrite (collapseNewlines_idle 0 _ (collapseWhiteSpace_chars false text)).
Qed.

Lemma trimStart_no_blank (s : string) :
  startsWith (trimStart s) " " = false.
Proof.
  induction s as [|c s IH]; [reflexivity|].
  cbn [trimStart]. destruct (isWhiteSpace c) eqn:W; [exact IH|].
  cbn [startsWith]. destruct (Ascii.eqb " " c) eqn:B; [|reflexivity].
  apply blank_is_whiteSpace in B. congruence.
Qed.

Lemma trimEnd_keeps_start (s : string) :
  startsWith s " " = false -> startsWith (trimEnd s) " " = false.
Proof.
  destruct s as [|c s]; [reflexivity|]. cbn [startsWith trimEnd].
  rewrite andb_true_r. intros B.
  destruct (isWhiteSpace c && isEmpty (trimEnd s)); [reflexivity|].
  cbn [startsWith]. now rewrite B.
Qed.

(** X20.  [cleanContent] flattens the text: its result holds no white space
    other than single blanks - no line feed or tab, no two blanks in a
    row, none at either end - so the rule for runs of line feeds never
    applies; and cleaning a cleaned text changes nothing. *)
Theorem cleanContent_flattens (text : string) :
  allChars blankOrInk (cleanContent text) = true
  /\ includes (cleanContent text) nl = false
  /\ includes (cleanContent text) "  " = false
  /\ trim (cleanContent text) = cleanContent text
  /\ cleanContent text = trim (collapseWhiteSpace false text)
  /\ cleanContent (cleanContent text) = cleanContent text.
Proof.
  rewrite !cleanContent_eq.
  set (u := trim (collapseWhiteSpace false text)).
  assert (A : allChars blankOrInk u = true)
    by apply allChars_trim, collapseWhiteSpace_chars.
  assert (N : includes u "  " = false)
    by apply includes_trim_false, collapseWhiteSpace_single.
  assert (S : startsWith u " " = false)
    by apply trimEnd_keeps_start, trimStart_no_blank.
  split; [exact A|]. split.
  { clear N S. induction u as [|c u IH]; [reflexivity|].
    cbn [allChars] in A. apply andb_true_iff in A as [C A].
    unfold nl. cbn [includes startsWith]. fold nl. rewrite (IH A).
    rewrite andb_true_r, orb_false_r.
    revert C. destruct c as [[] [] [] [] [] [] [] []]; vm_compute; congruence. }
  split; [exact N|]. split; [apply trim_idem|]. split; [reflexivity|].
  rewrite (collapseWhiteSpace_idle false u A N); [apply trim_idem|discriminate].
Qed.

End Cleaning.

Section Preview.
Import Js.
Import ApprovalModal.

(** X21.  A preview is the text itself when it fits, and otherwise a trimmed
    part of the first [maxLength] characters followed by three dots: in
    both cases at most [maxLength + 3] characters. *)
Theorem truncateText_bounded (text : string) (maxLength : Z) :
  (0 <= maxLength)%Z ->
  (Z.of_nat (String.length (truncateText text maxLength)) <= maxLength + 3)%Z
  /\ (truncateText text maxLength = text
      \/ exists kept pre post,
           truncateText text maxLength = kept ++ "..."
           /\ take (Z.to_nat maxLength) text = pre ++ kept ++ post
           /\ trim kept = kept).
Proof.
  intros M. unfold truncateText.
  destruct (Z.leb_spec (Z.of_nat (String.length text)) maxLength) as [Le|Gt].
  - split; [lia|now left].
  - rewrite slice_from_zero.
    assert (R : Z.to_nat (relIndex (Z.of_nat (String.length text)) maxLength)
                = Z.to_nat maxLength).
    { unfold relIndex. destruct (Z.ltb_spec maxLength 0); lia. }
    rewrite R. split.
    + rewrite length_append.
      pose proof (length_trim (take (Z.to_nat maxLength) text)) as T.
      rewrite length_take in T. cbn [String.length]. lia.
    + right. destruct (trim_inside (take (Z.to_nat maxLength) text))
        as (pre & post & E).
      exists (trim (take (Z.to_nat maxLength) text)), pre, post.
      split; [reflexivity|]. split; [exact E|apply trim_idem].
Qed.

Lemma truncateText_bounded_witness :
  truncateText "Practice runs let an agent fail cheaply." 14 = "Practice runs..."
  /\ (Z.of_nat (String.length
                  (truncateText "Practice runs let an agent fail cheaply." 14))
      <= 14 + 3)%Z.
Proof.
  split; [vm_compute; reflexivity|].
  apply (truncateText_bounded "Practice runs let an agent fail cheaply." 14). lia.
Defined.

End Preview.

(* ====================================================================== *)
(** * Sessions that are cancelled, sessions that meet an HTTP error *)
(* ====================================================================== *)

Section LiveResults.
Import Observe.

Variable env : Env.
Variable config : OpenRouterClient.OpenRouterConfig.
Variable maxRounds : nat.
Variable article : ExtractedArticle.t.
Variable onProgress : bool.

Lemma checkCancelled_returned w a w' :
  checkCancelled w = (Returned a, w') -> w' = w /\ cancelled w' = false.
Proof.
  unfold checkCancelled. destruct (cancelled w) eqn:C; [discriminate|].
  intros [= _ <-]. auto.
Qed.

Lemma progress_returned update w a w' :
  progress onProgress update w = (Returned a, w') -> cancelled w' = cancelled w.
Proof. unfold progress. intros [= _ <-]. now destruct onProgress. Qed.

(** The alignment loop returns only with the token not set. *)
Lemma alignmentLoop_live fuel round prompt gpt claude w r w' :
  cancelled w = false ->
  InterpretationPhase.alignmentLoop env config maxRounds article onProgress
    fuel round prompt gpt claude w = (Returned r, w') ->
  cancelled w' = false.
Proof.
  revert round gpt claude w.
  induction fuel as [|fuel IH]; intros round gpt claude w C E;
    cbn [InterpretationPhase.alignmentLoop] in E;
    destruct (round <? maxRounds);
    try discriminate;
    try (injection E as _ Ew; rewrite <- Ew; exact C).
  apply bind_inv in E as (_ & w1 & _ & E).
  apply bind_inv in E as (_ & w2 & _ & E).
  apply bind_inv in E as (claudeResponse & w3 & _ & E).
  apply bind_inv in E as (ttw4 & w4 & K & E).
  apply checkCancelled_returned in K as [Kw K].
  destruct (InterpretationPhase.isAligned claudeResponse);
    [injection E as _ Ew; rewrite <- Ew; exact K|].
  destruct (maxRounds <=? round + 1); [injection E as _ Ew; rewrite <- Ew; exact K|].
  apply bind_inv in E as (gptResponse & w5 & _ & E).
  apply bind_inv in E as (ttw6 & w6 & K' & E).
  apply checkCancelled_returned in K' as [Kw' K'].
  destruct (InterpretationPhase.isAligned gptResponse);
    [injection E as _ Ew; rewrite <- Ew; exact K'|].
  exact (IH _ _ _ _ K' E).
Qed.

Lemma interpretation_run_live w r w' :
  InterpretationPhase.run env config maxRounds article onProgress w = (Returned r, w') ->
  cancelled w' = false.
Proof.
  intros E. unfold InterpretationPhase.run in E. cbv zeta in E.
  apply bind_inv in E as (_ & w1 & _ & E).
  apply bind_inv in E as (_ & w2 & _ & E).
  apply bind_inv in E as (both & w3 & _ & E).
  apply bind_inv in E as (ttw4 & w4 & K & E).
  apply checkCancelled_returned in K as [Kw K].
  exact (alignmentLoop_live _ _ _ _ _ _ _ _ K E).
Qed.

Lemma refinementLoop_live fuel round draftPrompt currentDraft notes entries w r w' :
  cancelled w = false ->
  RefinementLoop.refinementLoop env config maxRounds article onProgress
    fuel round draftPrompt currentDraft notes entries w = (Returned r, w') ->
  cancelled w' = false.
Proof.
  revert round currentDraft notes entries w.
  induction fuel as [|fuel IH]; intros round currentDraft notes entries w C E;
    cbn [RefinementLoop.refinementLoop] in E;
    destruct (round <? maxRounds);
    try discriminate;
    try (injection E as _ Ew; rewrite <- Ew; exact C).
  apply bind_inv in E as (_ & w1 & _ & E).
  apply bind_inv in E as (_ & w2 & _ & E).
  apply bind_inv in E as (critique & w3 & _ & E).
  apply bind_inv in E as (ttw4 & w4 & K & E).
  apply checkCancelled_returned in K as [Kw K].
  cbv zeta in E.
  destruct (RefinementLoop.isAccepted _); [injection E as _ Ew; rewrite <- Ew; exact K|].
  destruct (maxRounds <=? round + 1); [injection E as _ Ew; rewrite <- Ew; exact K|].
  apply bind_inv in E as (_ & w5 & _ & E).
  apply bind_inv in E as (revised & w6 & _ & E).
  apply bind_inv in E as (ttw7 & w7 & K' & E).
  apply checkCancelled_returned in K' as [Kw' K'].
  exact (IH _ _ _ _ _ K' E).
Qed.

Lemma refinement_run_live interpretation w r w' :
  RefinementLoop.run env config maxRounds article onProgress interpretation w
  = (Returned r, w') ->
  cancelled w' = false.
Proof.
  intros E. unfold RefinementLoop.run in E.
  apply bind_inv in E as (_ & w1 & _ & E).
  apply bind_inv in E as (_ & w2 & _ & E).
  cbv zeta in E.
  apply bind_inv in E as (currentDraft & w3 & _ & E).
  apply bind_inv in E as (ttw4 & w4 & K & E).
  apply checkCancelled_returned in K as [Kw K].
  exact (refinementLoop_live _ _ _ _ _ _ _ _ _ K E).
Qed.

End LiveResults.

Section CancelledSessions.
Import Observe.
Import DialogueOrchestrator.

Variable env : Env.
Variable settings : DistillSettings.t.
Variable article : ExtractedArticle.t.
Variable onProgress : bool.

(** X22.  A session during which the user cancels never ends as complete:
    when [process] is done with the token set, the result is in the
    error phase and carries no notes.  (A session that completes has the
    token not set.) *)
Theorem cancelled_session_never_completes w :
  match process env settings article onProgress w with
  | (Returned result, w') =>
      (cancelled w' = false
       /\ DialogueState.phase (DialogueResult.state result) = DialoguePhase.complete)
      \/ (DialogueState.phase (DialogueResult.state result) = DialoguePhase.error
          /\ DialogueResult.atomicNotes result = [])
  | _ => False
  end.
Proof.
  unfold process, tryBlock. cbv zeta.
  destruct (InterpretationPhase.run _ _ _ _ _ _) as [[ir|e|] w1] eqn:E1.
  - destruct (cancelled w1); [right; split; reflexivity|].
    destruct (RefinementLoop.run _ _ _ _ _ _ _) as [[rr|e|] w2] eqn:E2.
    + left. split; [exact (refinement_run_live _ _ _ _ _ _ _ _ _ E2)|reflexivity].
    + right. split; reflexivity.
    + destruct (Sound_elim env _ _ _ _
                  (refinement_run_sound env _ _ _ _ _) E2) as (N & _). congruence.
  - right. split; reflexivity.
  - destruct (Sound_elim env _ _ _ _
                (interpretation_run_sound env _ _ _ _) E1) as (N & _). congruence.
Qed.

End CancelledSessions.

Section HttpErrors.
Import Js.
Import Observe.
Import OpenRouterClient.
Import DialogueOrchestrator.

Variable env : Env.

(** A status other than 200 that is not retryable ends [chat] at the
    first request, with the error of [handleHttpError]. *)
Lemma chat_http_error config role messages w response :
  cancelled w = false ->
  transport env (clock w) (requestOf config (modelOf config role) messages)
  = Responded response ->
  RequestUrlResponse.status response <> 200 ->
  retryableStatus (RequestUrlResponse.status response) = false ->
  chat env config role messages w
  = (Thrown (handleHttpError response),
     suspend env
       (record (EvRequest (clock w) role
                  (requestOf config (modelOf config role) messages)) w)).
Proof.
  intros C T N R. rewrite chat_unfold, chatAttempts_unfold.
  change (0 <? API.MAX_RETRIES) with true. cbv iota.
  unfold bind at 1. unfold checkCancelled. rewrite C.
  unfold bind at 1. unfold tryCatch.
  pose proof (makeRequest_world env config role (modelOf config role) messages w) as W.
  assert (F : fst (makeRequest env config role (modelOf config role) messages w)
              = Thrown (handleHttpError response)).
  { unfold makeRequest, readResponse, bind, requestUrl, throw.
    fold (Observe.requestOf config (modelOf config role) messages). rewrite T.
    apply Nat.eqb_neq in N. now rewrite N. }
  destruct (makeRequest env config role (modelOf config role) messages w) as [o w1].
  cbn [fst snd] in W, F. subst o w1.
  unfold handleHttpError at 1. cbv zeta. cbn [isRetryableError].
  rewrite retryableStatus_codes, R. reflexivity.
Qed.

Variable settings : DistillSettings.t.
Variable article : ExtractedArticle.t.
Variable onProgress : bool.

(** X23.  When every request is answered with the same status, other than
    200 and not retryable (401, say), and nobody cancels: [process] makes
    the two initial requests, one for each model, counts no call and
    returns the error phase with the message for that status - the one
    of the table of [handleHttpError], or the generic one with the
    number. *)
Theorem process_reports_http_error w status :
  cancelled w = false ->
  NeverCancels env ->
  status <> 200 ->
  retryableStatus status = false ->
  (forall k request, exists body,
      transport env k request = Responded (RequestUrlResponse.mk status body)) ->
  exists result w' evs,
    process env settings article onProgress w = (Returned result, w')
    /\ DialogueState.phase (DialogueResult.state result) = DialoguePhase.error
    /\ DialogueState.error (DialogueResult.state result)
       = Some (match errorMessages status with
               | Some message => message
               | None => "Request failed with status " ++ numberToString status
               end)
    /\ DialogueResult.atomicNotes result = []
    /\ DialogueResult.totalApiCalls result = callCount w
    /\ trace w' = (trace w ++ evs)%list
    /\ requestRoles evs = [drafter; critic].
Proof.
  intros C N S R T.
  unfold process, tryBlock. cbv zeta.
  set (w0 := snd (progress onProgress _ w)).
  destruct (progress_world env onProgress
              (ProgressUpdate.mk DialoguePhase.interpreting (Some 1) (Some 3)
                 "Starting interpretation phase...") w)
    as (C0 & K0 & Cc0 & evs0 & T0 & _ & R0 & _).
  fold w0 in C0, K0, Cc0, T0.
  unfold InterpretationPhase.run. cbv zeta.
  rewrite bind_progress.
  set (u1 := ProgressUpdate.mk DialoguePhase.interpreting (Some 1) _ _).
  destruct (progress_world env onProgress u1 w0)
    as (C1 & K1 & Cc1 & evs1 & T1 & _ & R1 & _).
  set (w1 := snd (progress onProgress u1 w0)) in *.
  rewrite bind_checkCancelled by congruence.
  set (prompt := replace (replace InterpretationPhase.INTERPRETATION_PROMPT _ _) _ _).
  assert (C1' : cancelled w1 = false) by congruence.
  destruct (T (clock w1)
              (requestOf (clientConfig settings)
                 (modelOf (clientConfig settings) drafter)
                 [ChatMessage.mk user prompt])) as [body1 Tr1].
  destruct (T (Datatypes.S (clock w1))
              (requestOf (clientConfig settings)
                 (modelOf (clientConfig settings) critic)
                 [ChatMessage.mk user prompt])) as [body2 Tr2].
  destruct (promiseAll_http_errors env (clientConfig settings)
              drafter [ChatMessage.mk user prompt]
              critic [ChatMessage.mk user prompt] w1 _ _ C1' Tr1 Tr2 S R S R)
    as (response & w3 & E & Which & Cc3 & T3 & _).
  unfold bind at 1. rewrite E.
  eexists. exists w3. eexists.
  split; [reflexivity|].
  unfold catchBlock. cbn [DialogueResult.state DialogueResult.atomicNotes
    DialogueResult.totalApiCalls setError initialState DialogueState.phase
    DialogueState.error DialogueState.currentDraft errorMessage].
  split; [reflexivity|].
  split; [destruct Which as [-> | ->]; reflexivity|].
  split; [reflexivity|].
  split; [congruence|].
  rewrite T3, T1, T0, <- !app_assoc. split; [reflexivity|].
  rewrite !requestRoles_app, R0, R1. reflexivity.
Qed.

End HttpErrors.

Section HttpErrorWitness.
Import Fixtures.
Import Observe.
Import DialogueOrchestrator.

Lemma process_reports_http_error_witness :
  let env := scripted [] (httpError 401) in
  exists result w' evs,
    process env (settings 3 3) article true freshWorld = (Returned result, w')
    /\ DialogueState.phase (DialogueResult.state result) = DialoguePhase.error
    /\ DialogueState.error (DialogueResult.state result)
       = Some "Invalid API key. Please check your OpenRouter API key in settings."
    /\ DialogueResult.atomicNotes result = []
    /\ DialogueResult.totalApiCalls result = 0
    /\ trace w' = evs
    /\ requestRoles evs = [drafter; critic].
Proof.
  intros env.
  apply (process_reports_http_error env (settings 3 3) article true freshWorld 401).
  - reflexivity.
  - intros k. reflexivity.
  - discriminate.
  - reflexivity.
  - intros k request. eexists. cbn. destruct k; reflexivity.
Defined.

End HttpErrorWitness.

(* ====================================================================== *)
(** * Writing the notes to the inbox *)
(* ====================================================================== *)

Section Inbox.
Import Js.
Import AtomicNoteParser.
Import InboxWriter.

Variable normalizePath : string -> string.
Variable settings : DistillSettings.t.
Variable date : string.
Variable time : string.

Lemma join_cons (x : string) (rest : list string) (sep : string) :
  rest <> [] -> join (x :: rest) sep = x ++ sep ++ join rest sep.
Proof. destruct rest; [congruence|reflexivity]. Qed.

(** The notes of a section, each followed by an empty line. *)
Lemma join_notes_then_rule (notes : list AtomicNote.t) :
  join (flat_map (fun note => [AtomicNote.raw note; EmptyString]) notes
        ++ ["---"; EmptyString])%list nl
  = match notes with
    | [] => EmptyString
    | _ => formatForVault notes ++ nl ++ nl
    end ++ "---" ++ nl.
Proof.
  induction notes as [|n notes IH]; [reflexivity|].
  cbn [flat_map app].
  rewrite join_cons by discriminate. rewrite join_cons by (destruct notes; discriminate).
  rewrite IH. destruct notes as [|n2 more].
  - unfold formatForVault. cbn [map join append]. now rewrite !append_assoc.
  - change (formatForVault (n :: n2 :: more))
      with (AtomicNote.raw n ++ (nl ++ nl) ++ formatForVault (n2 :: more)).
    cbn [append]. now rewrite !append_assoc.
Qed.

Lemma formatNotesSection_eq (notes : list AtomicNote.t) (source : ExtractedArticle.t) :
  formatNotesSection date time notes source
  = nl ++ "## Distilled: " ++ ExtractedArticle.title source ++ nl ++ nl
    ++ "<!-- Source: " ++ ExtractedArticle.url source ++ " -->" ++ nl
    ++ "<!-- Distilled on: " ++ date ++ " at " ++ time ++ " -->" ++ nl ++ nl
    ++ match notes with
       | [] => EmptyString
       | _ => formatForVault notes ++ nl ++ nl
       end ++ "---" ++ nl.
Proof.
  unfold formatNotesSection. cbv zeta. cbn [app].
  repeat (rewrite join_cons by discriminate).
  rewrite join_cons by (destruct notes; discriminate).
  rewrite join_notes_then_rule. cbn [append]. now rewrite !append_assoc.
Qed.

(** X24.  [append] loses nothing.  It fails only when the inbox path holds
    a folder, and then leaves the vault as it is.  Otherwise the inbox
    holds what it held before - the initial content if it did not exist
    - followed by one section: the title and source lines, the notes in
    vault format followed by an empty line (nothing for no notes), and
    the rule; the other paths are untouched. *)
Theorem append_extends_the_inbox (notes : list AtomicNote.t)
        (source : ExtractedArticle.t) (vault : Vault) :
  let inboxPath := normalizePath (DistillSettings.inboxPath settings) in
  match append normalizePath settings date time notes source vault with
  | (None, vault') =>
      exists before,
        (vault inboxPath = Some (TFile before)
         \/ (vault inboxPath = None /\ before = getInitialContent))
        /\ vault' inboxPath
           = Some (TFile
               (before
                ++ nl ++ "## Distilled: " ++ ExtractedArticle.title source ++ nl ++ nl
                ++ "<!-- Source: " ++ ExtractedArticle.url source ++ " -->" ++ nl
                ++ "<!-- Distilled on: " ++ date ++ " at " ++ time ++ " -->"
                ++ nl ++ nl
                ++ match notes with
                   | [] => EmptyString
                   | _ => formatForVault notes ++ nl ++ nl
                   end ++ "---" ++ nl))
        /\ forall path, path <> inboxPath -> vault' path = vault path
  | (Some e, vault') =>
      vault inboxPath = Some TFolder
      /\ e = Error (inboxPath ++ " is not a file")
      /\ vault' = vault
  end.
Proof.
  cbv zeta. unfold append. cbv zeta.
  destruct (vault (normalizePath (DistillSettings.inboxPath settings)))
    as [[before|]|] eqn:V; cbn [fst snd].
  - exists before. split; [now left|]. split.
    + unfold write. rewrite String.eqb_refl. now rewrite formatNotesSection_eq.
    + intros path N. unfold write. apply String.eqb_neq in N. now rewrite N.
  - repeat split.
  - exists getInitialContent. split; [now right|]. split.
    + unfold write. rewrite String.eqb_refl. now rewrite formatNotesSection_eq.
    + intros path N. unfold write. apply String.eqb_neq in N. now rewrite N.
Qed.

End Inbox.

(* ====================================================================== *)
(** * The client without retries, beside the client with retries *)
(* ====================================================================== *)

Section LegacyClient.
Import Js.
Import Observe.

Variable env : Env.
Variable config : OpenRouterClient.OpenRouterConfig.
Variable textOf : RequestUrlResponse.t -> string.
Variable failureAt : nat -> option string.

Local Abbreviation legacyChat :=
  (LegacyOpenRouterClient.chat env config textOf failureAt).

Lemma legacy_readResponse response w :
  let o := fst (LegacyOpenRouterClient.readResponse textOf response w) in
  let w' := snd (LegacyOpenRouterClient.readResponse textOf response w) in
  o <> OutOfFuel
  /\ trace w' = trace w /\ clock w' = clock w
  /\ callCount w'
     = callCount w + (if isReadable (Responded response) then 1 else 0)
  /\ (forall content, o = Returned content -> content <> EmptyString).
Proof.
  cbv zeta. unfold LegacyOpenRouterClient.readResponse, isReadable.
  cbv zeta. destruct response as [status body].
  cbn [RequestUrlResponse.status RequestUrlResponse.json].
  destruct (status =? 200); cbn [negb andb].
  2:{ unfold throw. cbn [fst snd].
      split; [discriminate|]. repeat split; try lia. discriminate. }
  destruct body as [m|[choices err]].
  { unfold throw. cbn [fst snd].
    split; [discriminate|]. repeat split; try lia. discriminate. }
  unfold bind, incrementCallCount, throw, ret.
  cbn [OpenRouterResponse.choices].
  destruct choices as [[|content rest]|].
  - cbn [fst snd trace clock callCount].
    split; [discriminate|]. repeat split; try lia. discriminate.
  - destruct (isEmpty content) eqn:E; cbn [fst snd trace clock callCount];
      (split; [discriminate|]); repeat split; try lia; try discriminate.
    intros c [= <-] ->. discriminate.
  - cbn [fst snd trace clock callCount].
    split; [discriminate|]. repeat split; try lia. discriminate.
Qed.

Lemma legacy_chat_general role messages w :
  let request := requestOf config (modelOf config role) messages in
  let o := fst (legacyChat role messages w) in
  let w' := snd (legacyChat role messages w) in
  o <> OutOfFuel
  /\ trace w' = (trace w ++ [EvRequest (clock w) role request])%list
  /\ clock w' = S (clock w)
  /\ callCount w'
     = callCount w + (if isReadable (transport env (clock w) request) then 1 else 0)
  /\ (forall content, o = Returned content -> content <> EmptyString).
Proof.
  intros request. cbv zeta.
  destruct (legacyChat role messages w) as [o w'] eqn:E. cbn [fst snd].
  revert E. unfold LegacyOpenRouterClient.chat. cbv zeta.
  fold (modelOf config role).
  change (RequestUrlParam.mk ("Bearer " ++ OpenRouterClient.apiKey config)
            (modelOf config role) messages 4096) with request.
  unfold bind at 1. unfold requestUrl.
  destruct (transport env (clock w) request) as [|response].
  { destruct (failureAt (clock w)); unfold throw; intros [= <- <-];
      cbn [suspend record trace clock callCount isReadable];
      (split; [discriminate|]); repeat split; try lia; discriminate. }
  unfold bind at 1. unfold tryCatch.
  set (w1 := suspend env (record (EvRequest (clock w) role request) w)).
  destruct (legacy_readResponse response w1) as (N & T & K & C & R).
  destruct (LegacyOpenRouterClient.readResponse textOf response w1)
    as [[content|e|] w2]; cbn [fst snd] in *; [| |congruence];
    unfold ret, throw; intros [= <- <-];
    (split; [discriminate|]); rewrite T, K, C; subst w1;
    cbn [suspend record trace clock callCount]; repeat split.
  - intros c [= <-]. exact (R content eq_refl).
  - discriminate.
Qed.

(** X25.  The client without retries makes exactly one request per [chat],
    whatever the answer and whether or not the token is set; it never
    sleeps.  It counts the call exactly when the answer has status 200
    and a JSON body - before it looks for the content. *)
Theorem legacy_chat_is_one_request role messages w :
  let request := requestOf config (modelOf config role) messages in
  let o := fst (legacyChat role messages w) in
  let w' := snd (legacyChat role messages w) in
  o <> OutOfFuel
  /\ trace w' = (trace w ++ [EvRequest (clock w) role request])%list
  /\ clock w' = S (clock w)
  /\ callCount w'
     = callCount w + (if isReadable (transport env (clock w) request) then 1 else 0)
  /\ (forall content, o = Returned content -> content <> EmptyString).
Proof. exact (legacy_chat_general role messages w). Qed.

(** X26.  An answer with status 200 and a JSON body that holds no usable
    content (no choices, or an empty first content; no error envelope):
    both clients throw after one request, but the client without
    retries has counted a call and the client with retries has not. *)
Theorem clients_count_unusable_answers_differently role messages w response data :
  cancelled w = false ->
  transport env (clock w) (requestOf config (modelOf config role) messages)
  = Responded response ->
  RequestUrlResponse.status response = 200 ->
  RequestUrlResponse.json response = Parsed data ->
  OpenRouterResponse.error data = None ->
  malformedBody (Parsed data) = true ->
  (exists e w', legacyChat role messages w = (Thrown e, w')
                /\ callCount w' = S (callCount w))
  /\ (exists e w', OpenRouterClient.chat env config role messages w = (Thrown e, w')
                   /\ callCount w' = callCount w
                   /\ trace w'
                      = (trace w
                         ++ [EvRequest (clock w) role
                               (requestOf config (modelOf config role) messages)])%list).
Proof.
  intros C T S J Er M. split.
  - pose proof (legacy_chat_general role messages w) as L. cbv zeta in L.
    destruct L as (N & _ & _ & Cc & R).
    rewrite T in Cc. unfold isReadable in Cc. rewrite S, J in Cc.
    change (200 =? 200) with true in Cc. cbn [andb] in Cc.
    destruct (legacyChat role messages w) as [[content|e|] w'] eqn:E;
      cbn [fst snd] in *; [|exists e, w'; split; [reflexivity|lia]|congruence].
    exfalso. revert E.
    unfold LegacyOpenRouterClient.chat. cbv zeta.
    fold (modelOf config role). unfold bind at 1. unfold requestUrl.
    change (RequestUrlParam.mk ("Bearer " ++ OpenRouterClient.apiKey config)
              (modelOf config role) messages 4096)
      with (requestOf config (modelOf config role) messages).
    rewrite T. unfold bind at 1, tryCatch, LegacyOpenRouterClient.readResponse.
    cbv zeta. rewrite S, J. cbn [Nat.eqb negb].
    unfold bind, incrementCallCount, throw, ret.
    destruct data as [choices err]. cbn in Er, M. subst err.
    cbn [OpenRouterResponse.choices malformedBody OpenRouterResponse.error] in *.
    destruct choices as [[|c rest]|]; try discriminate.
    rewrite M. discriminate.
  - assert (Tm : isTerminalFailure
                   (transport env (clock w)
                      (requestOf config (modelOf config role) messages)) = true).
    { rewrite T. unfold isTerminalFailure. cbv zeta. now rewrite S, J. }
    rewrite chat_unfold, chatAttempts_unfold.
    change (0 <? API.MAX_RETRIES) with true. cbv iota.
    unfold bind at 1. unfold checkCancelled. rewrite C.
    unfold bind at 1. unfold tryCatch.
    pose proof (makeRequest_world env config role (modelOf config role) messages w)
      as W.
    destruct (makeRequest_terminal env config role (modelOf config role) messages w Tm)
      as (e & R & Re).
    destruct (OpenRouterClient.makeRequest env config role (modelOf config role)
                messages w) as [o1 w1].
    cbn [fst snd] in W, R. subst o1 w1. rewrite Re. unfold throw.
    exists e. eexists. split; [reflexivity|].
    cbn [suspend record trace callCount]. split; reflexivity.
Qed.

(** X27.  The client without retries finds the kind of an error by looking
    for digits in its message: any answer with a status other than 200
    whose text mentions 401 is reported as an invalid API key, whatever
    the status is. *)
Theorem legacy_chat_reads_digits_of_the_error_text role messages w response :
  transport env (clock w) (requestOf config (modelOf config role) messages)
  = Responded response ->
  RequestUrlResponse.status response <> 200 ->
  includes (textOf response) "401" = true ->
  fst (legacyChat role messages w)
  = Thrown (Error "Invalid API key. Please check your OpenRouter API key in settings.").
Proof.
  intros T S I.
  unfold LegacyOpenRouterClient.chat. cbv zeta.
  fold (modelOf config role). unfold bind at 1. unfold requestUrl.
  change (RequestUrlParam.mk ("Bearer " ++ OpenRouterClient.apiKey config)
            (modelOf config role) messages 4096)
    with (requestOf config (modelOf config role) messages).
  rewrite T. unfold bind at 1, tryCatch, LegacyOpenRouterClient.readResponse.
  cbv zeta. apply Nat.eqb_neq in S. rewrite S. cbn [negb]. unfold throw.
  cbn [fst errorMessage]. unfold LegacyOpenRouterClient.mapError.
  assert (E : isEmpty (textOf response) = false)
    by (destruct (textOf response); [discriminate|reflexivity]).
  rewrite E.
  destruct (includes_inv _ _ I) as (pre & post & P).
  rewrite (includes_inside _ ("OpenRouter API error ("
                              ++ numberToString (RequestUrlResponse.status response)
                              ++ "): " ++ pre) "401" post "401");
    [reflexivity| |reflexivity].
  rewrite P at 1. now rewrite !append_assoc.
Qed.

End LegacyClient.

Section LegacyClientWitnesses.
Import Js.
Import Observe.
Import Fixtures.

Lemma clients_count_unusable_answers_differently_witness :
  let env := scripted [] (Responded (RequestUrlResponse.mk 200
                            (Parsed (OpenRouterResponse.mk (Some []) None)))) in
  (exists e w',
      LegacyOpenRouterClient.chat env config (fun _ => EmptyString) (fun _ => None)
        critic [ChatMessage.mk user "Hello"] freshWorld = (Thrown e, w')
      /\ callCount w' = 1)
  /\ (exists e w',
         OpenRouterClient.chat env config critic [ChatMessage.mk user "Hello"] freshWorld
         = (Thrown e, w')
         /\ callCount w' = 0
         /\ List.length (trace w') = 1).
Proof.
  intros env.
  destruct (clients_count_unusable_answers_differently env config
              (fun _ => EmptyString) (fun _ => None)
              critic [ChatMessage.mk user "Hello"] freshWorld
              (RequestUrlResponse.mk 200 (Parsed (OpenRouterResponse.mk (Some []) None)))
              (OpenRouterResponse.mk (Some []) None))
    as [L (e & w' & E & C & T)]; try reflexivity.
  split; [exact L|]. exists e, w'. split; [exact E|]. split; [exact C|].
  now rewrite T.
Defined.

Lemma legacy_chat_reads_digits_of_the_error_text_witness :
  let env := scripted [] (httpError 500) in
  fst (LegacyOpenRouterClient.chat env config
         (fun _ => "upstream took 4012 ms") (fun _ => None)
         drafter [ChatMessage.mk user "Hello"] freshWorld)
  = Thrown (Error "Invalid API key. Please check your OpenRouter API key in settings.").
Proof.
  intros env.
  apply (legacy_chat_reads_digits_of_the_error_text env config
           (fun _ => "upstream took 4012 ms") (fun _ => None)
           drafter [ChatMessage.mk user "Hello"] freshWorld (RequestUrlResponse.mk 500
             (Unparseable "Unexpected end of JSON input"))).
  - reflexivity.
  - discriminate.
  - vm_compute. reflexivity.
Defined.

End LegacyClientWitnesses.

(* ====================================================================== *)
(** * Progress reports *)
(* ====================================================================== *)

Section Emitting.
Import Observe.

Variable env : Env.
Variable P : Event -> Prop.

Lemma Emits_quiet {A} (m : M A) :
  (forall w, trace (snd (m w)) = trace w) -> Emits P m.
Proof. intros H w. exists []. rewrite H, app_nil_r. auto. Qed.

Lemma Emits_ret {A} (a : A) : Emits P (ret a).
Proof. now apply Emits_quiet. Qed.

Lemma Emits_throw {A} (e : JsError) : Emits P (@throw A e).
Proof. now apply Emits_quiet. Qed.

Lemma Emits_outOfFuel {A} : Emits P (@outOfFuel A).
Proof. now apply Emits_quiet. Qed.

Lemma Emits_checkCancelled : Emits P checkCancelled.
Proof. apply Emits_quiet. intros w. unfold checkCancelled. now destruct (cancelled w). Qed.

Lemma Emits_progress (onProgress : bool) (update : ProgressUpdate.t) :
  P (EvProgress update) -> Emits P (progress onProgress update).
Proof.
  intros H w. destruct onProgress; cbn.
  - exists [EvProgress update]. auto.
  - exists []. rewrite app_nil_r. auto.
Qed.

Lemma Emits_bind {A B} (m : M A) (k : A -> M B) :
  Emits P m -> (forall a, Emits P (k a)) -> Emits P (bind m k).
Proof.
  intros Hm Hk w. unfold bind. destruct (Hm w) as (evs1 & T1 & F1).
  destruct (m w) as [[a|e|] w1]; cbn [snd] in *; eauto.
  destruct (Hk a w1) as (evs2 & T2 & F2).
  exists (evs1 ++ evs2)%list. rewrite T2, T1, app_assoc. split; [reflexivity|].
  apply Forall_app. auto.
Qed.

Hypothesis requests : forall tick role request, P (EvRequest tick role request).
Hypothesis sleeps : forall tick delay, P (EvSleep tick delay).

Lemma Emits_chatAttempts config role model messages fuel attempt lastError :
  Emits P (OpenRouterClient.chatAttempts env config fuel attempt lastError
             role model messages).
Proof.
  revert attempt lastError.
  induction fuel as [|fuel IH]; intros attempt lastError;
    cbn [OpenRouterClient.chatAttempts];
    destruct (attempt <? API.MAX_RETRIES);
    try apply Emits_throw; try apply Emits_outOfFuel.
  apply Emits_bind; [apply Emits_checkCancelled|intros _].
  apply Emits_bind.
  - intros w. unfold tryCatch.
    pose proof (makeRequest_world env config role model messages w) as W.
    destruct (OpenRouterClient.makeRequest env config role model messages w)
      as [[c|e|] w1]; cbn [snd] in *; subst w1;
      (eexists; split; [reflexivity|auto]).
  - intros [result|error].
    + apply Emits_bind; [now apply Emits_quiet|intros _; apply Emits_ret].
    + destruct (OpenRouterClient.isRetryableError error); [|apply Emits_throw].
      apply Emits_bind; [now apply Emits_quiet|intros random].
      apply Emits_bind; [|intros _; apply IH].
      intros w. eexists. split; [reflexivity|auto].
Qed.

Lemma Emits_chat config role messages :
  Emits P (OpenRouterClient.chat env config role messages).
Proof. apply Emits_chatAttempts. Qed.

Lemma Emits_promiseAll config call1 call2 :
  Emits P (OpenRouterClient.promiseAll env config call1 call2).
Proof.
  intros w.
  destruct (promiseAll_spec env config call1 call2 w)
    as (_ & _ & _ & _ & evs & T & F & _).
  exists evs. split; [exact T|].
  eapply Forall_impl; [|exact F].
  intros [u|tick role request|tick d]; cbn; [discriminate|auto|auto].
Qed.

End Emitting.

Section ProgressReports.
Import Observe.
Import DialogueOrchestrator.

Variable env : Env.
Variable settings : DistillSettings.t.
Variable article : ExtractedArticle.t.
Variable onProgress : bool.

Local Abbreviation config := (clientConfig settings).

Ltac emit_leaf :=
  first
    [ apply Emits_ret
    | apply Emits_outOfFuel
    | apply Emits_checkCancelled
    | apply Emits_chat; intros; exact I
    | apply Emits_progress; cbn; lia
    | apply Emits_progress; exact I ].

Ltac emit_bind :=
  apply Emits_bind;
  [ first [ emit_leaf | apply Emits_promiseAll; intros; exact I ] | intros ? ].

Lemma alignmentLoop_reports maxRounds fuel round prompt gpt claude :
  Emits progressInRange
    (InterpretationPhase.alignmentLoop env config maxRounds article onProgress
       fuel round prompt gpt claude).
Proof.
  revert round gpt claude.
  induction fuel as [|fuel IH]; intros round gpt claude;
    cbn [InterpretationPhase.alignmentLoop];
    destruct (Nat.ltb_spec round maxRounds) as [Lt|Ge];
    try emit_leaf.
  do 4 emit_bind.
  match goal with
  | |- context [InterpretationPhase.isAligned ?x] =>
      destruct (InterpretationPhase.isAligned x); [emit_leaf|]
  end.
  destruct (Nat.leb_spec maxRounds (round + 1)); [emit_leaf|].
  do 2 emit_bind.
  match goal with
  | |- context [InterpretationPhase.isAligned ?x] =>
      destruct (InterpretationPhase.isAligned x); [emit_leaf|apply IH]
  end.
Qed.

Lemma refinementLoop_reports maxRounds fuel round draftPrompt currentDraft notes
      entries :
  Emits progressInRange
    (RefinementLoop.refinementLoop env config maxRounds article onProgress
       fuel round draftPrompt currentDraft notes entries).
Proof.
  revert round currentDraft notes entries.
  induction fuel as [|fuel IH]; intros round currentDraft notes entries;
    cbn [RefinementLoop.refinementLoop];
    destruct (Nat.ltb_spec round maxRounds) as [Lt|Ge];
    try emit_leaf.
  do 4 emit_bind. cbv zeta.
  match goal with
  | |- context [RefinementLoop.isAccepted ?x] =>
      destruct (RefinementLoop.isAccepted x); [emit_leaf|]
  end.
  destruct (Nat.leb_spec maxRounds (round + 1)); [emit_leaf|].
  do 3 emit_bind. apply IH.
Qed.

(** X28.  With an interpretation budget of at least one round, every
    progress report of a session that names a round names one between 1
    and the number of rounds it announces: the progress shown never
    exceeds the whole. *)
Theorem progress_reports_stay_in_range w :
  1 <= DistillSettings.maxInterpretationRounds settings ->
  exists evs,
    trace (snd (process env settings article onProgress w)) = (trace w ++ evs)%list
    /\ Forall progressInRange evs.
Proof.
  intros B. unfold process, tryBlock. cbv zeta.
  set (u0 := ProgressUpdate.mk DialoguePhase.interpreting (Some 1) (Some 3)
               "Starting interpretation phase...").
  destruct (Emits_progress progressInRange onProgress u0 ltac:(cbn; lia) w)
    as (evs0 & T0 & F0).
  assert (R1 : Emits progressInRange
                 (InterpretationPhase.run env config
                    (DistillSettings.maxInterpretationRounds settings)
                    article onProgress)).
  { unfold InterpretationPhase.run. cbv zeta. do 4 emit_bind.
    apply alignmentLoop_reports. }
  destruct (R1 (snd (progress onProgress u0 w))) as (evs1 & T1 & F1).
  destruct (InterpretationPhase.run _ _ _ _ _ (snd (progress onProgress u0 w)))
    as [[r|e|] w1]; cbn [snd] in *;
    try (exists (evs0 ++ evs1)%list; rewrite T1, T0, app_assoc;
         split; [reflexivity|apply Forall_app; auto]).
  destruct (cancelled w1);
    [cbn [snd]; exists (evs0 ++ evs1)%list; rewrite T1, T0, app_assoc;
     split; [reflexivity|apply Forall_app; auto]|].
  set (u1 := ProgressUpdate.mk DialoguePhase.drafting None None
               "Starting drafting phase...").
  destruct (Emits_progress progressInRange onProgress u1 I w1) as (evs2 & T2 & F2).
  assert (R3 : Emits progressInRange
                 (RefinementLoop.run env config
                    (DistillSettings.maxRefinementRounds settings)
                    article onProgress
                    (InterpretationPhase.alignedInterpretation r))).
  { unfold RefinementLoop.run. do 2 emit_bind. cbv zeta.
    do 2 emit_bind. apply refinementLoop_reports. }
  destruct (R3 (snd (progress onProgress u1 w1))) as (evs3 & T3 & F3).
  destruct (RefinementLoop.run _ _ _ _ _ _ (snd (progress onProgress u1 w1)))
    as [[rr|e|] w3]; cbn [snd] in *;
    exists (evs0 ++ evs1 ++ evs2 ++ evs3)%list;
    rewrite T3, T2, T1, T0, <- !app_assoc;
    (split; [reflexivity|]); repeat (apply Forall_app; split); auto.
Qed.

End ProgressReports.

Section ProgressReportsWitness.
Import Observe.
Import Fixtures.
Import DialogueOrchestrator.

Lemma progress_reports_stay_in_range_witness :
  let env := scripted [] (ok "I see it differently.") in
  exists evs,
    trace (snd (process env (settings 3 3) article true freshWorld)) = evs
    /\ Forall progressInRange evs.
Proof.
  intros env.
  apply (progress_reports_stay_in_range env (settings 3 3) article true freshWorld).
  cbn. lia.
Defined.

End ProgressReportsWitness.

(* ====================================================================== *)
(** * Calls that run together *)
(* ====================================================================== *)

Section RunningTogether.
Import Js.
Import OpenRouterClient.
Import Observe.

Variable env : Env.
Variable config : OpenRouterConfig.

(** X29.  A call of [chat] that is awaited alone is the call run from one
    [await] to the next: entered, and resumed whenever its suspension
    ends, until it is settled, which it is within six suspensions (a
    request and a sleep for each of the three rounds). *)
Theorem chat_runs_from_await_to_await role messages w :
  chat env config role messages w
  = chatSettle env config (2 * API.MAX_RETRIES)
      (fst (chatStart config role messages w))
      (snd (chatStart config role messages w)).
Proof. exact (chat_by_steps env config role messages w). Qed.

Lemma chatSettle_resume fuel p w :
  chatSettle env config (S fuel) (Suspended p) w
  = chatSettle env config fuel (fst (chatResume env config p w))
      (snd (chatResume env config p w)).
Proof. cbn [chatSettle]. now destruct (chatResume env config p w). Qed.

Lemma chatSettle_settled fuel o w :
  chatSettle env config fuel (Settled o) w = (o, w).
Proof. now destruct fuel. Qed.

(** X30.  [Promise.all] is rejected at the first rejection and does not
    wait for the other call.  When the first request is answered with
    an error that is not retried, before the answer to the second one
    is read, [Promise.all] throws that error with the counter where it
    was and the second call in flight; the content that answers the
    second request is read and counted afterwards, when nobody awaits
    the call any more. *)
Theorem rejected_promiseAll_leaves_the_other_call_running
        role1 messages1 role2 messages2 w response content :
  let request1 := requestOf config (modelOf config role1) messages1 in
  let request2 := requestOf config (modelOf config role2) messages2 in
  cancelled w = false ->
  inFlight w = [] ->
  endsBefore env (clock w) (S (clock w)) = true ->
  transport env (clock w) request1 = Responded response ->
  RequestUrlResponse.status response <> 200 ->
  retryableStatus (RequestUrlResponse.status response) = false ->
  transport env (S (clock w)) request2
  = Responded (RequestUrlResponse.mk 200
                 (Parsed (OpenRouterResponse.mk (Some [content]) None))) ->
  isEmpty content = false ->
  exists w',
    promiseAll env config (role1, messages1) (role2, messages2) w
    = (Thrown (handleHttpError response), w')
    /\ callCount w' = callCount w
    /\ trace w'
       = (trace w ++ [EvRequest (clock w) role1 request1;
                      EvRequest (S (clock w)) role2 request2])%list
    /\ inFlight w' = [mkPending role2 request2 0 (S (clock w)) AwaitResponse]
    /\ callCount (settleInFlight env config w') = S (callCount w)
    /\ trace (settleInFlight env config w') = trace w'
    /\ inFlight (settleInFlight env config w') = [].
Proof.
  intros request1 request2 C F B T1 N R T2 E.
  rewrite promiseAll_unfold by exact C. cbv zeta.
  rewrite awaitBoth_left by (trivial; exact B).
  rewrite (chatResume_http_error _ _ _ _ _ _ _ _ T1 N R). cbn [fst snd].
  rewrite (awaitBoth_settled _ _ _ _ _ _ (Thrown (handleHttpError response)))
    by reflexivity.
  eexists. split; [reflexivity|].
  cbn [leaveRunning wake begin callCount trace inFlight clock cancelled].
  rewrite F, <- app_assoc. cbn [app].
  split; [reflexivity|]. split; [reflexivity|]. split; [reflexivity|].
  unfold settleInFlight. cbn [inFlight fold_left callCount cancelled clock trace].
  change (2 * API.MAX_RETRIES) with 6.
  rewrite chatSettle_resume.
  fold request1 request2.
  rewrite (chatResume_reply _ _ _ _ _ _ _ _ T2 E). cbn [fst snd].
  rewrite chatSettle_settled.
  cbn [snd incrementCallCount wake callCount trace inFlight].
  repeat split.
Qed.

End RunningTogether.

Section RunningTogetherWitness.
Import Fixtures.
Import OpenRouterClient.
Import Observe.

(** X30 on a script: status 401 for the drafter, content for the
    critic. *)
Lemma rejected_promiseAll_leaves_the_other_call_running_witness :
  let env := scripted [httpError 401] (ok "C") in
  exists w',
    promiseAll env config (drafter, []) (critic, []) freshWorld
    = (Thrown (handleHttpError
                 (RequestUrlResponse.mk 401
                    (Unparseable "Unexpected end of JSON input"))),
       w')
    /\ callCount w' = 0
    /\ callCount (settleInFlight env config w') = 1.
Proof.
  intros env.
  destruct (rejected_promiseAll_leaves_the_other_call_running env config
              drafter [] critic [] freshWorld
              (RequestUrlResponse.mk 401 (Unparseable "Unexpected end of JSON input"))
              "C")
    as (w' & P & Cc & _ & _ & Cs & _); try reflexivity.
  - discriminate.
  - exists w'. split; [exact P|]. split; [exact Cc|exact Cs].
Defined.

End RunningTogetherWitness.
